(** * Currency / crypto converter bot: rate resolution and expression engine

    A shallow embedding of [extensions.py] (class [CryptoConverter]), of the
    vocabulary of [config.py] and of the compound-expression branch of
    [text_converter] in [main.py].

    Conventions of the embedding.
    - Python [str] is [string]: the UTF-8 bytes of the text.  Substring
      search, splitting on a character and lexicographic comparison agree
      on code points and on well-formed UTF-8; a scan that meets a
      character of several bytes passes over all of them.
    - Python numbers are exact rationals [Q]; Python's [==] on numbers is
      [Qeq]; division by zero raises [ZeroDivisionError] as it does for
      Python floats.  Rounding and overflow are left to [Binary64], which
      runs the arithmetic of the caching step on IEEE 754 doubles.
    - The process-wide [RATE_CACHE], the wall clock and the two HTTP
      providers are a [world] threaded through a state-and-exception monad;
      the readings of [time.time()] and the answers of [requests.get] come
      from an environment [env].
    - Whitespace and decimal digits are those of Unicode 14, as
      [str.isspace()], [\s] and [\d] see them; the split pattern knows the
      three characters that match the letter ve without regard to case;
      case mapping covers ASCII and the Cyrillic block.  A JSON response is
      null, a boolean, a number, a string or an object. *)

From Stdlib Require Import String Ascii QArith ZArith List Lia Bool.
From Stdlib Require PrimFloat.
From stdpp Require Import gmap strings.
Import ListNotations.

Local Open Scope string_scope.

(** ** Text primitives *)

Module Text.

Definition code (c : ascii) : N := N_of_ascii c.

Definition between (lo hi : N) (c : ascii) : bool :=
  (N.leb lo (code c) && N.leb (code c) hi)%bool.

Definition shift_up (k : N) (c : ascii) : ascii := ascii_of_N (code c + k).
Definition shift_down (k : N) (c : ascii) : ascii := ascii_of_N (code c - k).

(** Lead bytes of the Cyrillic block: U+0400..U+043F start with 0xD0,
    U+0440..U+047F with 0xD1. *)
Definition xD0 : ascii := ascii_of_N 208.
Definition xD1 : ascii := ascii_of_N 209.

(** [str.lower()] on the two alphabets of the vocabulary: the ASCII
    capitals and the Cyrillic capitals U+0400..U+042F are mapped to their
    small letters, every other character is kept.  No other character has
    a lowercase form made of ASCII letters or of these Cyrillic letters,
    except the Kelvin sign (to k, a letter of no key) and the dotted
    capital I (to i followed by a combining dot). *)
Fixpoint lower (s : string) : string :=
  match s with
  | EmptyString => EmptyString
  | String c s' =>
      if between 65 90 c then String (shift_up 32 c) (lower s')
      else if Ascii.eqb c xD0 then
        match s' with
        | String d s'' =>
            if between 128 143 d then String xD1 (String (shift_up 16 d) (lower s''))
            else if between 144 159 d then String xD0 (String (shift_up 32 d) (lower s''))
            else if between 160 175 d then String xD1 (String (shift_down 32 d) (lower s''))
            else String c (lower s')
        | EmptyString => String c (lower s')
        end
      else String c (lower s')
  end.

(** [str.upper()], on the same alphabet. *)
Fixpoint upper (s : string) : string :=
  match s with
  | EmptyString => EmptyString
  | String c s' =>
      if between 97 122 c then String (shift_down 32 c) (upper s')
      else if Ascii.eqb c xD0 then
        match s' with
        | String d s'' =>
            if between 176 191 d then String xD0 (String (shift_down 32 d) (upper s''))
            else String c (upper s')
        | EmptyString => String c (upper s')
        end
      else if Ascii.eqb c xD1 then
        match s' with
        | String d s'' =>
            if between 128 143 d then String xD0 (String (shift_up 32 d) (upper s''))
            else if between 144 159 d then String xD0 (String (shift_down 16 d) (upper s''))
            else String c (upper s')
        | EmptyString => String c (upper s')
        end
      else String c (upper s')
  end.

(** The UTF-8 bytes of the character with code point [cp]. *)
Definition utf8 (cp : N) : string :=
  let byte n := String (ascii_of_N n) in
  (if cp <? 0x80 then byte cp EmptyString
   else if cp <? 0x800 then
     byte (0xC0 + cp / 0x40) (byte (0x80 + cp mod 0x40) EmptyString)
   else if cp <? 0x10000 then
     byte (0xE0 + cp / 0x1000)
       (byte (0x80 + cp / 0x40 mod 0x40) (byte (0x80 + cp mod 0x40) EmptyString))
   else
     byte (0xF0 + cp / 0x40000)
       (byte (0x80 + cp / 0x1000 mod 0x40)
          (byte (0x80 + cp / 0x40 mod 0x40) (byte (0x80 + cp mod 0x40) EmptyString))))%N.

(** The characters for which [str.isspace()] holds; they are the ones that
    [str.strip()] and [str.split()] take away and that the pattern [\s]
    matches: the ASCII controls U+0009..U+000D and U+001C..U+001F, the
    space, U+0085, U+00A0, U+1680, U+2000..U+200A, U+2028, U+2029, U+202F,
    U+205F and U+3000. *)
Definition whitespace : list N :=
  [ 0x09; 0x0A; 0x0B; 0x0C; 0x0D; 0x1C; 0x1D; 0x1E; 0x1F; 0x20; 0x85; 0xA0; 0x1680;
    0x2000; 0x2001; 0x2002; 0x2003; 0x2004; 0x2005; 0x2006; 0x2007; 0x2008; 0x2009;
    0x200A; 0x2028; 0x2029; 0x202F; 0x205F; 0x3000 ]%N.

(** [s.startswith(p)]. *)
Fixpoint starts_with (p s : string) : bool :=
  match p with
  | EmptyString => true
  | String a p' =>
      match s with
      | EmptyString => false
      | String b s' => (Ascii.eqb a b && starts_with p' s')%bool
      end
  end.

(** The first of the characters [chars], given by their code points, that
    [s] starts with. *)
Definition leading (chars : list N) (s : string) : option N :=
  find (fun cp => starts_with (utf8 cp) s) chars.

(** The number of bytes of the whitespace character that [s] starts with;
    0 when it starts with none. *)
Definition space_width (s : string) : nat :=
  match leading whitespace s with
  | Some cp => String.length (utf8 cp)
  | None => 0
  end.

(** [s] without its first [n] bytes. *)
Fixpoint drop (n : nat) (s : string) {struct n} : string :=
  match n, s with
  | S k, String _ s' => drop k s'
  | _, _ => s
  end.

(** [str.lstrip()]; [skip] counts the bytes still to pass of the
    whitespace character being removed. *)
Fixpoint lstrip_from (skip : nat) (s : string) : string :=
  match s with
  | EmptyString => EmptyString
  | String _ s' =>
      match skip with
      | S k => lstrip_from k s'
      | O =>
          match space_width s with
          | S k => lstrip_from k s'
          | O => s
          end
      end
  end.

Definition lstrip (s : string) : string := lstrip_from 0 s.

(** A text of whitespace only (the empty text included). *)
Definition blank (s : string) : bool :=
  match lstrip s with EmptyString => true | _ => false end.

(** [str.rstrip()]: the text is cut where only whitespace follows. *)
Fixpoint rstrip (s : string) : string :=
  match s with
  | EmptyString => EmptyString
  | String c s' => if blank s then EmptyString else String c (rstrip s')
  end.

Definition strip (s : string) : string := rstrip (lstrip s).

(** [needle in hay] for two strings. *)
Fixpoint contains (needle hay : string) : bool :=
  if String.prefix needle hay then true
  else match hay with
       | EmptyString => false
       | String _ hay' => contains needle hay'
       end.

(** [sep.join(parts)]. *)
Fixpoint join (sep : string) (parts : list string) : string :=
  match parts with
  | [] => EmptyString
  | [p] => p
  | p :: rest => p ++ sep ++ join sep rest
  end.

(** [s.replace(c, "")] for a one-character [c]. *)
Fixpoint remove_char (c : ascii) (s : string) : string :=
  match s with
  | EmptyString => EmptyString
  | String d s' => if Ascii.eqb c d then remove_char c s' else String d (remove_char c s')
  end.

(** Python truthiness of a string. *)
Definition nonempty (s : string) : bool :=
  match s with EmptyString => false | _ => true end.

Definition rev_string (s : string) : string :=
  string_of_list_ascii (rev (list_ascii_of_string s)).

End Text.

(** ** Tokens of the expression language *)

Module Lexer.
Import Text.

Definition is_digit (c : ascii) : bool := between 48 57 c.
Definition is_dot (c : ascii) : bool := Ascii.eqb c ".".
Definition is_ascii_letter (c : ascii) : bool :=
  (between 97 122 c || between 65 90 c)%bool.

(** The four arithmetic operators of the split pattern. *)
Definition is_operator_char (c : ascii) : bool :=
  (Ascii.eqb c "+" || Ascii.eqb c "-" || Ascii.eqb c "*" || Ascii.eqb c "/")%bool.

(** What the alternatives of the split pattern match under
    [re.IGNORECASE]: the four operators, the letter ve in its three case
    variants (small, capital, and the rounded small ve U+1C80 that folds to
    it) and the word [to] in any mix of cases. *)
Definition delimiters : list string :=
  [ "+"; "-"; "*"; "/"; "в"; "В"; utf8 0x1C80; "to"; "tO"; "To"; "TO" ].

(** The delimiter that [s] starts with. *)
Definition delimiter_at (s : string) : option string :=
  find (fun d => starts_with d s) delimiters.

(** [re.split(r'(\+|\-|\*|\/|в|to)', s, flags=re.IGNORECASE)]: the pieces
    of text between delimiters, with every delimiter kept as a piece of
    its own; [acc] holds the current piece in reverse and [skip] counts
    the bytes still to pass of the delimiter just met. *)
Fixpoint re_split_from (skip : nat) (acc : string) (s : string) : list string :=
  match s with
  | EmptyString => [rev_string acc]
  | String c s' =>
      match skip with
      | S k => re_split_from k acc s'
      | O =>
          match delimiter_at s with
          | Some d =>
              rev_string acc :: d :: re_split_from (String.length d - 1) EmptyString s'
          | None => re_split_from 0 (String c acc) s'
          end
      end
  end.

Definition re_split (s : string) : list string := re_split_from 0 EmptyString s.

(** The zeros of the decimal digits, the characters of category Nd that
    the pattern [\d] matches and [float()] reads (Unicode 14): the ten
    digits of a script follow one another from its zero. *)
Definition decimal_zeros : list N :=
  [ 0x30; 0x660; 0x6F0; 0x7C0; 0x966; 0x9E6; 0xA66; 0xAE6; 0xB66; 0xBE6; 0xC66;
    0xCE6; 0xD66; 0xDE6; 0xE50; 0xED0; 0xF20; 0x1040; 0x1090; 0x17E0; 0x1810;
    0x1946; 0x19D0; 0x1A80; 0x1A90; 0x1B50; 0x1BB0; 0x1C40; 0x1C50; 0xA620;
    0xA8D0; 0xA900; 0xA9D0; 0xA9F0; 0xAA50; 0xABF0; 0xFF10; 0x104A0; 0x10D30;
    0x11066; 0x110F0; 0x11136; 0x111D0; 0x112F0; 0x11450; 0x114D0; 0x11650;
    0x116C0; 0x11730; 0x118E0; 0x11950; 0x11C50; 0x11D50; 0x11DA0; 0x16A60;
    0x16AC0; 0x16B50; 0x1D7CE; 0x1D7D8; 0x1D7E2; 0x1D7EC; 0x1D7F6; 0x1E140;
    0x1E2F0; 0x1E950; 0x1FBF0 ]%N.

(** Every decimal digit with its value. *)
Definition decimal_digits : list (N * N) :=
  flat_map (fun zero => map (fun v => (zero + v, v)%N) [0; 1; 2; 3; 4; 5; 6; 7; 8; 9]%N)
    decimal_zeros.

(** The value and the number of bytes of the decimal digit that [s]
    starts with. *)
Definition digit_at (s : string) : option (N * nat) :=
  match find (fun d => starts_with (utf8 (fst d)) s) decimal_digits with
  | Some (cp, v) => Some (v, String.length (utf8 cp))
  | None => None
  end.

(** Longest prefix of characters of the class [[\d\.]], and the rest;
    [skip] counts the bytes still to pass of the digit just met. *)
Fixpoint span_number (skip : nat) (s : string) : string * string :=
  match s with
  | EmptyString => (EmptyString, EmptyString)
  | String c s' =>
      match skip with
      | S k => let (a, b) := span_number k s' in (String c a, b)
      | O =>
          if is_dot c then let (a, b) := span_number 0 s' in (String c a, b)
          else
            match digit_at s with
            | Some (_, S k) => let (a, b) := span_number k s' in (String c a, b)
            | _ => (EmptyString, s)
            end
      end
  end.

(** Longest prefix made of characters satisfying [p], and the rest. *)
Fixpoint span (p : ascii -> bool) (s : string) : string * string :=
  match s with
  | EmptyString => (EmptyString, EmptyString)
  | String c s' =>
      if p c then let (a, b) := span p s' in (String c a, b)
      else (EmptyString, s)
  end.

(** Longest prefix of letters of the class [a-zA-Zа-яА-Я]: an ASCII letter,
    or 0xD0 followed by 0x90..0xBF (U+0410..U+043F), or 0xD1 followed by
    0x80..0x8F (U+0440..U+044F). *)
Fixpoint span_letters (s : string) : string * string :=
  match s with
  | EmptyString => (EmptyString, EmptyString)
  | String c s' =>
      if is_ascii_letter c then
        let (a, b) := span_letters s' in (String c a, b)
      else
        match s' with
        | String d s'' =>
            if ((Ascii.eqb c xD0 && between 144 191 d)
                || (Ascii.eqb c xD1 && between 128 143 d))%bool
            then let (a, b) := span_letters s'' in (String c (String d a), b)
            else (EmptyString, s)
        | EmptyString => (EmptyString, s)
        end
  end.

(** [re.match(r'^([\d\.]+)\s*([a-zA-Zа-яА-Я]+)?$', part)]: the two groups of
    a match, [None] when the part does not match.  The three character
    classes are disjoint, so each group is the longest run of its class;
    [$] also accepts one final line feed. *)
Definition match_term (part : string) : option (string * option string) :=
  let (number, rest) := span_number 0 part in
  if nonempty number then
    let (letters, tail) := span_letters (lstrip rest) in
    if (negb (nonempty tail) || String.eqb tail (String (ascii_of_N 10) EmptyString))%bool
    then Some (number, if nonempty letters then Some letters else None)
    else None
  else None.

(** The text with every decimal digit replaced by the ASCII digit of its
    value, which is how [float()] first reads its argument. *)
Fixpoint ascii_digits (skip : nat) (s : string) : string :=
  match s with
  | EmptyString => EmptyString
  | String c s' =>
      match skip with
      | S k => ascii_digits k s'
      | O =>
          match digit_at s with
          | Some (v, S k) => String (ascii_of_N (48 + v)) (ascii_digits k s')
          | _ => String c (ascii_digits 0 s')
          end
      end
  end.

Fixpoint digits_value (acc : N) (s : string) : N :=
  match s with
  | EmptyString => acc
  | String c s' => digits_value (acc * 10 + (code c - 48)) s'
  end.

(** The number written by ASCII digits with at most one dot and at least
    one digit, as an exact decimal; [None] for anything else. *)
Definition decimal_value (text : string) : option Q :=
  let (ip, rest) := span is_digit text in
  match rest with
  | EmptyString =>
      if nonempty ip then Some (Z.of_N (digits_value 0 ip) # 1) else None
  | String c fr =>
      if is_dot c then
        let (fp, rest') := span is_digit fr in
        if nonempty rest' then None
        else if (nonempty ip || nonempty fp)%bool then
          let scale := (10 ^ Z.of_nat (String.length fp))%Z in
          Some ((Z.of_N (digits_value 0 ip) * scale + Z.of_N (digits_value 0 fp))
                # Z.to_pos scale)
        else None
      else None
  end.

(** [float(text)] for a text of the class [[\d\.]+]: decimal digits of any
    script with at most one dot and at least one digit; anything else is a
    [ValueError] ([None]). *)
Definition float_of_digits (text : string) : option Q :=
  decimal_value (ascii_digits 0 text).

End Lexer.

(** ** Vocabulary ([config.py]) *)

Module Config.

(** [Config.CURRENCIES]: canonical name to ticker, in source order. *)
Definition CURRENCIES : list (string * string) :=
  [ ("Доллар", "USD"); ("Евро", "EUR"); ("Рубль", "RUB"); ("Юань", "CNY");
    ("Белорусский рубль", "BYN"); ("Индийская рупия", "INR");
    ("Биткоин", "BTC"); ("Эфириум", "ETH"); ("Лайткоин", "LTC");
    ("Тезер", "USDT"); ("Бинанс", "BNB"); ("Рипл", "XRP"); ("Догикоин", "DOGE") ].

Definition COINGECKO_API_URL : string := "https://api.coingecko.com/api/v3".

End Config.

(** [COINGECKO_IDS] of [extensions.py]. *)
Definition COINGECKO_IDS : list (string * string) :=
  [ ("btc", "bitcoin"); ("eth", "ethereum"); ("ltc", "litecoin");
    ("usdt", "tether"); ("bnb", "binancecoin"); ("xrp", "ripple");
    ("doge", "dogecoin"); ("ada", "cardano"); ("dot", "polkadot");
    ("sol", "solana") ].

(** [d.get(k)] / [k in d] on a dict literal kept in source order. *)
Fixpoint assoc {V : Type} (k : string) (d : list (string * V)) : option V :=
  match d with
  | [] => None
  | (k', v) :: d' => if String.eqb k k' then Some v else assoc k d'
  end.

(** [x in l] for a list of strings. *)
Definition mem (x : string) (l : list string) : bool :=
  existsb (String.eqb x) l.

(** The table [currency_map] local to [normalize_currency_name], in source
    order (the order in which the [for] loop meets its items). *)
Definition currency_map : list (string * string) :=
  [ ("доллар", "Доллар"); ("евро", "Евро"); ("рубль", "Рубль"); ("юань", "Юань");
    ("белорусский рубль", "Белорусский рубль");
    ("индийская рупия", "Индийская рупия");
    ("биткоин", "Биткоин"); ("эфириум", "Эфириум"); ("лайткоин", "Лайткоин");
    ("тезер", "Тезер"); ("рипл", "Рипл"); ("догикоин", "Догикоин");
    ("бинанс", "Бинанс");
    ("usd", "Доллар"); ("eur", "Евро"); ("rub", "Рубль"); ("cny", "Юань");
    ("byn", "Белорусский рубль"); ("inr", "Индийская рупия");
    ("btc", "Биткоин"); ("eth", "Эфириум"); ("ltc", "Лайткоин");
    ("usdt", "Тезер"); ("xrp", "Рипл"); ("doge", "Догикоин"); ("bnb", "Бинанс");
    ("бакс", "Доллар"); ("баки", "Доллар"); ("биток", "Биткоин");
    ("эфир", "Эфириум"); ("лайт", "Лайткоин"); ("доги", "Догикоин") ].

(** The first item of the table whose key occurs in [name]. *)
Fixpoint first_partial (name : string) (table : list (string * string)) : option string :=
  match table with
  | [] => None
  | (key, value) :: table' =>
      if Text.contains key name then Some value else first_partial name table'
  end.

(** The first key of [CURRENCIES] whose lowercase form is [name]. *)
Fixpoint first_canonical (name : string) (d : list (string * string)) : option string :=
  match d with
  | [] => None
  | (currency_name, _) :: d' =>
      if String.eqb (Text.lower currency_name) name then Some currency_name
      else first_canonical name d'
  end.

(** [CryptoConverter.normalize_currency_name]; the argument is [None] for
    Python's [None]. *)
Definition normalize_currency_name (name : option string) : option string :=
  match name with
  | None => None
  | Some raw =>
      if negb (Text.nonempty raw) then None
      else
        let name := Text.lower (Text.strip raw) in
        match assoc name currency_map with
        | Some canonical => Some canonical
        | None =>
            match first_partial name currency_map with
            | Some canonical => Some canonical
            | None => first_canonical name Config.CURRENCIES
            end
        end
  end.

(** ** Exceptions *)

(** The exceptions the engine raises or lets through.  [APIException]
    carries which of the source's messages it was built with; the two
    wrapping messages carry the exception they wrap ([str(e)]). *)
Inductive exc : Type :=
| ZeroDivisionError
| TypeError
| KeyError
| AttributeError
| ValueError                      (* [float()], [response.json()] *)
| RequestException                (* [requests.get] itself failed *)
| APIException (m : message)
with message : Type :=
| UnknownCurrencyMsg (name : string)        (* "Неизвестная валюта: ..." *)
| UnsupportedCryptoMsg                      (* "Неподдерживаемая криптовалюта" *)
| CoinGeckoStatusMsg                        (* "Ошибка при получении данных от CoinGecko" *)
| CryptoRateMissingMsg                      (* "Не удалось получить курс для криптовалют" *)
| CryptoRateErrorMsg                        (* "Ошибка получения курса криптовалют" *)
| OpenExchangeStatusMsg                     (* "Ошибка при получении данных от OpenExchangeRates" *)
| OpenExchangeResponseMsg                   (* "Ошибка в ответе Open Exchange Rates" *)
| FiatNotFoundMsg (base quote : string)     (* "Одна из валют ... или ... не найдена" *)
| ViaUsdMsg (e : exc)                       (* "Ошибка конвертации через USD: ..." *)
| ConversionMsg (e : exc)                   (* "Ошибка конвертации: ..." *)
| CannotParseExpressionMsg                  (* "Невозможно разобрать выражение" *)
| CannotParsePartMsg (part : string)        (* "Не могу разобрать часть: ..." *)
| DivisionByZeroMsg                         (* "Деление на ноль" *)
| UnknownTargetMsg (name : string).         (* "Неизвестная целевая валюта: ..." *)

Inductive outcome (A : Type) : Type :=
| Ok (a : A)
| Raise (e : exc).
Arguments Ok {A} a.
Arguments Raise {A} e.

(** ** JSON values and the Python operations applied to them *)

(** What [response.json()] returns.  Arrays are left out: neither provider
    answers with one. *)
#[warnings="-register-all"] Inductive json : Type :=
| JNull
| JBool (b : bool)
| JNum (q : Q)
| JStr (s : string)
| JObj (fields : list (string * json)).

Module Py.

Definition Qlt_bool (x y : Q) : bool := negb (Qle_bool y x).

(** [k in v] for a string [k]. *)
Definition contains (k : string) (v : json) : outcome bool :=
  match v with
  | JObj fields => Ok (match assoc k fields with Some _ => true | None => false end)
  | JStr s => Ok (Text.contains k s)
  | _ => Raise TypeError
  end.

(** [v[k]] for a string [k]. *)
Definition getitem (v : json) (k : string) : outcome json :=
  match v with
  | JObj fields => match assoc k fields with Some x => Ok x | None => Raise KeyError end
  | _ => Raise TypeError
  end.

(** [v.get(k, default)]. *)
Definition get_default (v : json) (k : string) (default : json) : outcome json :=
  match v with
  | JObj fields => Ok (match assoc k fields with Some x => x | None => default end)
  | _ => Raise AttributeError
  end.

(** [v.get(k)]. *)
Definition get (v : json) (k : string) : outcome json := get_default v k JNull.

(** Truth value of [v] (what [not v] negates). *)
Definition truthy (v : json) : bool :=
  match v with
  | JNull => false
  | JBool b => b
  | JNum q => negb (Qeq_bool q 0)
  | JStr s => Text.nonempty s
  | JObj fields => match fields with [] => false | _ => true end
  end.

(** The number an operand of float arithmetic stands for; [bool] is a
    number in Python, anything else makes the arithmetic of the converter
    end in a [TypeError]. *)
Definition number (v : json) : outcome Q :=
  match v with
  | JNum q => Ok q
  | JBool b => Ok (if b then 1 else 0)%Q
  | _ => Raise TypeError
  end.

(** [x / y] on exact rationals: it raises for a zero divisor, as Python
    does, and neither rounds nor overflows ([Binary64.div] does). *)
Definition div (x y : Q) : outcome Q :=
  if Qeq_bool y 0 then Raise ZeroDivisionError else Ok (x / y)%Q.

(** [b > a] for two strings: lexicographic on code points. *)
Fixpoint str_gt (b a : string) : bool :=
  match b, a with
  | EmptyString, _ => false
  | String _ _, EmptyString => true
  | String x b', String y a' =>
      if N.ltb (Text.code y) (Text.code x) then true
      else if N.ltb (Text.code x) (Text.code y) then false
      else str_gt b' a'
  end.

(** [max(a, b)]: [a] unless [b > a]. *)
Definition max (a b : json) : outcome json :=
  match number a, number b with
  | Ok x, Ok y => Ok (if Qlt_bool x y then b else a)
  | _, _ =>
      match a, b with
      | JStr s, JStr t => Ok (if str_gt t s then b else a)
      | _, _ => Raise TypeError
      end
  end.

End Py.

(** ** Binary floating point *)

(** The arithmetic of [get_price] and of the fiat path on IEEE 754
    doubles, which is what a Python [float] is: products and quotients
    round, overflow to an infinity and propagate NaN; only a division by
    zero raises. *)
Module Binary64.
Import PrimFloat.
Local Open Scope float_scope.

(** [x / y]. *)
Definition div (x y : float) : outcome float :=
  if PrimFloat.eqb y 0 then Raise ZeroDivisionError else Ok (x / y).

(** Lines 247 and 248 of [convert_fiat_to_fiat]:
    [(amount / base_rate) * quote_rate * (1 + commission/100)]. *)
Definition fiat_result (amount base_rate quote_rate commission : float) : outcome float :=
  match div amount base_rate with
  | Ok per_base => Ok (per_base * quote_rate * (1 + commission / 100))
  | Raise e => Raise e
  end.

(** Line 74 of [get_price]: the rate per unit handed to [cache_rate]. *)
Definition actual_rate (result amount commission : float) : outcome float :=
  div result (amount * (1 + commission / 100)).

(** Line 58 of [get_price]: the amount returned from a cached rate. *)
Definition cached_result (amount cached_rate commission : float) : float :=
  amount * cached_rate * (1 + commission / 100).

(** [float("1e308")], and the rouble rate of the sample snapshot. *)
Definition huge : float := 0x1.1ccf385ebc8ap+1023.
Definition rouble_rate : float := 90.

End Binary64.

(** ** The world: rate cache, clock and providers *)

(** What [requests.get(url)] gives: it raises, or it returns a response
    whose [json()] is [body] ([None] when the body is not JSON). *)
Inductive http_result : Type :=
| ConnectionFailed
| Response (status_code : Z) (body : option json).

(** The environment of a run: the [k]-th reading of [time.time()], the
    answer to the [n]-th request as a function of its URL, and the API key
    taken from the process environment. *)
Record env : Type := {
  clock : nat -> Q;
  http : nat -> string -> http_result;
  OPENEXCHANGE_API_KEY : string
}.

(** [RATE_CACHE] maps the key [base_quote] to [(rate, time stored)];
    [ticks] counts the clock readings and [requests] lists the URLs
    requested so far, oldest first. *)
Record world : Type := {
  RATE_CACHE : gmap string (Q * Q);
  ticks : nat;
  requests : list string
}.

Definition M (A : Type) : Type := world -> outcome A * world.

Definition ret {A} (a : A) : M A := fun w => (Ok a, w).
Definition raise {A} (e : exc) : M A := fun w => (Raise e, w).
Definition lift {A} (o : outcome A) : M A := fun w => (o, w).
Definition bind {A B} (m : M A) (k : A -> M B) : M B :=
  fun w => match m w with
           | (Ok a, w') => k a w'
           | (Raise e, w') => (Raise e, w')
           end.

(** [try: m  except Exception as e: handler e]. *)
Definition try_except {A} (m : M A) (handler : exc -> M A) : M A :=
  fun w => match m w with
           | (Ok a, w') => (Ok a, w')
           | (Raise e, w') => handler e w'
           end.

Notation "'let*' x ':=' m 'in' k" := (bind m (fun x => k))
  (at level 10, x name, m at level 100, k at level 200).
Notation "'let*' ' p ':=' m 'in' k" := (bind m (fun x => match x with p => k end))
  (at level 10, p pattern, m at level 100, k at level 200).

Definition CACHE_DURATION : Q := 3600%Q.

Definition cache_key (base quote : string) : string := base ++ "_" ++ quote.

(** The three ways the engine changes the world. *)
Definition tick (w : world) : world :=
  {| RATE_CACHE := RATE_CACHE w; ticks := S (ticks w); requests := requests w |}.
Definition sent (url : string) (w : world) : world :=
  {| RATE_CACHE := RATE_CACHE w; ticks := ticks w; requests := requests w ++ [url] |}.
Definition store (key : string) (entry : Q * Q) (w : world) : world :=
  {| RATE_CACHE := <[key := entry]> (RATE_CACHE w); ticks := ticks w;
     requests := requests w |}.

(** ** The converter ([extensions.py], class [CryptoConverter]) *)

Section Converter.

Variable E : env.

(** [time.time()]. *)
Definition time_time : M Q :=
  fun w => (Ok (clock E (ticks w)), tick w).

(** [requests.get(url)]. *)
Definition requests_get (url : string) : M (Z * option json) :=
  fun w =>
    match http E (length (requests w)) url with
    | ConnectionFailed => (Raise RequestException, sent url w)
    | Response status_code body => (Ok (status_code, body), sent url w)
    end.

(** [response.json()]. *)
Definition response_json (response : Z * option json) : M json :=
  match snd response with
  | Some data => ret data
  | None => raise ValueError
  end.

Definition status_code (response : Z * option json) : Z := fst response.

(** [RATE_CACHE.get(key)]. *)
Definition cache_get (key : string) : M (option (Q * Q)) :=
  fun w => (Ok (RATE_CACHE w !! key), w).

(** [CryptoConverter.get_cached_rate]; [None] stands for the pair
    [(None, None)].  The clock is read only when the key has an entry. *)
Definition get_cached_rate (base quote : string) : M (option (Q * Q)) :=
  let* cached := cache_get (cache_key base quote) in
  match cached with
  | Some (rate, stored) =>
      let* now := time_time in
      if Py.Qlt_bool (now - stored) CACHE_DURATION then ret (Some (rate, stored))
      else ret None
  | None => ret None
  end.

(** [CryptoConverter.cache_rate]. *)
Definition cache_rate (base quote : string) (rate : Q) : M unit :=
  fun w => (Ok tt, tick (store (cache_key base quote) (rate, clock E (ticks w)) w)).

Definition commission_factor (commission : Q) : Q := (1 + commission / 100)%Q.

Definition openexchange_url : string :=
  "https://openexchangerates.org/api/latest.json?app_id=" ++ OPENEXCHANGE_API_KEY E.

Definition simple_price_url (ids vs_currencies : string) : string :=
  Config.COINGECKO_API_URL ++ "/simple/price?ids=" ++ ids
    ++ "&vs_currencies=" ++ vs_currencies.

(** [CryptoConverter.convert_crypto_to_crypto]. *)
Definition convert_crypto_to_crypto (base_code quote_code : string)
    (amount commission : Q) : M (Q * json) :=
  match assoc base_code COINGECKO_IDS, assoc quote_code COINGECKO_IDS with
  | Some base_id, Some quote_id =>
      let* response := requests_get (simple_price_url (base_id ++ "," ++ quote_id) "usd") in
      if negb (status_code response =? 200)%Z then raise (APIException CoinGeckoStatusMsg)
      else
        let* data := response_json response in
        let* ts := time_time in
        let* has_base := lift (Py.contains base_id data) in
        let* has_both := (if has_base then lift (Py.contains quote_id data) else ret false) in
        if has_both then
          let* base_entry := lift (Py.getitem data base_id) in
          let* base_usd := lift (Py.get base_entry "usd") in
          let* quote_entry := lift (Py.getitem data quote_id) in
          let* quote_usd := lift (Py.get quote_entry "usd") in
          if (negb (Py.truthy base_usd) || negb (Py.truthy quote_usd))%bool
          then raise (APIException CryptoRateMissingMsg)
          else
            let* b := lift (Py.number base_usd) in
            let* q := lift (Py.number quote_usd) in
            let* result := lift (Py.div (amount * b) q) in
            ret ((result * commission_factor commission)%Q, JNum ts)
        else raise (APIException CryptoRateErrorMsg)
  | _, _ => raise (APIException UnsupportedCryptoMsg)
  end.

(** [CryptoConverter.convert_fiat_to_fiat]. *)
Definition convert_fiat_to_fiat (base_code quote_code : string)
    (amount commission : Q) : M (Q * json) :=
  let* response := requests_get openexchange_url in
  if negb (status_code response =? 200)%Z then raise (APIException OpenExchangeStatusMsg)
  else
    let* data := response_json response in
    let* has_rates := lift (Py.contains "rates" data) in
    let* has_both := (if has_rates then lift (Py.contains "timestamp" data) else ret false) in
    if negb has_both then raise (APIException OpenExchangeResponseMsg)
    else
      let* rates := lift (Py.getitem data "rates") in
      let* ts := lift (Py.getitem data "timestamp") in
      let* base_rate := lift (Py.get rates (Text.upper base_code)) in
      let* quote_rate := lift (Py.get rates (Text.upper quote_code)) in
      if (negb (Py.truthy base_rate) || negb (Py.truthy quote_rate))%bool
      then raise (APIException (FiatNotFoundMsg (Text.upper base_code) (Text.upper quote_code)))
      else
        let* b := lift (Py.number base_rate) in
        let* per_base := lift (Py.div amount b) in
        let* q := lift (Py.number quote_rate) in
        ret ((per_base * q * commission_factor commission)%Q, ts).

(** First half of [convert_via_usd]: the value bound to [base_to_usd] and
    the timestamp [ts1]. *)
Definition base_to_usd_step (base_code : string) : M (json * json) :=
  match assoc base_code COINGECKO_IDS with
  | Some base_id =>
      let* response := requests_get (simple_price_url base_id "usd") in
      let* data := response_json response in
      let* entry := lift (Py.getitem data base_id) in
      let* base_to_usd := lift (Py.getitem entry "usd") in
      let* ts1 := time_time in
      ret (base_to_usd, JNum ts1)
  | None =>
      let* response := requests_get openexchange_url in
      let* data := response_json response in
      let* rates := lift (Py.getitem data "rates") in
      let* base_to_usd := lift (Py.get_default rates (Text.upper base_code) (JNum 1)) in
      let* ts1 := lift (Py.getitem data "timestamp") in
      ret (base_to_usd, ts1)
  end.

(** Second half of [convert_via_usd]: the value bound to [usd_to_quote] and
    the timestamp [ts2]. *)
Definition usd_to_quote_step (quote_code : string) : M (json * json) :=
  match assoc quote_code COINGECKO_IDS with
  | Some quote_id =>
      let* response := requests_get (simple_price_url quote_id "usd") in
      let* data := response_json response in
      let* entry := lift (Py.getitem data quote_id) in
      let* price := lift (Py.getitem entry "usd") in
      let* p := lift (Py.number price) in
      let* usd_to_quote := lift (Py.div 1 p) in
      let* ts2 := time_time in
      ret (JNum usd_to_quote, JNum ts2)
  | None =>
      let* response := requests_get openexchange_url in
      let* data := response_json response in
      let* rates := lift (Py.getitem data "rates") in
      let* usd_to_quote := lift (Py.get_default rates (Text.upper quote_code) (JNum 1)) in
      let* ts2 := lift (Py.getitem data "timestamp") in
      ret (usd_to_quote, ts2)
  end.

(** [CryptoConverter.convert_via_usd]. *)
Definition convert_via_usd (base_code quote_code : string)
    (amount commission : Q) : M (Q * json) :=
  try_except
    (let* '(base_to_usd, ts1) := base_to_usd_step base_code in
     let* '(usd_to_quote, ts2) := usd_to_quote_step quote_code in
     let* b := lift (Py.number base_to_usd) in
     let* q := lift (Py.number usd_to_quote) in
     let result := (amount * b * q * commission_factor commission)%Q in
     let* ts := lift (Py.max ts1 ts2) in
     ret (result, ts))
    (fun e => raise (APIException (ViaUsdMsg e))).

(** [code in COINGECKO_IDS.keys()]. *)
Definition in_coingecko (code : string) : bool :=
  match assoc code COINGECKO_IDS with Some _ => true | None => false end.

(** [CryptoConverter.convert_crypto_to_fiat]. *)
Definition convert_crypto_to_fiat (base_code quote_code : string)
    (amount commission : Q) : M (Q * json) :=
  let crypto_code := if in_coingecko base_code then base_code else quote_code in
  let fiat_code := if in_coingecko base_code then quote_code else base_code in
  match assoc crypto_code COINGECKO_IDS with
  | None => raise (APIException UnsupportedCryptoMsg)
  | Some crypto_id =>
      let* response := requests_get (simple_price_url crypto_id fiat_code) in
      if negb (status_code response =? 200)%Z then raise (APIException CoinGeckoStatusMsg)
      else
        let* data := response_json response in
        let* ts := time_time in
        let* has_crypto := lift (Py.contains crypto_id data) in
        let* has_quote :=
          (if has_crypto then
             let* entry := lift (Py.getitem data crypto_id) in
             lift (Py.contains fiat_code entry)
           else ret false) in
        if has_quote then
          let* entry := lift (Py.getitem data crypto_id) in
          let* rate := lift (Py.getitem entry fiat_code) in
          let* r := lift (Py.number rate) in
          let* result :=
            (if in_coingecko base_code then ret (amount * r)%Q
             else lift (Py.div amount r)) in
          ret ((result * commission_factor commission)%Q, JNum ts)
        else convert_via_usd base_code quote_code amount commission
  end.

Definition crypto_list : list string :=
  ["btc"; "eth"; "ltc"; "usdt"; "bnb"; "xrp"; "doge"].

(** Lines 62 to 71 of [get_price]: the choice of the conversion path. *)
Definition route (base_code quote_code : string) (amount commission : Q) : M (Q * json) :=
  if (mem base_code crypto_list || mem quote_code crypto_list)%bool then
    if (mem base_code crypto_list && mem quote_code crypto_list)%bool
    then convert_crypto_to_crypto base_code quote_code amount commission
    else convert_crypto_to_fiat base_code quote_code amount commission
  else convert_fiat_to_fiat base_code quote_code amount commission.

(** [Config.CURRENCIES[key].lower()]. *)
Definition currency_code (key : string) : M string :=
  match assoc key Config.CURRENCIES with
  | Some code => ret (Text.lower code)
  | None => raise KeyError
  end.

(** The [try] statement of [get_price] (lines 60 to 81): resolve the rate
    on the chosen path, store the implied rate per unit, and wrap whatever
    is not an [APIException]. *)
Definition resolve_and_cache (base_code quote_code : string)
    (amount commission : Q) : M (Q * json) :=
  try_except
    (let* '(result, ts) := route base_code quote_code amount commission in
     let* actual_rate := lift (Py.div result (amount * commission_factor commission)) in
     let* _ := cache_rate base_code quote_code actual_rate in
     ret (result, ts))
    (fun e =>
       match e with
       | APIException _ => raise e
       | _ => raise (APIException (ConversionMsg e))
       end).

(** [CryptoConverter.get_price]. *)
Definition get_price (base quote : string) (amount commission : Q) : M (Q * json) :=
  let base_key := normalize_currency_name (Some base) in
  let quote_key := normalize_currency_name (Some quote) in
  match base_key, quote_key with
  | None, _ => raise (APIException (UnknownCurrencyMsg base))
  | Some _, None => raise (APIException (UnknownCurrencyMsg quote))
  | Some base_key, Some quote_key =>
      let* base_code := currency_code base_key in
      let* quote_code := currency_code quote_key in
      let* cached := get_cached_rate base_code quote_code in
      match cached with
      | Some (cached_rate, cached_ts) =>
          ret ((amount * cached_rate * commission_factor commission)%Q, JNum cached_ts)
      | None => resolve_and_cache base_code quote_code amount commission
      end
  end.

(** The operator step of [process_complex_expression] (lines 347 to 356). *)
Definition apply_operator (current_operator : string) (total_usd converted : Q) : M Q :=
  if String.eqb current_operator "+" then ret (total_usd + converted)%Q
  else if String.eqb current_operator "-" then ret (total_usd - converted)%Q
  else if String.eqb current_operator "*" then ret (total_usd * converted)%Q
  else if String.eqb current_operator "/" then
    if Qeq_bool converted 0 then raise (APIException DivisionByZeroMsg)
    else ret (total_usd / converted)%Q
  else ret total_usd.

(** Lines 325 to 336: the amount and the currency token of a term. *)
Definition parse_term (part : string) : M (Q * string) :=
  match Lexer.match_term part with
  | None =>
      match normalize_currency_name (Some part) with
      | Some currency => ret (1%Q, currency)
      | None => raise (APIException (CannotParsePartMsg part))
      end
  | Some (number, letters) =>
      match Lexer.float_of_digits number with
      | None => raise ValueError
      | Some amount =>
          ret (amount, match letters with Some currency => currency | None => "USD" end)
      end
  end.

(** The [for] loop of [process_complex_expression] over the parts still to
    be read: it returns the total and the target token, if any. *)
Fixpoint eval_parts (parts : list string) (total_usd : Q) (current_operator : string)
    : M (Q * option string) :=
  match parts with
  | [] => ret (total_usd, None)
  | part :: rest =>
      if mem (Text.lower part) ["в"; "to"] then
        ret (total_usd,
             match rest with [] => None | _ => Some (Text.join " " rest) end)
      else if mem part ["+"; "-"; "*"; "/"] then
        eval_parts rest total_usd part
      else
        let* '(amount, currency) := parse_term part in
        match normalize_currency_name (Some currency) with
        | None => raise (APIException (UnknownCurrencyMsg currency))
        | Some curr_key =>
            let* priced := get_price curr_key "USD" amount 0 in
            let* total_usd := apply_operator current_operator total_usd (fst priced) in
            eval_parts rest total_usd current_operator
        end
  end.

(** The parts of an expression (lines 299 to 303). *)
Definition expression_parts (expression : string) : list string :=
  let expression := Text.remove_char ")" (Text.remove_char "(" expression) in
  filter Text.nonempty (map Text.strip (Lexer.re_split expression)).

(** [CryptoConverter.process_complex_expression]. *)
Definition process_complex_expression (expression : string) : M (Q * string) :=
  let parts := expression_parts expression in
  if (length parts <? 3)%nat then raise (APIException CannotParseExpressionMsg)
  else
    let* '(total_usd, target_currency) := eval_parts parts 0 "+" in
    let target_currency :=
      match target_currency with
      | Some t => if Text.nonempty t then t else "USD"
      | None => "USD"
      end in
    match normalize_currency_name (Some target_currency) with
    | None => raise (APIException (UnknownTargetMsg target_currency))
    | Some target_key => ret (total_usd, target_key)
    end.

(** ** The compound-expression branch of [text_converter] ([main.py]) *)

(** The test that sends a message to the expression evaluator. *)
Definition is_complex_expression (text : string) : bool :=
  (existsb Lexer.is_operator_char (list_ascii_of_string text)
   && (Text.contains " в " text || Text.contains " to " text))%bool.

(** The [try] body of that branch: the USD total, the target name, and the
    converted amount with its timestamp. *)
Definition convert_expression (text : string) : M (Q * string * (Q * json)) :=
  let* '(total_usd, target_currency) := process_complex_expression text in
  let* converted := get_price "USD" target_currency total_usd 0 in
  ret (total_usd, target_currency, converted).

End Converter.

(** ** The specification's vocabulary of errors and lookups *)

(** The error kinds of the specification. *)
Inductive error_kind : Type :=
| UnknownCurrency
| UpstreamUnavailable
| ConversionFailed
| ExpressionTooShort
| UnparsableTerm
| DivisionByZero.

(** The kind each message of the source belongs to: a status other than
    200 or a missing field is [UpstreamUnavailable], the two wrappers
    around an unexpected exception are [ConversionFailed]. *)
Definition kind_of_message (m : message) : error_kind :=
  match m with
  | UnknownCurrencyMsg _ | UnknownTargetMsg _ => UnknownCurrency
  | UnsupportedCryptoMsg | CoinGeckoStatusMsg | CryptoRateMissingMsg
  | CryptoRateErrorMsg | OpenExchangeStatusMsg | OpenExchangeResponseMsg
  | FiatNotFoundMsg _ _ => UpstreamUnavailable
  | ViaUsdMsg _ | ConversionMsg _ => ConversionFailed
  | CannotParseExpressionMsg => ExpressionTooShort
  | CannotParsePartMsg _ => UnparsableTerm
  | DivisionByZeroMsg => DivisionByZero
  end.

Definition error_kind_of (e : exc) : option error_kind :=
  match e with
  | APIException m => Some (kind_of_message m)
  | _ => None
  end.

(** The lowercase ticker that [get_price] derives from a currency name
    (lines 41 to 51), when the name resolves. *)
Definition ticker_of (name : string) : option string :=
  match normalize_currency_name (Some name) with
  | Some key => option_map Text.lower (assoc key Config.CURRENCIES)
  | None => None
  end.

(** normalizeCurrencyName as the specification words it: lowercase and
    trim; the canonical name of an exact match in the alias and ticker
    table; else that of the first entry whose key is a substring of the
    input; else the canonical name whose lowercase form is the input; else
    nothing. *)
Definition normalizeCurrencyName (raw : option string) : option string :=
  match raw with
  | None => None
  | Some raw =>
      let input := Text.strip (Text.lower raw) in
      match find (fun entry => String.eqb (fst entry) input) currency_map with
      | Some entry => Some (snd entry)
      | None =>
          match find (fun entry => Text.contains (fst entry) input) currency_map with
          | Some entry => Some (snd entry)
          | None =>
              option_map fst
                (find (fun entry => String.eqb (Text.lower (fst entry)) input)
                      Config.CURRENCIES)
          end
      end
  end.

(** ** Sample worlds and providers *)

Definition empty_world : world :=
  {| RATE_CACHE := ∅; ticks := 0; requests := [] |}.

(** A fiat snapshot with USD = 1, EUR = 10/11 (so that one euro is 1.1
    dollars) and RUB = 90, published at [published]. *)
Definition snapshot (published : json) : json :=
  JObj [ ("timestamp", published);
         ("rates", JObj [ ("USD", JNum 1); ("EUR", JNum (10 # 11)); ("RUB", JNum 90) ]) ].

(** Providers that answer every request with that snapshot. *)
Definition fiat_env (clock : nat -> Q) (published : json) (key : string) : env :=
  {| clock := clock;
     http := fun _ _ => Response 200 (Some (snapshot published));
     OPENEXCHANGE_API_KEY := key |}.

(** Providers where the crypto service has no direct rouble quote for
    bitcoin but prices it at 50000 dollars, next to the same snapshot. *)
Definition bridge_env (clock : nat -> Q) (published : json) (key : string) : env :=
  {| clock := clock;
     http := fun _ url =>
       if String.eqb url (Config.COINGECKO_API_URL ++ "/simple/price?ids=bitcoin&vs_currencies=rub")
       then Response 200 (Some (JObj [ ("bitcoin", JObj []) ]))
       else if String.eqb url (Config.COINGECKO_API_URL ++ "/simple/price?ids=bitcoin&vs_currencies=usd")
       then Response 200 (Some (JObj [ ("bitcoin", JObj [ ("usd", JNum 50000) ]) ]))
       else Response 200 (Some (snapshot published));
     OPENEXCHANGE_API_KEY := key |}.

Definition seconds (n : nat) : Q := inject_Z (Z.of_nat n).

(** ** Predicates on computations *)

(** [m] leaves the rate cache as it found it, whatever its outcome. *)
Definition keeps_cache {A} (m : M A) : Prop :=
  forall w, RATE_CACHE (snd (m w)) = RATE_CACHE w.

(** [m] leaves the rate cache as it found it whenever it raises. *)
Definition keeps_cache_on_error {A} (m : M A) : Prop :=
  forall w e w', m w = (Raise e, w') -> RATE_CACHE w' = RATE_CACHE w.

(** [m] only adds requests to the log, and at most [n] of them. *)
Definition sends_at_most {A} (n : nat) (m : M A) : Prop :=
  forall w, exists sent_now : list string,
    requests (snd (m w)) = (requests w ++ sent_now)%list /\ (length sent_now <= n)%nat.

(** The cache property read to the letter: two calls of
    [convert(A, B, amt, 0)] in a row, the second one reading the clock
    within the lifetime of the entry, send at most one request. *)
Definition two_calls_send_at_most_one_request : Prop :=
  forall E A B amt bc qc w r1 w1 r2 w2 rate stored,
    ticker_of A = Some bc -> ticker_of B = Some qc ->
    get_price E A B amt 0 w = (Ok r1, w1) ->
    RATE_CACHE w1 !! cache_key bc qc = Some (rate, stored) ->
    (clock E (ticks w1) - stored < CACHE_DURATION)%Q ->
    get_price E A B amt 0 w1 = (Ok r2, w2) ->
    (length (requests w2) <= length (requests w) + 1)%nat.

(** Between the worlds [before] and [after] at most one request was sent,
    or else one request and then the requests of the USD bridge for the
    pair, three at most in all. *)
Definition one_request_or_bridge (E : env) (b q : string) (amount commission : Q)
    (before after : world) : Prop :=
  exists sent_now : list string,
    requests after = (requests before ++ sent_now)%list
    /\ (length sent_now <= 3)%nat
    /\ ((length sent_now <= 1)%nat
        \/ exists url w_mid,
             requests w_mid = (requests before ++ [url])%list
             /\ requests (snd (convert_via_usd E b q amount commission w_mid))
                = requests after).

(** The zero-amount property of a cache hit read to the letter: whatever
    rate a returned fiat conversion has cached, the call with amount 0 and
    commission 0 that finds it returns 0. *)
Definition cached_rate_answers_zero_with_zero : Prop :=
  forall amount base_rate quote_rate result rate : PrimFloat.float,
    Binary64.fiat_result amount base_rate quote_rate PrimFloat.zero = Ok result ->
    Binary64.actual_rate result amount PrimFloat.zero = Ok rate ->
    PrimFloat.eqb (Binary64.cached_result PrimFloat.zero rate PrimFloat.zero) PrimFloat.zero
    = true.

(** Two runs that end alike, in the same world, the amount of the second
    being the amount of the first times [factor]. *)
Definition scaled_by (factor : Q) (run0 run : outcome (Q * json) * world) : Prop :=
  match run0, run with
  | (Ok (r0, t0), w0), (Ok (r, t), w') => (r == r0 * factor)%Q /\ t = t0 /\ w' = w0
  | (Raise e0, w0), (Raise e, w') => e = e0 /\ w' = w0
  | _, _ => False
  end.

(** Providers whose crypto service knows bitcoin but quotes nothing. *)
Definition no_quote_env (clock : nat -> Q) (key : string) : env :=
  {| clock := clock;
     http := fun _ _ => Response 200 (Some (JObj [ ("bitcoin", JObj []) ]));
     OPENEXCHANGE_API_KEY := key |}.

(** ** Predicates on exceptions *)

(** Every exception [m] raises satisfies [P]. *)
Definition raises_only {A} (P : exc -> Prop) (m : M A) : Prop :=
  forall w e w', m w = (Raise e, w') -> P e.

Definition is_api_exception (e : exc) : bool :=
  match e with APIException _ => true | _ => false end.

(** The messages built inside the [try] of [get_price]: the provider
    errors of the three direct paths and the two wrappers. *)
Definition provider_message (m : message) : bool :=
  match m with
  | CoinGeckoStatusMsg | CryptoRateMissingMsg | CryptoRateErrorMsg
  | OpenExchangeStatusMsg | OpenExchangeResponseMsg | FiatNotFoundMsg _ _
  | ViaUsdMsg _ | ConversionMsg _ => true
  | _ => false
  end.

(** What a conversion path may raise: any exception that is not an
    [APIException], or an [APIException] with one of those messages. *)
Definition path_exception (e : exc) : Prop :=
  match e with
  | APIException m => provider_message m = true
  | _ => True
  end.

(** What the expression evaluator may raise: an [APIException], or the
    [ValueError] of [float]. *)
Definition evaluator_exception (e : exc) : Prop :=
  is_api_exception e = true \/ e = ValueError.

(** A name is a key of [Config.CURRENCIES]. *)
Definition known_name (name : string) : bool :=
  match assoc name Config.CURRENCIES with Some _ => true | None => false end.

(** The lowercase tickers of the vocabulary. *)
Definition vocabulary_tickers : list string :=
  map (fun entry => Text.lower (snd entry)) Config.CURRENCIES.

(** A string without the separator of [cache_key]. *)
Fixpoint underscore_free (s : string) : bool :=
  match s with
  | EmptyString => true
  | String c s' => (negb (Ascii.eqb c "_") && underscore_free s')%bool
  end.

(** Providers whose crypto service prices bitcoin at 50000 dollars and
    ether at 2500, and providers that quote bitcoin at 4500000 roubles. *)
Definition crypto_env : env :=
  {| clock := seconds;
     http := fun _ _ => Response 200 (Some (JObj
               [ ("bitcoin", JObj [ ("usd", JNum 50000) ]);
                 ("ethereum", JObj [ ("usd", JNum 2500) ]) ]));
     OPENEXCHANGE_API_KEY := "k" |}.

Definition rouble_quote_env : env :=
  {| clock := seconds;
     http := fun _ _ => Response 200 (Some (JObj
               [ ("bitcoin", JObj [ ("rub", JNum 4500000) ]) ]));
     OPENEXCHANGE_API_KEY := "k" |}.

(** ** Shapes of expression parts *)

(** A text in which no delimiter of the split pattern starts anywhere. *)
Fixpoint delimiter_free (s : string) : bool :=
  match s with
  | EmptyString => true
  | String _ s' =>
      match Lexer.delimiter_at s with
      | Some _ => false
      | None => delimiter_free s'
      end
  end.

(** A part that the loop of [process_complex_expression] reads as an
    operator or as the target marker. *)
Definition is_delimiter (part : string) : bool :=
  (mem part ["+"; "-"; "*"; "/"] || mem (Text.lower part) ["в"; "to"])%bool.

(** The text of [s] before its first delimiter. *)
Fixpoint first_piece (s : string) : string :=
  match s with
  | EmptyString => EmptyString
  | String c s' =>
      match Lexer.delimiter_at s with
      | Some _ => EmptyString
      | None => String c (first_piece s')
      end
  end.

(** Each piece of the split is a delimiter or free of delimiters. *)
Definition piece_ok (piece : string) : Prop :=
  In piece Lexer.delimiters \/ delimiter_free piece = true.

(** ** Keyboards and text commands ([main.py]) *)

Module Main.

(** [range(0, stop, step)] for a positive [step]. *)
Definition range_by (stop step : nat) : list nat :=
  map (fun k => (k * step)%nat) (seq 0 ((stop + step - 1) / step)).

(** [create_inline_markup]: the groups of buttons handed, one call after
    the other, to [markup.add]; a button is the text of its item.  A step
    of 0 makes [range] raise [ValueError], a negative one makes it empty. *)
Definition button_rows (items : list string) (row_width : Z) : outcome (list (list string)) :=
  if (row_width =? 0)%Z then Raise ValueError
  else if (row_width <? 0)%Z then Ok []
  else
    Ok (map (fun i => List.firstn (Z.to_nat row_width) (List.skipn i items))
            (range_by (length items) (Z.to_nat row_width))).

(** [text.split()]: the words between runs of whitespace; [word] holds
    the current word in reverse and [skip] counts the bytes still to pass
    of the whitespace character just met. *)
Fixpoint split_from (skip : nat) (word : string) (s : string) : list string :=
  match s with
  | EmptyString =>
      if Text.nonempty word then [Text.rev_string word] else []
  | String c s' =>
      match skip with
      | S k => split_from k word s'
      | O =>
          match Text.space_width s with
          | S k =>
              if Text.nonempty word then Text.rev_string word :: split_from k EmptyString s'
              else split_from k EmptyString s'
          | O => split_from 0 (String c word) s'
          end
      end
  end.

Definition split (s : string) : list string := split_from 0 EmptyString s.

(** [s.split(sep)] for a one-character separator; [field] holds the
    current field in reverse. *)
Fixpoint split_on_from (sep : ascii) (field : string) (s : string) : list string :=
  match s with
  | EmptyString => [Text.rev_string field]
  | String c s' =>
      if Ascii.eqb c sep then Text.rev_string field :: split_on_from sep EmptyString s'
      else split_on_from sep (String c field) s'
  end.

Definition split_on (sep : ascii) (s : string) : list string :=
  split_on_from sep EmptyString s.

(** What [process_text_conversion] does with a command before it
    converts: one of its five early replies, the reply of its outermost
    handler, or the call of [get_price] it goes on to make. *)
Inductive text_request : Type :=
| BadCommission                                   (* "Неверный формат комиссии" *)
| TooFewParameters                                (* "Недостаточно параметров!" *)
| UnknownBase (base : string)                     (* "Неизвестная валюта: {base}" *)
| UnknownQuote (quote : string)                   (* "Неизвестная валюта: {quote}" *)
| NotANumber (amount_str base_key : string)       (* "... не является числом" *)
| GenericError                                    (* "Ошибка: {e}", outermost handler *)
| CallGetPrice (base_key quote_key : string) (amount commission : Q).

Section TextCommand.

(** [float(text)]: the number, or [None] for [ValueError]. *)
Variable float : string -> option Q.

(** Lines 203 to 215: the commission and the parts left, or the early
    reply. *)
Definition take_commission (parts : list string) : text_request + (Q * list string) :=
  if ((3 <? length parts)%nat && String.prefix "--commission=" (List.last parts EmptyString))%bool
  then
    match List.nth_error (split_on "=" (List.last parts EmptyString)) 1 with
    | None => inl GenericError
    | Some field =>
        match float (Text.remove_char "%" field) with
        | None => inl BadCommission
        | Some commission => inr (commission, List.removelast parts)
        end
    end
  else inr (0%Q, parts).

(** Lines 234 to 267: the two names are normalized, then the amount is
    read; what stops first decides the reply. *)
Definition resolve_command (base quote amount_str : string) (commission : Q)
    : text_request :=
  match normalize_currency_name (Some base) with
  | None => UnknownBase base
  | Some base_key =>
      match normalize_currency_name (Some quote) with
      | None => UnknownQuote quote
      | Some quote_key =>
          match float amount_str with
          | None => NotANumber amount_str base_key
          | Some amount_val => CallGetPrice base_key quote_key amount_val commission
          end
      end
  end.

(** Lines 199 to 267 of [process_text_conversion]. *)
Definition parse_text_conversion (text : string) : text_request :=
  match take_commission (split text) with
  | inl reply => reply
  | inr (commission, parts) =>
      if (length parts <? 3)%nat then TooFewParameters
      else
        let base := Text.join " " (List.removelast (List.removelast parts)) in
        let quote := List.last (List.removelast parts) EmptyString in
        let amount_str := List.last parts EmptyString in
        resolve_command base quote amount_str commission
  end.

End TextCommand.

End Main.

(** The second byte of a capital letter of the Cyrillic block, after the
    lead byte 0xD0. *)
Definition cyrillic_capital_tail (d : ascii) : bool :=
  (Text.between 128 143 d || Text.between 144 159 d || Text.between 160 175 d)%bool.

(** A byte that [Text.lower] neither changes nor produces: not an ASCII
    letter and not a lead byte of the Cyrillic block. *)
Definition inert (c : ascii) : bool :=
  negb (Text.between 65 90 c || Text.between 97 122 c
        || Ascii.eqb c Text.xD0 || Ascii.eqb c Text.xD1)%bool.

Fixpoint all_inert (s : string) : bool :=
  match s with
  | EmptyString => true
  | String c s' => (inert c && all_inert s')%bool
  end.

(** * Properties *)

(** ** Lowercasing and trimming commute *)

Module TextFacts.
Import Text.

Ltac each_byte c := destruct c as [[] [] [] [] [] [] [] []]; vm_compute; intuition congruence.

Lemma append_cons c a b : String c a ++ b = String c (a ++ b).
Proof. reflexivity. Qed.

Lemma append_length a b :
  String.length (a ++ b) = (String.length a + String.length b)%nat.
Proof.
  induction a as [|c a IH]; [reflexivity |].
  rewrite append_cons. cbn [String.length]. now rewrite IH.
Qed.

Lemma drop_append a b : drop (String.length a) (a ++ b) = b.
Proof.
  induction a as [|c a IH]; [now destruct b |].
  rewrite append_cons. exact IH.
Qed.

Lemma starts_with_drop a :
  forall b, starts_with a b = true -> b = a ++ drop (String.length a) b.
Proof.
  induction a as [|x a IH]; intros b H; [now destruct b |].
  destruct b as [|y b]; [discriminate H |]. cbn [starts_with] in H.
  apply Bool.andb_true_iff in H as [Hxy H]. apply Ascii.eqb_eq in Hxy as ->.
  rewrite append_cons. cbn [String.length drop]. f_equal. now apply IH.
Qed.

(** ** Whitespace characters *)

Lemma lstrip_from_drop s : forall k, lstrip_from k s = lstrip (drop k s).
Proof.
  induction s as [|c s IH]; intros k; [now destruct k |].
  destruct k as [|k]; [reflexivity |]. cbn [lstrip_from drop]. apply IH.
Qed.

Lemma lstrip_unfold s :
  lstrip s = match space_width s with
             | O => s
             | S k => lstrip (drop (S k) s)
             end.
Proof.
  destruct s as [|c s]; [reflexivity |].
  unfold lstrip at 1. cbn [lstrip_from].
  destruct (space_width (String c s)); [reflexivity |].
  cbn [drop]. apply lstrip_from_drop.
Qed.

(** A text starts with a whitespace character exactly when its first
    bytes are the bytes of one. *)
Lemma space_width_spec s k :
  space_width s = S k ->
  exists cp t, In cp whitespace /\ s = utf8 cp ++ t /\ String.length (utf8 cp) = S k.
Proof.
  unfold space_width, leading.
  destruct (find _ whitespace) as [cp|] eqn:Hfind; [| discriminate].
  apply find_some in Hfind as [Hin Hprefix]. intros Hk.
  exists cp, (drop (String.length (utf8 cp)) s).
  split; [exact Hin | split; [now apply starts_with_drop | exact Hk]].
Qed.

Lemma space_width_of cp t :
  In cp whitespace -> space_width (utf8 cp ++ t) = String.length (utf8 cp).
Proof.
  intros Hin. cbn in Hin.
  repeat (destruct Hin as [<- | Hin]; [vm_compute; reflexivity |]).
  destruct Hin.
Qed.

Lemma whitespace_is_inert cp : In cp whitespace -> all_inert (utf8 cp) = true.
Proof.
  intros Hin. cbn in Hin.
  repeat (destruct Hin as [<- | Hin]; [vm_compute; reflexivity |]).
  destruct Hin.
Qed.

(** No whitespace character starts with a byte that [lower] touches, nor
    with a continuation byte. *)
Lemma space_width_head c t :
  space_width (String c t) <> O -> inert c = true /\ between 128 191 c = false.
Proof.
  destruct (space_width (String c t)) as [|k] eqn:Hw; [congruence |]. intros _.
  apply space_width_spec in Hw as (cp & t' & Hin & Heq & _). cbn in Hin.
  repeat (destruct Hin as [<- | Hin];
          [vm_compute in Heq; injection Heq as -> _; split; reflexivity |]).
  destruct Hin.
Qed.

Lemma blank_false c t : space_width (String c t) = O -> blank (String c t) = false.
Proof. intros H. unfold blank. now rewrite lstrip_unfold, H. Qed.

Lemma blank_of_touched c t : inert c = false -> blank (String c t) = false.
Proof.
  intros H. apply blank_false.
  destruct (space_width (String c t)) eqn:Hw; [reflexivity |].
  destruct (space_width_head c t) as [Hc _]; congruence.
Qed.

Lemma blank_of_continuation c t : between 128 191 c = true -> blank (String c t) = false.
Proof.
  intros H. apply blank_false.
  destruct (space_width (String c t)) eqn:Hw; [reflexivity |].
  destruct (space_width_head c t) as [_ Hc]; congruence.
Qed.

(** ** Lowercasing leaves whitespace alone *)

Lemma capital_is_touched c :
  between 65 90 c = true -> inert c = false /\ inert (shift_up 32 c) = false.
Proof. each_byte c. Qed.

Lemma lead_is_touched c : Ascii.eqb c xD0 = true -> inert c = false.
Proof. each_byte c. Qed.

Lemma capital_tail_is_continuation d :
  cyrillic_capital_tail d = true ->
  between 128 191 d = true
  /\ (between 128 143 d = true -> between 128 191 (shift_up 16 d) = true)
  /\ (between 144 159 d = true -> between 128 191 (shift_up 32 d) = true)
  /\ (between 160 175 d = true -> between 128 191 (shift_down 32 d) = true).
Proof. each_byte d. Qed.

Lemma lower_inert c s : inert c = true -> lower (String c s) = String c (lower s).
Proof.
  intros H. cbn [lower].
  destruct (between 65 90 c) eqn:Hup;
    [destruct (capital_is_touched c Hup); congruence |].
  destruct (Ascii.eqb c xD0) eqn:Hlead; [| reflexivity].
  pose proof (lead_is_touched c Hlead). congruence.
Qed.

Lemma lower_inert_inv c s c' t :
  lower (String c s) = String c' t -> inert c' = true -> c = c' /\ t = lower s.
Proof.
  cbn [lower]. destruct (between 65 90 c) eqn:Hup.
  { intros [= <- _] H. destruct (capital_is_touched c Hup). congruence. }
  destruct (Ascii.eqb c xD0) eqn:Hlead; [| now intros [= <- <-]].
  pose proof (lead_is_touched c Hlead) as Hc.
  assert (Hstay : String c (lower s) = String c' t -> inert c' = true -> c = c' /\ t = lower s)
    by (intros [= <- <-]; congruence).
  destruct s as [|d s'']; [exact Hstay |].
  destruct (between 128 143 d); [intros [= <- _]; discriminate |].
  destruct (between 144 159 d); [intros [= <- _]; discriminate |].
  destruct (between 160 175 d); [intros [= <- _]; discriminate |].
  exact Hstay.
Qed.

Lemma lower_nonempty c s : lower (String c s) <> EmptyString.
Proof.
  cbn [lower]. destruct (between 65 90 c); [discriminate |].
  destruct (Ascii.eqb c xD0); [| discriminate].
  destruct s as [|d s'']; [discriminate |].
  destruct (between 128 143 d); [discriminate |].
  destruct (between 144 159 d); [discriminate |].
  destruct (between 160 175 d); discriminate.
Qed.

Lemma lower_append_inert w t : all_inert w = true -> lower (w ++ t) = w ++ lower t.
Proof.
  induction w as [|c w IH]; [reflexivity |]. cbn [all_inert].
  intros [Hc Hw]%Bool.andb_true_iff. rewrite !append_cons, (lower_inert _ _ Hc).
  now rewrite (IH Hw).
Qed.

Lemma lower_append_inert_inv w :
  forall s t', all_inert w = true -> lower s = w ++ t' ->
               exists t, s = w ++ t /\ t' = lower t.
Proof.
  induction w as [|c' w IH]; intros s t' Hw Heq; [now exists s |].
  cbn [all_inert] in Hw. apply Bool.andb_true_iff in Hw as [Hc Hw].
  destruct s as [|c s]; [discriminate Heq |].
  rewrite append_cons in Heq.
  destruct (lower_inert_inv _ _ _ _ Heq Hc) as [-> Ht].
  destruct (IH s t' Hw (eq_sym Ht)) as (t & -> & ->). now exists t.
Qed.

Lemma lower_lstrip_upto n :
  forall s, (String.length s <= n)%nat -> lower (lstrip s) = lstrip (lower s).
Proof.
  induction n as [|n IH]; intros s Hlen.
  - destruct s; [reflexivity | simpl in Hlen; lia].
  - rewrite (lstrip_unfold s). destruct (space_width s) as [|k] eqn:Hw.
    + rewrite (lstrip_unfold (lower s)).
      destruct (space_width (lower s)) as [|k'] eqn:Hw'; [reflexivity |].
      apply space_width_spec in Hw' as (cp & t' & Hin & Heq & Hk').
      destruct (lower_append_inert_inv _ _ _ (whitespace_is_inert _ Hin) Heq) as (t & Hs & _).
      rewrite Hs, (space_width_of _ _ Hin), Hk' in Hw. discriminate Hw.
    + apply space_width_spec in Hw as (cp & t & Hin & -> & Hk).
      rewrite <- Hk, drop_append.
      rewrite (lower_append_inert _ _ (whitespace_is_inert _ Hin)).
      rewrite (lstrip_unfold (utf8 cp ++ lower t)), (space_width_of _ _ Hin), Hk.
      rewrite <- Hk, drop_append. apply IH.
      rewrite append_length in Hlen. lia.
Qed.

Lemma lower_lstrip s : lower (lstrip s) = lstrip (lower s).
Proof. apply (lower_lstrip_upto (String.length s)). lia. Qed.

Lemma lower_blank s : blank (lower s) = blank s.
Proof.
  unfold blank. rewrite <- lower_lstrip.
  destruct (lstrip s) as [|c t]; [reflexivity |].
  destruct (lower (String c t)) eqn:Hl; [now apply lower_nonempty in Hl | reflexivity].
Qed.

Lemma rstrip_cons c s :
  rstrip (String c s) = if blank (String c s) then EmptyString else String c (rstrip s).
Proof. reflexivity. Qed.

(** What [rstrip] leaves starts as the text does. *)
Lemma rstrip_head d s : rstrip (String d s) = EmptyString \/ rstrip (String d s) = String d (rstrip s).
Proof. rewrite rstrip_cons. destruct (blank _); [now left | now right]. Qed.

Lemma lower_rstrip_upto n :
  forall s, (String.length s <= n)%nat -> lower (rstrip s) = rstrip (lower s).
Proof.
  induction n as [|n IH]; intros s Hlen.
  - destruct s; [reflexivity | simpl in Hlen; lia].
  - destruct s as [|c s]; [reflexivity |].
    assert (Hs : (String.length s <= n)%nat) by (simpl in Hlen; lia).
    pose proof (lower_blank (String c s)) as Hblank.
    rewrite rstrip_cons. destruct (blank (String c s)) eqn:Hb.
    { destruct (lower (String c s)) as [|c' t'] eqn:Hl; [reflexivity |].
      now rewrite rstrip_cons, Hblank. }
    assert (Hgeneric :
      (forall x, lower (String c x) = String c (lower x)) ->
      lower (String c (rstrip s)) = rstrip (lower (String c s))).
    { intros Hstay. rewrite Hstay in Hblank. rewrite !Hstay, rstrip_cons, Hblank.
      now rewrite (IH s Hs). }
    destruct (between 65 90 c) eqn:Hup.
    { destruct (capital_is_touched c Hup) as [_ Hc'].
      cbn [lower]. rewrite Hup, rstrip_cons, (blank_of_touched _ _ Hc').
      now rewrite (IH s Hs). }
    destruct (Ascii.eqb c xD0) eqn:Hlead;
      [| apply Hgeneric; intros x; cbn [lower]; now rewrite Hup, Hlead].
    destruct s as [|d s''].
    { cbn [rstrip lower]. rewrite Hup, Hlead. cbn [lower].
      rewrite rstrip_cons. cbn [lower] in Hblank. rewrite Hup, Hlead in Hblank.
      cbn [lower] in Hblank. now rewrite Hblank. }
    assert (Hs'' : (String.length s'' <= n)%nat) by (simpl in Hs; lia).
    destruct (cyrillic_capital_tail d) eqn:Hd.
    { destruct (capital_tail_is_continuation d Hd) as (Hd0 & Hd1 & Hd2 & Hd3).
      rewrite (rstrip_cons d), (blank_of_continuation _ _ Hd0).
      cbn [lower]. rewrite Hup, Hlead. unfold cyrillic_capital_tail in Hd.
      destruct (between 128 143 d).
      { rewrite rstrip_cons, (blank_of_touched xD1 _ eq_refl).
        now rewrite rstrip_cons, (blank_of_continuation _ _ (Hd1 eq_refl)), (IH s'' Hs''). }
      destruct (between 144 159 d).
      { rewrite rstrip_cons, (blank_of_touched xD0 _ eq_refl).
        now rewrite rstrip_cons, (blank_of_continuation _ _ (Hd2 eq_refl)), (IH s'' Hs''). }
      destruct (between 160 175 d); [| discriminate Hd].
      rewrite rstrip_cons, (blank_of_touched xD1 _ eq_refl).
      now rewrite rstrip_cons, (blank_of_continuation _ _ (Hd3 eq_refl)), (IH s'' Hs''). }
    unfold cyrillic_capital_tail in Hd.
    apply Bool.orb_false_iff in Hd as [Hd Hd3].
    apply Bool.orb_false_iff in Hd as [Hd1 Hd2].
    assert (Hstay : lower (String c (String d s'')) = String c (lower (String d s'')))
      by (cbn [lower]; now rewrite Hup, Hlead, Hd1, Hd2, Hd3).
    rewrite Hstay in Hblank.
    rewrite Hstay, (rstrip_cons c (lower (String d s''))), Hblank, <- (IH _ Hs).
    destruct (rstrip_head d s'') as [-> | ->].
    + cbn [lower]. now rewrite Hup, Hlead.
    + cbn [lower]. now rewrite Hup, Hlead, Hd1, Hd2, Hd3.
Qed.

Lemma lower_rstrip s : lower (rstrip s) = rstrip (lower s).
Proof. apply (lower_rstrip_upto (String.length s)). lia. Qed.

Lemma lower_strip s : lower (strip s) = strip (lower s).
Proof. unfold strip. now rewrite lower_rstrip, lower_lstrip. Qed.

End TextFacts.

(** ** Currency name normalization *)

Section Normalization.

Lemma assoc_as_find {V} (k : string) (d : list (string * V)) :
  assoc k d = option_map snd (find (fun entry => String.eqb (fst entry) k) d).
Proof.
  induction d as [|[k' v] d IH]; [reflexivity |].
  cbn [assoc find fst]. rewrite (String.eqb_sym k' k).
  destruct (String.eqb k k'); [reflexivity | exact IH].
Qed.

Lemma first_partial_as_find name table :
  first_partial name table
  = option_map snd (find (fun entry => Text.contains (fst entry) name) table).
Proof.
  induction table as [|[key value] table IH]; [reflexivity |].
  cbn [first_partial find fst]. destruct (Text.contains key name); [reflexivity | exact IH].
Qed.

Lemma first_canonical_as_find name d :
  first_canonical name d
  = option_map fst (find (fun entry => String.eqb (Text.lower (fst entry)) name) d).
Proof.
  induction d as [|[currency_name code] d IH]; [reflexivity |].
  cbn [first_canonical find fst].
  destruct (String.eqb (Text.lower currency_name) name); [reflexivity | exact IH].
Qed.

Lemma first_partial_none name table :
  (forall key canonical, In (key, canonical) table -> Text.contains key name = false) ->
  first_partial name table = None.
Proof.
  induction table as [|[key value] table IH]; intros H; [reflexivity |].
  cbn [first_partial]. rewrite (H key value (or_introl eq_refl)).
  apply IH. intros k c Hin. apply (H k c). now right.
Qed.

Lemma first_canonical_none name d :
  (forall currency_name code, In (currency_name, code) d ->
                              Text.lower currency_name <> name) ->
  first_canonical name d = None.
Proof.
  induction d as [|[currency_name code] d IH]; intros H; [reflexivity |].
  cbn [first_canonical].
  destruct (String.eqb (Text.lower currency_name) name) eqn:Heq.
  - apply String.eqb_eq in Heq. now apply (H _ _ (or_introl eq_refl)) in Heq.
  - apply IH. intros k c Hin. apply (H k c). now right.
Qed.

(** A key that is the whole input is also a substring of it. *)
Lemma prefix_self s : String.prefix s s = true.
Proof.
  induction s as [|c s IH]; [reflexivity |].
  cbn [String.prefix]. now destruct (ascii_dec c c).
Qed.

Lemma contains_self s : Text.contains s s = true.
Proof. destruct s as [|c s]; cbn [Text.contains]; now rewrite prefix_self. Qed.

Lemma assoc_none_of_partial name (table : list (string * string)) :
  (forall key canonical, In (key, canonical) table -> Text.contains key name = false) ->
  assoc name table = None.
Proof.
  induction table as [|[key value] table IH]; intros H; [reflexivity |].
  cbn [assoc]. destruct (String.eqb name key) eqn:Heq.
  - apply String.eqb_eq in Heq. subst key.
    pose proof (H name value (or_introl eq_refl)) as Hc.
    now rewrite contains_self in Hc.
  - apply IH. intros k c Hin. apply (H k c). now right.
Qed.

(** C8: [normalize_currency_name] computes what the specification says of
    normalizeCurrencyName: the input is lowercased and trimmed; an exact
    match in the alias and ticker table gives its canonical name, else the
    first entry of the table, in its fixed order, whose key is a substring
    of the input, else the canonical name whose lowercase form is the
    input, else nothing.  The empty string, the missing value and any text
    that none of the three lookups recognizes give nothing.  Trimming takes
    away every whitespace character, so a ticker followed by a no-break
    space is still an exact match; lowercasing covers the Russian names;
    and among several keys that occur in the input the earlier one in the
    table decides, [usd] before [usdt]. *)
Theorem normalize_currency_name_meets_spec :
  (forall raw, normalize_currency_name raw = normalizeCurrencyName raw)
  /\ normalize_currency_name (Some "") = None
  /\ normalize_currency_name None = None
  /\ (forall raw,
        (forall key canonical, In (key, canonical) currency_map ->
           Text.contains key (Text.lower (Text.strip raw)) = false) ->
        (forall currency_name code, In (currency_name, code) Config.CURRENCIES ->
           Text.lower currency_name <> Text.lower (Text.strip raw)) ->
        normalize_currency_name (Some raw) = None)
  /\ normalize_currency_name (Some "Zorkmid") = None
  /\ normalize_currency_name (Some ("usdt" ++ Text.utf8 0xA0)) = Some "Тезер"
  /\ normalize_currency_name (Some (Text.utf8 0x2003 ++ "ДОЛЛАР" ++ Text.utf8 0x09))
     = Some "Доллар"
  /\ normalize_currency_name (Some "usdt wallet") = Some "Доллар"
  /\ normalize_currency_name (Some (Text.utf8 0x20 ++ Text.utf8 0x3000)) = None.
Proof.
  split; [| split; [reflexivity | split; [reflexivity | split; [| repeat split; vm_compute; reflexivity]]]].
  - intros [raw|]; [| reflexivity].
    unfold normalize_currency_name, normalizeCurrencyName.
    destruct raw as [|c raw]; [reflexivity |].
    cbn [Text.nonempty negb]. rewrite <- TextFacts.lower_strip.
    rewrite assoc_as_find, first_partial_as_find, first_canonical_as_find.
    destruct (find _ currency_map); [reflexivity |]. cbn [option_map].
    destruct (find _ currency_map); reflexivity.
  - intros raw Hpartial Hcanonical. unfold normalize_currency_name.
    destruct (negb (Text.nonempty raw)); [reflexivity |].
    rewrite (assoc_none_of_partial _ _ Hpartial), (first_partial_none _ _ Hpartial).
    now apply first_canonical_none.
Qed.

(** The hypotheses of the last-but-one part hold of a text in no table. *)
Lemma normalize_currency_name_meets_spec_witness :
  normalize_currency_name (Some "  Zorkmid ") = None.
Proof.
  apply (proj1 (proj2 (proj2 (proj2 normalize_currency_name_meets_spec)))).
  - intros key canonical Hin. cbn in Hin.
    repeat (destruct Hin as [Hin | Hin]; [inversion Hin; subst; reflexivity |]).
    destruct Hin.
  - intros currency_name code Hin. cbn in Hin.
    repeat (destruct Hin as [Hin | Hin]; [inversion Hin; subst; vm_compute; discriminate |]).
    destruct Hin.
Defined.

End Normalization.

(** ** Running the monad *)

Section MonadFacts.

Context {A B : Type}.

Lemma bind_ok (m : M A) (k : A -> M B) w a w' :
  m w = (Ok a, w') -> bind m k w = k a w'.
Proof. unfold bind. now intros ->. Qed.

Lemma bind_raise (m : M A) (k : A -> M B) w e w' :
  m w = (Raise e, w') -> bind m k w = (Raise e, w').
Proof. unfold bind. now intros ->. Qed.

Lemma bind_lift_ok (o : outcome A) (k : A -> M B) w a :
  o = Ok a -> bind (lift o) k w = k a w.
Proof. now intros ->. Qed.

Lemma bind_inv (m : M A) (k : A -> M B) w r w'' :
  bind m k w = (r, w'') ->
  (exists a w', m w = (Ok a, w') /\ k a w' = (r, w''))
  \/ (exists e, m w = (Raise e, w'') /\ r = Raise e).
Proof.
  unfold bind. destruct (m w) as [[a|e] w'] eqn:Hm; intros H.
  - left. now exists a, w'.
  - right. exists e. now inversion H.
Qed.

End MonadFacts.

(** ** The cache is written by [cache_rate] alone *)

Section CacheFacts.

Variable E : env.

Lemma keeps_ret {A} (a : A) : keeps_cache (ret a).
Proof. now intros w. Qed.

Lemma keeps_raise {A} e : keeps_cache (@raise A e).
Proof. now intros w. Qed.

Lemma keeps_lift {A} (o : outcome A) : keeps_cache (lift o).
Proof. now intros w. Qed.

Lemma keeps_bind {A B} (m : M A) (k : A -> M B) :
  keeps_cache m -> (forall a, keeps_cache (k a)) -> keeps_cache (bind m k).
Proof.
  intros Hm Hk w. unfold bind. specialize (Hm w).
  destruct (m w) as [[a|e] w']; cbn [snd] in *; [| exact Hm].
  now rewrite (Hk a w').
Qed.

Lemma keeps_try {A} (m : M A) handler :
  keeps_cache m -> (forall e, keeps_cache (handler e)) -> keeps_cache (try_except m handler).
Proof.
  intros Hm Hh w. unfold try_except. specialize (Hm w).
  destruct (m w) as [[a|e] w']; cbn [snd] in *; [exact Hm |].
  now rewrite (Hh e w').
Qed.

Lemma keeps_time_time : keeps_cache (time_time E).
Proof. now intros w. Qed.

Lemma keeps_requests_get url : keeps_cache (requests_get E url).
Proof. intros w. unfold requests_get. now destruct (http E _ _). Qed.

Lemma keeps_response_json response : keeps_cache (response_json response).
Proof. unfold response_json. destruct (snd response); [apply keeps_ret | apply keeps_raise]. Qed.

Lemma keeps_cache_get key : keeps_cache (cache_get key).
Proof. now intros w. Qed.

Ltac keeps :=
  repeat first
    [ apply keeps_ret | apply keeps_raise | apply keeps_lift | apply keeps_time_time
    | apply keeps_requests_get | apply keeps_response_json | apply keeps_cache_get
    | apply keeps_bind; [| intros ?] | apply keeps_try; [| intros ?]
    | match goal with
      | |- keeps_cache (if ?b then _ else _) => destruct b
      | |- keeps_cache (match ?x with _ => _ end) => destruct x
      end ].

Lemma keeps_get_cached_rate base quote : keeps_cache (get_cached_rate E base quote).
Proof. unfold get_cached_rate. keeps. Qed.

Lemma keeps_convert_crypto_to_crypto b q amount commission :
  keeps_cache (convert_crypto_to_crypto E b q amount commission).
Proof. unfold convert_crypto_to_crypto. keeps. Qed.

Lemma keeps_convert_fiat_to_fiat b q amount commission :
  keeps_cache (convert_fiat_to_fiat E b q amount commission).
Proof. unfold convert_fiat_to_fiat. keeps. Qed.

Lemma keeps_base_to_usd_step b : keeps_cache (base_to_usd_step E b).
Proof. unfold base_to_usd_step. keeps. Qed.

Lemma keeps_usd_to_quote_step q : keeps_cache (usd_to_quote_step E q).
Proof. unfold usd_to_quote_step. keeps. Qed.

Lemma keeps_convert_via_usd b q amount commission :
  keeps_cache (convert_via_usd E b q amount commission).
Proof.
  unfold convert_via_usd.
  apply keeps_try; [| intros ?; apply keeps_raise].
  apply keeps_bind; [apply keeps_base_to_usd_step | intros [? ?]].
  apply keeps_bind; [apply keeps_usd_to_quote_step | intros [? ?]].
  keeps.
Qed.

Lemma keeps_convert_crypto_to_fiat b q amount commission :
  keeps_cache (convert_crypto_to_fiat E b q amount commission).
Proof.
  unfold convert_crypto_to_fiat.
  destruct (assoc _ COINGECKO_IDS); [| apply keeps_raise].
  apply keeps_bind; [apply keeps_requests_get | intros response].
  destruct (negb _); [apply keeps_raise |].
  apply keeps_bind; [apply keeps_response_json | intros data].
  apply keeps_bind; [apply keeps_time_time | intros ts].
  apply keeps_bind; [apply keeps_lift | intros has_crypto].
  apply keeps_bind; [destruct has_crypto; keeps | intros has_quote].
  destruct has_quote; [keeps | apply keeps_convert_via_usd].
Qed.

Lemma keeps_route b q amount commission : keeps_cache (route E b q amount commission).
Proof.
  unfold route. destruct (_ || _)%bool; [destruct (_ && _)%bool |].
  - apply keeps_convert_crypto_to_crypto.
  - apply keeps_convert_crypto_to_fiat.
  - apply keeps_convert_fiat_to_fiat.
Qed.

Lemma keeps_currency_code key : keeps_cache (currency_code key).
Proof. unfold currency_code. keeps. Qed.

Lemma keeps_on_error_of_keeps {A} (m : M A) : keeps_cache m -> keeps_cache_on_error m.
Proof. intros H w e w' Hm. specialize (H w). now rewrite Hm in H. Qed.

Lemma keeps_on_error_bind {A B} (m : M A) (k : A -> M B) :
  keeps_cache m -> (forall a, keeps_cache_on_error (k a)) ->
  keeps_cache_on_error (bind m k).
Proof.
  intros Hm Hk w e w'' H. specialize (Hm w).
  apply bind_inv in H as [(a & w' & Hmw & Hkw) | (e' & Hmw & _)];
    rewrite Hmw in Hm; cbn [snd] in Hm; [| exact Hm].
  rewrite <- Hm. exact (Hk a w' e w'' Hkw).
Qed.

(** In [resolve_and_cache] an exception comes before the call of
    [cache_rate], and the handlers only raise. *)
Lemma keeps_on_error_resolve_and_cache b q amount commission :
  keeps_cache_on_error (resolve_and_cache E b q amount commission).
Proof.
  intros w e w' H. unfold resolve_and_cache, try_except in H.
  destruct (bind _ _ w) as [[r|e0] w0] eqn:Hbody; [discriminate H |].
  assert (Hkeep : RATE_CACHE w0 = RATE_CACHE w).
  { revert Hbody. apply keeps_on_error_bind; [apply keeps_route | intros [result ts]].
    apply keeps_on_error_bind; [apply keeps_lift | intros actual_rate].
    intros w1 e1 w1' H1. discriminate H1. }
  destruct e0; inversion H; subst; exact Hkeep.
Qed.

Lemma keeps_on_error_get_price base quote amount commission :
  keeps_cache_on_error (get_price E base quote amount commission).
Proof.
  unfold get_price.
  destruct (normalize_currency_name (Some base)) as [base_key|];
    [| apply keeps_on_error_of_keeps, keeps_raise].
  destruct (normalize_currency_name (Some quote)) as [quote_key|];
    [| apply keeps_on_error_of_keeps, keeps_raise].
  apply keeps_on_error_bind; [apply keeps_currency_code | intros base_code].
  apply keeps_on_error_bind; [apply keeps_currency_code | intros quote_code].
  apply keeps_on_error_bind; [apply keeps_get_cached_rate | intros [[rate ts]|]].
  - apply keeps_on_error_of_keeps, keeps_ret.
  - apply keeps_on_error_resolve_and_cache.
Qed.

End CacheFacts.

(** ** Errors leave the cache alone *)

(** C9: when [get_price] raises, whatever the error (an unknown currency, a
    provider failure on any path, a failed step of the USD bridge, or the
    wrapper around an unexpected exception), the rate cache is the one the
    call started from; the conversion paths, the bridge included, never
    write to it, so an entry appears only with a returned result. *)
Theorem get_price_error_leaves_cache E base quote amount commission w e w' :
  get_price E base quote amount commission w = (Raise e, w') ->
  RATE_CACHE w' = RATE_CACHE w
  /\ (forall b q w0, RATE_CACHE (snd (route E b q amount commission w0)) = RATE_CACHE w0)
  /\ (forall w0, RATE_CACHE (snd (get_price E base quote amount commission w0)) <> RATE_CACHE w0 ->
                 exists r, fst (get_price E base quote amount commission w0) = Ok r).
Proof.
  intros H. split; [exact (keeps_on_error_get_price E _ _ _ _ w e w' H) |].
  split; [intros b q w0; apply keeps_route |].
  intros w0 Hchanged.
  destruct (get_price E base quote amount commission w0) as [[r|e0] w1] eqn:Hrun.
  - now exists r.
  - exfalso. apply Hchanged. exact (keeps_on_error_get_price E _ _ _ _ w0 e0 w1 Hrun).
Qed.

(** A bridge step that fails after two requests: the cache is untouched. *)
Lemma get_price_error_leaves_cache_witness :
  get_price (no_quote_env seconds "k") "Биткоин" "Рубль" 1 0 empty_world
  = (Raise (APIException (ViaUsdMsg KeyError)),
     {| RATE_CACHE := ∅; ticks := 1;
        requests := [ "https://api.coingecko.com/api/v3/simple/price?ids=bitcoin&vs_currencies=rub";
                      "https://api.coingecko.com/api/v3/simple/price?ids=bitcoin&vs_currencies=usd" ] |})
  /\ RATE_CACHE {| RATE_CACHE := ∅; ticks := 1;
        requests := [ "https://api.coingecko.com/api/v3/simple/price?ids=bitcoin&vs_currencies=rub";
                      "https://api.coingecko.com/api/v3/simple/price?ids=bitcoin&vs_currencies=usd" ] |}
     = RATE_CACHE empty_world.
Proof.
  assert (Hrun : get_price (no_quote_env seconds "k") "Биткоин" "Рубль" 1 0 empty_world
    = (Raise (APIException (ViaUsdMsg KeyError)),
       {| RATE_CACHE := ∅; ticks := 1;
          requests := [ "https://api.coingecko.com/api/v3/simple/price?ids=bitcoin&vs_currencies=rub";
                        "https://api.coingecko.com/api/v3/simple/price?ids=bitcoin&vs_currencies=usd" ] |}))
    by (vm_compute; reflexivity).
  split; [exact Hrun |].
  exact (proj1 (get_price_error_leaves_cache _ _ _ _ _ _ _ _ Hrun)).
Defined.

(** ** Counting upstream requests *)

Section RequestFacts.

Variable E : env.

Lemma sends_weaken {A} n n' (m : M A) :
  (n <= n')%nat -> sends_at_most n m -> sends_at_most n' m.
Proof.
  intros Hle Hm w. destruct (Hm w) as (l & Heq & Hlen). exists l. split; [exact Heq | lia].
Qed.

Lemma sends_nothing {A} n (m : M A) :
  (forall w, requests (snd (m w)) = requests w) -> sends_at_most n m.
Proof. intros H w. exists []. rewrite H, app_nil_r. split; [reflexivity | simpl; lia]. Qed.

Lemma sends_ret {A} n (a : A) : sends_at_most n (ret a).
Proof. now apply sends_nothing. Qed.

Lemma sends_raise {A} n e : sends_at_most n (@raise A e).
Proof. now apply sends_nothing. Qed.

Lemma sends_lift {A} n (o : outcome A) : sends_at_most n (lift o).
Proof. now apply sends_nothing. Qed.

Lemma sends_time_time n : sends_at_most n (time_time E).
Proof. now apply sends_nothing. Qed.

Lemma sends_cache_get n key : sends_at_most n (cache_get key).
Proof. now apply sends_nothing. Qed.

Lemma sends_cache_rate n b q rate : sends_at_most n (cache_rate E b q rate).
Proof. now apply sends_nothing. Qed.

Lemma sends_response_json n response : sends_at_most n (response_json response).
Proof. unfold response_json. destruct (snd response); [apply sends_ret | apply sends_raise]. Qed.

Lemma sends_requests_get url : sends_at_most 1 (requests_get E url).
Proof.
  intros w. exists [url]. unfold requests_get.
  destruct (http E _ _); (split; [reflexivity | simpl; lia]).
Qed.

Lemma sends_bind_add {A B} n1 n2 (m : M A) (k : A -> M B) :
  sends_at_most n1 m -> (forall a, sends_at_most n2 (k a)) ->
  sends_at_most (n1 + n2) (bind m k).
Proof.
  intros Hm Hk w. unfold bind. destruct (Hm w) as (l1 & Heq1 & Hlen1).
  destruct (m w) as [[a|e] w']; cbn [snd] in *.
  - destruct (Hk a w') as (l2 & Heq2 & Hlen2). exists (l1 ++ l2)%list.
    rewrite Heq2, Heq1, <- app_assoc, length_app. split; [reflexivity | lia].
  - exists l1. split; [exact Heq1 | lia].
Qed.

Lemma sends_bind_silent {A B} n (m : M A) (k : A -> M B) :
  sends_at_most 0 m -> (forall a, sends_at_most n (k a)) -> sends_at_most n (bind m k).
Proof. intros Hm Hk. exact (sends_bind_add 0 n m k Hm Hk). Qed.

Lemma sends_bind_get {B} n url (k : Z * option json -> M B) :
  (forall a, sends_at_most n (k a)) -> sends_at_most (S n) (bind (requests_get E url) k).
Proof. intros Hk. exact (sends_bind_add 1 n _ k (sends_requests_get url) Hk). Qed.

Lemma sends_try {A} n (m : M A) handler :
  sends_at_most n m -> (forall e, sends_at_most 0 (handler e)) ->
  sends_at_most n (try_except m handler).
Proof.
  intros Hm Hh w. unfold try_except. destruct (Hm w) as (l1 & Heq1 & Hlen1).
  destruct (m w) as [[a|e] w']; cbn [snd] in *; [now exists l1 |].
  destruct (Hh e w') as (l2 & Heq2 & Hlen2). exists (l1 ++ l2)%list.
  rewrite Heq2, Heq1, <- app_assoc, length_app. split; [reflexivity | lia].
Qed.

Ltac sends_leaf :=
  first [ apply sends_ret | apply sends_raise | apply sends_lift | apply sends_time_time
        | apply sends_cache_get | apply sends_cache_rate | apply sends_response_json ].

Ltac sends_quiet :=
  first
    [ sends_leaf
    | match goal with
      | |- sends_at_most _ (if ?b then _ else _) => destruct b; sends_quiet
      end
    | apply sends_bind_silent; [sends_quiet | intros ?; sends_quiet] ].

Ltac sends :=
  repeat first
    [ sends_leaf
    | apply sends_bind_get; intros ?
    | apply sends_bind_silent; [solve [sends_quiet] | intros ?]
    | match goal with
      | |- sends_at_most _ (if ?b then _ else _) => destruct b
      | |- sends_at_most _ (match ?x with _ => _ end) => destruct x
      end ].

Lemma sends_convert_crypto_to_crypto b q amount commission :
  sends_at_most 1 (convert_crypto_to_crypto E b q amount commission).
Proof.
  unfold convert_crypto_to_crypto.
  destruct (assoc b COINGECKO_IDS); [destruct (assoc q COINGECKO_IDS) |]; sends.
Qed.

Lemma sends_convert_fiat_to_fiat b q amount commission :
  sends_at_most 1 (convert_fiat_to_fiat E b q amount commission).
Proof. unfold convert_fiat_to_fiat. sends. Qed.

Lemma sends_base_to_usd_step b : sends_at_most 1 (base_to_usd_step E b).
Proof. unfold base_to_usd_step. sends. Qed.

Lemma sends_usd_to_quote_step q : sends_at_most 1 (usd_to_quote_step E q).
Proof. unfold usd_to_quote_step. sends. Qed.

Lemma sends_convert_via_usd b q amount commission :
  sends_at_most 2 (convert_via_usd E b q amount commission).
Proof.
  unfold convert_via_usd. apply sends_try; [| intros ?; apply sends_raise].
  apply (sends_bind_add 1 1); [apply sends_base_to_usd_step | intros [? ?]].
  apply (sends_bind_add 1 0); [apply sends_usd_to_quote_step | intros [? ?]].
  sends.
Qed.

Lemma sends_convert_crypto_to_fiat b q amount commission :
  sends_at_most 3 (convert_crypto_to_fiat E b q amount commission).
Proof.
  unfold convert_crypto_to_fiat.
  destruct (assoc _ COINGECKO_IDS); [| apply sends_raise].
  apply sends_bind_get; intros response.
  destruct (negb _); [apply sends_raise |].
  apply sends_bind_silent; [sends_leaf | intros data].
  apply sends_bind_silent; [sends_leaf | intros ts].
  apply sends_bind_silent; [sends_leaf | intros has_crypto].
  apply sends_bind_silent; [solve [sends_quiet] | intros has_quote].
  destruct has_quote; [| apply sends_convert_via_usd].
  apply sends_bind_silent; [sends_leaf | intros entry].
  apply sends_bind_silent; [sends_leaf | intros rate].
  apply sends_bind_silent; [sends_leaf | intros r].
  apply sends_bind_silent; [solve [sends_quiet] | intros result].
  apply sends_ret.
Qed.

Lemma sends_route b q amount commission :
  sends_at_most 3 (route E b q amount commission).
Proof.
  unfold route. destruct (_ || _)%bool; [destruct (_ && _)%bool |].
  - apply (sends_weaken 1); [lia | apply sends_convert_crypto_to_crypto].
  - apply sends_convert_crypto_to_fiat.
  - apply (sends_weaken 1); [lia | apply sends_convert_fiat_to_fiat].
Qed.

Lemma sends_resolve_and_cache b q amount commission :
  sends_at_most 3 (resolve_and_cache E b q amount commission).
Proof.
  unfold resolve_and_cache. apply sends_try; [| intros []; apply sends_raise].
  apply (sends_bind_add 3 0); [apply sends_route | intros [? ?]]. sends.
Qed.

Lemma sends_get_cached_rate n b q : sends_at_most n (get_cached_rate E b q).
Proof. unfold get_cached_rate. sends. Qed.

Lemma sends_get_price base quote amount commission :
  sends_at_most 3 (get_price E base quote amount commission).
Proof.
  unfold get_price.
  destruct (normalize_currency_name (Some base)); [| apply sends_raise].
  destruct (normalize_currency_name (Some quote)); [| apply sends_raise].
  apply sends_bind_silent; [unfold currency_code; sends | intros ?].
  apply sends_bind_silent; [unfold currency_code; sends | intros ?].
  apply sends_bind_silent; [apply sends_get_cached_rate | intros [[? ?]|]].
  - apply sends_ret.
  - apply sends_resolve_and_cache.
Qed.

(** The crypto-to-fiat path sends its direct request and nothing more,
    unless it hands over to the USD bridge. *)
Lemma convert_crypto_to_fiat_requests b q amount commission w :
  one_request_or_bridge E b q amount commission w
    (snd (convert_crypto_to_fiat E b q amount commission w)).
Proof.
  unfold convert_crypto_to_fiat. cbv zeta.
  destruct (assoc _ COINGECKO_IDS) as [crypto_id|];
    [| exists []; cbn; rewrite app_nil_r; split; [reflexivity | split; [lia | left; lia]]].
  set (url := simple_price_url crypto_id (if in_coingecko b then q else b)).
  unfold requests_get, response_json, time_time, status_code, bind, lift, ret, raise.
  repeat match goal with
         | |- context [match ?x with _ => _ end] =>
             lazymatch x with
             | context [match _ with _ => _ end] => fail
             | context [convert_via_usd] => fail
             | _ => destruct x
             end
         end;
    first
      [ exists [url]; cbn; split; [reflexivity | split; [lia | left; lia]]
      | destruct (sends_convert_via_usd b q amount commission (tick (sent url w)))
          as (bridge & Heq & Hlen);
        exists (url :: bridge); split; [| split];
        [ rewrite Heq; cbn [requests tick sent]; now rewrite <- app_assoc
        | cbn [length]; lia
        | right; exists url, (tick (sent url w)); split; reflexivity ] ].
Qed.

Lemma route_requests b q amount commission w :
  one_request_or_bridge E b q amount commission w (snd (route E b q amount commission w))
  /\ (mem b crypto_list = mem q crypto_list ->
      exists sent_now : list string,
        requests (snd (route E b q amount commission w)) = (requests w ++ sent_now)%list
        /\ (length sent_now <= 1)%nat).
Proof.
  unfold route.
  destruct (mem b crypto_list), (mem q crypto_list); cbn [orb andb].
  - destruct (sends_convert_crypto_to_crypto b q amount commission w) as (l & Heq & Hlen).
    split; [exists l; split; [exact Heq | split; [lia | now left]] | intros _; now exists l].
  - split; [apply convert_crypto_to_fiat_requests | discriminate].
  - split; [apply convert_crypto_to_fiat_requests | discriminate].
  - destruct (sends_convert_fiat_to_fiat b q amount commission w) as (l & Heq & Hlen).
    split; [exists l; split; [exact Heq | split; [lia | now left]] | intros _; now exists l].
Qed.

(** Caching and wrapping send nothing: the requests of a resolution are
    those of its conversion path. *)
Lemma resolve_and_cache_requests b q amount commission w :
  requests (snd (resolve_and_cache E b q amount commission w))
  = requests (snd (route E b q amount commission w)).
Proof.
  unfold resolve_and_cache, try_except, bind, lift, cache_rate, ret, raise.
  destruct (route E b q amount commission w) as [[[result ts]|e] w1]; cbn [snd].
  - destruct (Py.div _ _) as [rate|e]; [reflexivity | now destruct e].
  - now destruct e.
Qed.

End RequestFacts.

(** ** The rate cache *)

Section CacheHits.

Variable E : env.

Lemma Qlt_bool_true x y : (x < y)%Q -> Py.Qlt_bool x y = true.
Proof.
  intros H. unfold Py.Qlt_bool. destruct (Qle_bool y x) eqn:Hle; [| reflexivity].
  apply Qle_bool_iff in Hle. now apply Qlt_not_le in H.
Qed.

(** Once both names resolve, [get_price] is the cache lookup followed by
    the cached answer or by the resolution. *)
Lemma get_price_with_codes base quote amount commission bc qc w :
  ticker_of base = Some bc -> ticker_of quote = Some qc ->
  get_price E base quote amount commission w
  = bind (get_cached_rate E bc qc)
      (fun cached =>
         match cached with
         | Some (cached_rate, cached_ts) =>
             ret ((amount * cached_rate * commission_factor commission)%Q, JNum cached_ts)
         | None => resolve_and_cache E bc qc amount commission
         end) w.
Proof.
  unfold ticker_of, get_price, currency_code.
  destruct (normalize_currency_name (Some base)) as [bk|]; [| discriminate].
  destruct (normalize_currency_name (Some quote)) as [qk|]; [| discriminate].
  destruct (assoc bk Config.CURRENCIES) as [bcode|]; [| discriminate].
  destruct (assoc qk Config.CURRENCIES) as [qcode|]; [| discriminate].
  cbn [option_map]. now intros [= <-] [= <-].
Qed.

Lemma get_cached_rate_hit bc qc rate stored w :
  RATE_CACHE w !! cache_key bc qc = Some (rate, stored) ->
  (clock E (ticks w) - stored < CACHE_DURATION)%Q ->
  get_cached_rate E bc qc w = (Ok (Some (rate, stored)), tick w).
Proof.
  intros Hentry Hfresh. unfold get_cached_rate, bind, cache_get, time_time.
  rewrite Hentry. now rewrite (Qlt_bool_true _ _ Hfresh).
Qed.

(** What [get_cached_rate] returns is an entry of the cache, and it
    changes nothing but the count of clock readings. *)
Lemma get_cached_rate_inv bc qc w cached w' :
  get_cached_rate E bc qc w = (Ok cached, w') ->
  RATE_CACHE w' = RATE_CACHE w /\ requests w' = requests w
  /\ (forall rate stored, cached = Some (rate, stored) ->
        RATE_CACHE w !! cache_key bc qc = Some (rate, stored)).
Proof.
  unfold get_cached_rate, bind, cache_get, time_time.
  destruct (RATE_CACHE w !! cache_key bc qc) as [[rate stored]|] eqn:Hentry.
  - destruct (Py.Qlt_bool _ _); intros [= <- <-]; repeat split; congruence.
  - intros [= <- <-]. repeat split; congruence.
Qed.

(** A resolution that returns has just stored an entry under the key. *)
Lemma resolve_and_cache_stores bc qc amount commission w r w' :
  resolve_and_cache E bc qc amount commission w = (Ok r, w') ->
  exists rate stored, RATE_CACHE w' !! cache_key bc qc = Some (rate, stored).
Proof.
  unfold resolve_and_cache, try_except.
  destruct (bind _ _ w) as [[r0|e0] w0] eqn:Hbody; [| destruct e0; discriminate].
  intros [= <- <-].
  apply bind_inv in Hbody as [([result ts] & w1 & _ & Hbody) | (? & _ & ?)]; [| discriminate].
  apply bind_inv in Hbody as [(actual_rate & w2 & _ & Hbody) | (? & _ & ?)]; [| discriminate].
  unfold bind, cache_rate, ret in Hbody. injection Hbody as _ <-.
  exists actual_rate, (clock E (ticks w2)). cbn. apply lookup_insert_eq.
Qed.

Lemma get_price_hit base quote amount commission bc qc rate stored w :
  ticker_of base = Some bc -> ticker_of quote = Some qc ->
  RATE_CACHE w !! cache_key bc qc = Some (rate, stored) ->
  (clock E (ticks w) - stored < CACHE_DURATION)%Q ->
  get_price E base quote amount commission w
  = (Ok ((amount * rate * (1 + commission / 100))%Q, JNum stored), tick w).
Proof.
  intros Hb Hq Hentry Hfresh.
  rewrite (get_price_with_codes _ _ _ _ _ _ _ Hb Hq).
  now rewrite (bind_ok _ _ _ _ _ (get_cached_rate_hit _ _ _ _ _ Hentry Hfresh)).
Qed.

Lemma get_price_ok_cached base quote amount commission bc qc w r w' :
  ticker_of base = Some bc -> ticker_of quote = Some qc ->
  get_price E base quote amount commission w = (Ok r, w') ->
  exists rate stored, RATE_CACHE w' !! cache_key bc qc = Some (rate, stored).
Proof.
  intros Hb Hq. rewrite (get_price_with_codes _ _ _ _ _ _ _ Hb Hq). intros Hrun.
  apply bind_inv in Hrun as [(cached & w1 & Hlook & Hrun) | (? & _ & ?)]; [| discriminate].
  apply get_cached_rate_inv in Hlook as (Hcache & _ & Hentry).
  destruct cached as [[rate stored]|].
  - injection Hrun as _ <-. exists rate, stored. rewrite Hcache. now apply Hentry.
  - now apply resolve_and_cache_stores in Hrun.
Qed.

(** The requests of a call: none on a hit, those of the conversion path on
    a miss. *)
Lemma get_price_requests base quote amount commission bc qc w :
  ticker_of base = Some bc -> ticker_of quote = Some qc ->
  exists first_call : list string,
    requests (snd (get_price E base quote amount commission w))
    = (requests w ++ first_call)%list
    /\ (length first_call <= 3)%nat
    /\ (mem bc crypto_list = mem qc crypto_list -> (length first_call <= 1)%nat)
    /\ ((length first_call <= 1)%nat
        \/ exists url w_mid,
             requests w_mid = (requests w ++ [url])%list
             /\ requests (snd (convert_via_usd E bc qc amount commission w_mid))
                = requests (snd (get_price E base quote amount commission w))).
Proof.
  intros Hb Hq. rewrite (get_price_with_codes _ _ _ _ _ _ _ Hb Hq).
  assert (Hmiss : forall w0, requests w0 = requests w ->
            exists first_call : list string,
              requests (snd (resolve_and_cache E bc qc amount commission w0))
              = (requests w ++ first_call)%list
              /\ (length first_call <= 3)%nat
              /\ (mem bc crypto_list = mem qc crypto_list -> (length first_call <= 1)%nat)
              /\ ((length first_call <= 1)%nat
                  \/ exists url w_mid,
                       requests w_mid = (requests w ++ [url])%list
                       /\ requests (snd (convert_via_usd E bc qc amount commission w_mid))
                          = requests (snd (resolve_and_cache E bc qc amount commission w0)))).
  { intros w0 Hw0. rewrite resolve_and_cache_requests.
    destruct (route_requests E bc qc amount commission w0) as [(l & Heq & Hlen & Hpath) Hdirect].
    rewrite Hw0 in *. exists l. split; [exact Heq | split; [exact Hlen | split; [| exact Hpath]]].
    intros Hsame. destruct (Hdirect Hsame) as (l' & Heq' & Hlen').
    rewrite Heq in Heq'. now apply app_inv_head in Heq' as ->. }
  unfold bind at 1. unfold get_cached_rate, bind, cache_get, time_time, ret.
  destruct (RATE_CACHE w !! cache_key bc qc) as [[rate stored]|];
    [destruct (Py.Qlt_bool _ _) |].
  - exists []. cbn. rewrite app_nil_r.
    split; [reflexivity | split; [lia | split; [intros _; lia | left; lia]]].
  - now apply Hmiss.
  - now apply Hmiss.
Qed.

(** C1, amended: a pair with a cache entry stored less than 3600 seconds
    before the clock reading is answered from the entry, as
    [amount * cachedRate * (1 + commission/100)] with the stored time, and
    no request is sent.  After a call [convert(A, B, amt, 0)] that returned
    there is such an entry, and a second call that reads the clock within
    3600 seconds of it sends no request and returns [amt * cachedRate]; so
    all requests of the two calls are sent by the first.  The first call
    sends at most one request on a direct path (always so between two fiat
    or two crypto tickers); it sends more only when the crypto-to-fiat path
    hands over to the USD bridge after its direct request, and then three
    at most. *)
Theorem cached_rate_is_reused base quote amount commission bc qc w :
  ticker_of base = Some bc -> ticker_of quote = Some qc ->
  (forall rate stored,
      RATE_CACHE w !! cache_key bc qc = Some (rate, stored) ->
      (clock E (ticks w) - stored < CACHE_DURATION)%Q ->
      get_price E base quote amount commission w
      = (Ok ((amount * rate * (1 + commission / 100))%Q, JNum stored), tick w)
      /\ requests (tick w) = requests w)
  /\ (forall r1 w1,
        get_price E base quote amount 0 w = (Ok r1, w1) ->
        exists rate stored,
          RATE_CACHE w1 !! cache_key bc qc = Some (rate, stored)
          /\ (exists first_call : list string,
                requests w1 = (requests w ++ first_call)%list
                /\ (length first_call <= 3)%nat
                /\ (mem bc crypto_list = mem qc crypto_list ->
                    (length first_call <= 1)%nat)
                /\ ((length first_call <= 1)%nat
                    \/ exists url w_mid,
                         requests w_mid = (requests w ++ [url])%list
                         /\ requests (snd (convert_via_usd E bc qc amount 0 w_mid))
                            = requests w1))
          /\ ((clock E (ticks w1) - stored < CACHE_DURATION)%Q ->
              exists result w2,
                get_price E base quote amount 0 w1 = (Ok (result, JNum stored), w2)
                /\ (result == amount * rate)%Q
                /\ requests w2 = requests w1)).
Proof.
  intros Hb Hq. split.
  - intros rate stored Hentry Hfresh. split; [| reflexivity].
    now apply get_price_hit with (bc := bc) (qc := qc).
  - intros r1 w1 Hrun.
    destruct (get_price_ok_cached _ _ _ _ _ _ _ _ _ Hb Hq Hrun) as (rate & stored & Hentry).
    exists rate, stored. split; [exact Hentry |]. split.
    + pose proof (get_price_requests base quote amount 0 bc qc w Hb Hq) as Hsent.
      rewrite Hrun in Hsent. exact Hsent.
    + intros Hfresh. eexists _, (tick w1). split; [| split; [| reflexivity]].
      * exact (get_price_hit _ _ _ _ _ _ _ _ _ Hb Hq Hentry Hfresh).
      * unfold Qdiv. ring.
Qed.

End CacheHits.

(** A fresh entry for the pair (usd, rub) answers the call. *)
Lemma cached_rate_is_reused_witness :
  ticker_of "USD" = Some "usd" /\ ticker_of "RUB" = Some "rub"
  /\ RATE_CACHE (store "usd_rub" (90, 0)%Q empty_world) !! cache_key "usd" "rub"
     = Some (90, 0)%Q
  /\ (clock (fiat_env seconds JNull "k") 0 - 0 < CACHE_DURATION)%Q
  /\ get_price (fiat_env seconds JNull "k") "USD" "RUB" 100 0
       (store "usd_rub" (90, 0)%Q empty_world)
     = (Ok ((100 * 90 * (1 + 0 / 100))%Q, JNum 0),
        tick (store "usd_rub" (90, 0)%Q empty_world)).
Proof.
  assert (Hentry : RATE_CACHE (store "usd_rub" (90, 0)%Q empty_world) !! cache_key "usd" "rub"
                   = Some (90, 0)%Q) by (vm_compute; reflexivity).
  assert (Hfresh : (clock (fiat_env seconds JNull "k") 0 - 0 < CACHE_DURATION)%Q)
    by reflexivity.
  split; [reflexivity | split; [reflexivity | split; [exact Hentry | split; [exact Hfresh |]]]].
  exact (proj1 (proj1 (cached_rate_is_reused (fiat_env seconds JNull "k")
                         "USD" "RUB" 100 0 "usd" "rub" _ eq_refl eq_refl)
                      90%Q 0%Q Hentry Hfresh)).
Defined.

(** A bitcoin-to-rouble call that falls back to the USD bridge sends three
    requests before it stores its rate; the second call sends none. *)
Lemma bridge_call_sends_three_requests : ~ two_calls_send_at_most_one_request.
Proof.
  intros Hclaim.
  pose (E := bridge_env seconds (JNum 5) "k").
  pose (first_call := get_price E "Биткоин" "Рубль" 1 0 empty_world).
  pose (second_call := get_price E "Биткоин" "Рубль" 1 0 (snd first_call)).
  assert (H1 : exists r1, fst first_call = Ok r1) by (vm_compute; eexists; reflexivity).
  assert (H2 : exists r2, fst second_call = Ok r2) by (vm_compute; eexists; reflexivity).
  assert (H3 : exists rate stored,
             RATE_CACHE (snd first_call) !! cache_key "btc" "rub" = Some (rate, stored)
             /\ (clock E (ticks (snd first_call)) - stored < CACHE_DURATION)%Q)
    by (vm_compute; eexists _, _; split; reflexivity).
  destruct H1 as [r1 H1], H2 as [r2 H2], H3 as (rate & stored & Hentry & Hfresh).
  assert (Hbound := Hclaim E "Биткоин" "Рубль" 1%Q "btc" "rub" empty_world
                      r1 (snd first_call) r2 (snd second_call) rate stored
                      eq_refl eq_refl).
  assert (Hrun1 : get_price E "Биткоин" "Рубль" 1 0 empty_world = (Ok r1, snd first_call))
    by (rewrite <- H1; apply surjective_pairing).
  assert (Hrun2 : get_price E "Биткоин" "Рубль" 1 0 (snd first_call)
                  = (Ok r2, snd second_call))
    by (rewrite <- H2; apply surjective_pairing).
  specialize (Hbound Hrun1 Hentry Hfresh Hrun2).
  vm_compute in Hbound. lia.
Qed.

(** ** The fiat-to-fiat path *)

Section FiatPath.

Variable E : env.

Lemma requests_get_response url w status body :
  http E (length (requests w)) url = Response status body ->
  requests_get E url w = (Ok (status, body), sent url w).
Proof. unfold requests_get. now intros ->. Qed.

Lemma truthy_number x : ~ (x == 0)%Q -> Py.truthy (JNum x) = true.
Proof.
  intros H. cbn [Py.truthy]. destruct (Qeq_bool x 0) eqn:Heq; [| reflexivity].
  now apply Qeq_bool_iff in Heq.
Qed.

Lemma div_nonzero x y : ~ (y == 0)%Q -> Py.div x y = Ok (x / y)%Q.
Proof.
  intros H. unfold Py.div. destruct (Qeq_bool y 0) eqn:Heq; [| reflexivity].
  now apply Qeq_bool_iff in Heq.
Qed.

Lemma div_zero x y : (y == 0)%Q -> Py.div x y = Raise ZeroDivisionError.
Proof. intros H. unfold Py.div. apply Qeq_bool_iff in H. now rewrite H. Qed.

Lemma status_not_200 (status : Z) : status <> 200%Z -> negb (status =? 200)%Z = true.
Proof. intros H. apply Z.eqb_neq in H. now rewrite H. Qed.

Lemma convert_fiat_to_fiat_ok b q amount commission w fields rates published br qr :
  http E (length (requests w)) (openexchange_url E) = Response 200 (Some (JObj fields)) ->
  assoc "rates" fields = Some (JObj rates) ->
  assoc "timestamp" fields = Some published ->
  assoc (Text.upper b) rates = Some (JNum br) ->
  assoc (Text.upper q) rates = Some (JNum qr) ->
  ~ (br == 0)%Q -> ~ (qr == 0)%Q ->
  convert_fiat_to_fiat E b q amount commission w
  = (Ok ((amount / br * qr * (1 + commission / 100))%Q, published),
     sent (openexchange_url E) w).
Proof.
  intros Hhttp Hrates Hts Hb Hq Hbr Hqr. unfold convert_fiat_to_fiat.
  rewrite (bind_ok _ _ _ _ _ (requests_get_response _ _ _ _ Hhttp)).
  cbn [status_code fst Z.eqb Pos.eqb negb response_json snd].
  unfold bind, ret, lift, Py.contains, Py.getitem, Py.get, Py.get_default.
  rewrite Hrates, Hts. cbn [negb]. rewrite Hb, Hq.
  rewrite (truthy_number _ Hbr), (truthy_number _ Hqr). cbn [negb orb Py.number].
  now rewrite (div_nonzero _ _ Hbr).
Qed.

Lemma convert_fiat_to_fiat_status b q amount commission w status body :
  http E (length (requests w)) (openexchange_url E) = Response status body ->
  status <> 200%Z ->
  convert_fiat_to_fiat E b q amount commission w
  = (Raise (APIException OpenExchangeStatusMsg), sent (openexchange_url E) w).
Proof.
  intros Hhttp Hstatus. unfold convert_fiat_to_fiat.
  rewrite (bind_ok _ _ _ _ _ (requests_get_response _ _ _ _ Hhttp)).
  cbn [status_code fst]. now rewrite (status_not_200 _ Hstatus).
Qed.

Lemma convert_fiat_to_fiat_fields b q amount commission w fields :
  http E (length (requests w)) (openexchange_url E) = Response 200 (Some (JObj fields)) ->
  assoc "rates" fields = None \/ assoc "timestamp" fields = None ->
  convert_fiat_to_fiat E b q amount commission w
  = (Raise (APIException OpenExchangeResponseMsg), sent (openexchange_url E) w).
Proof.
  intros Hhttp Hmissing. unfold convert_fiat_to_fiat.
  rewrite (bind_ok _ _ _ _ _ (requests_get_response _ _ _ _ Hhttp)).
  cbn [status_code fst Z.eqb Pos.eqb negb response_json snd].
  unfold bind, ret, lift, Py.contains.
  destruct (assoc "rates" fields); [| reflexivity].
  destruct Hmissing as [H | H]; [discriminate H | now rewrite H].
Qed.

Lemma convert_fiat_to_fiat_ticker b q amount commission w fields rates published :
  http E (length (requests w)) (openexchange_url E) = Response 200 (Some (JObj fields)) ->
  assoc "rates" fields = Some (JObj rates) ->
  assoc "timestamp" fields = Some published ->
  assoc (Text.upper b) rates = None \/ assoc (Text.upper q) rates = None ->
  convert_fiat_to_fiat E b q amount commission w
  = (Raise (APIException (FiatNotFoundMsg (Text.upper b) (Text.upper q))),
     sent (openexchange_url E) w).
Proof.
  intros Hhttp Hrates Hts Hmissing. unfold convert_fiat_to_fiat.
  rewrite (bind_ok _ _ _ _ _ (requests_get_response _ _ _ _ Hhttp)).
  cbn [status_code fst Z.eqb Pos.eqb negb response_json snd].
  unfold bind, ret, lift, Py.contains, Py.getitem, Py.get, Py.get_default.
  rewrite Hrates, Hts. cbn [negb].
  destruct Hmissing as [H | H]; rewrite H; cbn [Py.truthy negb orb]; [reflexivity |].
  now rewrite Bool.orb_true_r.
Qed.

(** With two fiat tickers and no entry under the key, [get_price] is the
    fiat path followed by the caching step. *)
Lemma get_price_fiat_miss base quote amount commission b q w :
  ticker_of base = Some b -> ticker_of quote = Some q ->
  mem b crypto_list = false -> mem q crypto_list = false ->
  RATE_CACHE w !! cache_key b q = None ->
  get_price E base quote amount commission w
  = try_except
      (let* '(result, ts) := convert_fiat_to_fiat E b q amount commission in
       let* actual_rate := lift (Py.div result (amount * commission_factor commission)) in
       let* _ := cache_rate E b q actual_rate in
       ret (result, ts))
      (fun e => match e with
                | APIException _ => raise e
                | _ => raise (APIException (ConversionMsg e))
                end) w.
Proof.
  intros Hb Hq Hcb Hcq Hmiss.
  rewrite (get_price_with_codes _ _ _ _ _ _ _ _ Hb Hq).
  unfold bind at 1. unfold get_cached_rate, bind, cache_get. rewrite Hmiss.
  cbn [ret]. unfold resolve_and_cache, route. now rewrite Hcb, Hcq.
Qed.

(** The fiat-to-fiat path taken by itself: the result is
    [(amount / baseRate) * quoteRate * (1 + commission/100)] with the two
    rates of the snapshot, and the timestamp is the one the snapshot
    carries; a status other than 200, a response without [rates] or
    [timestamp], and a ticker missing from the rates each fail with an
    error of kind UpstreamUnavailable.  With no entry under the key,
    [get_price] hands these errors on unchanged and returns the path's
    result whenever the amount with commission is not zero; with USD = 1
    and RUB = 90, converting 100 USD to RUB without commission returns
    9000. *)
Theorem fiat_to_fiat_uses_snapshot b q amount commission w :
  (forall fields rates published br qr,
      http E (length (requests w)) (openexchange_url E) = Response 200 (Some (JObj fields)) ->
      assoc "rates" fields = Some (JObj rates) ->
      assoc "timestamp" fields = Some published ->
      assoc (Text.upper b) rates = Some (JNum br) ->
      assoc (Text.upper q) rates = Some (JNum qr) ->
      ~ (br == 0)%Q -> ~ (qr == 0)%Q ->
      convert_fiat_to_fiat E b q amount commission w
      = (Ok ((amount / br * qr * (1 + commission / 100))%Q, published),
         sent (openexchange_url E) w))
  /\ (forall status body,
        http E (length (requests w)) (openexchange_url E) = Response status body ->
        status <> 200%Z ->
        convert_fiat_to_fiat E b q amount commission w
        = (Raise (APIException OpenExchangeStatusMsg), sent (openexchange_url E) w))
  /\ (forall fields,
        http E (length (requests w)) (openexchange_url E) = Response 200 (Some (JObj fields)) ->
        assoc "rates" fields = None \/ assoc "timestamp" fields = None ->
        convert_fiat_to_fiat E b q amount commission w
        = (Raise (APIException OpenExchangeResponseMsg), sent (openexchange_url E) w))
  /\ (forall fields rates published,
        http E (length (requests w)) (openexchange_url E) = Response 200 (Some (JObj fields)) ->
        assoc "rates" fields = Some (JObj rates) ->
        assoc "timestamp" fields = Some published ->
        assoc (Text.upper b) rates = None \/ assoc (Text.upper q) rates = None ->
        convert_fiat_to_fiat E b q amount commission w
        = (Raise (APIException (FiatNotFoundMsg (Text.upper b) (Text.upper q))),
           sent (openexchange_url E) w))
  /\ (kind_of_message OpenExchangeStatusMsg = UpstreamUnavailable
      /\ kind_of_message OpenExchangeResponseMsg = UpstreamUnavailable
      /\ kind_of_message (FiatNotFoundMsg (Text.upper b) (Text.upper q)) = UpstreamUnavailable)
  /\ (forall base quote,
        ticker_of base = Some b -> ticker_of quote = Some q ->
        mem b crypto_list = false -> mem q crypto_list = false ->
        RATE_CACHE w !! cache_key b q = None ->
        (forall m w',
            convert_fiat_to_fiat E b q amount commission w = (Raise (APIException m), w') ->
            get_price E base quote amount commission w = (Raise (APIException m), w'))
        /\ (forall result published w',
              convert_fiat_to_fiat E b q amount commission w = (Ok (result, published), w') ->
              ~ (amount * (1 + commission / 100) == 0)%Q ->
              get_price E base quote amount commission w
              = (Ok (result, published),
                 tick (store (cache_key b q)
                         ((result / (amount * (1 + commission / 100)))%Q, clock E (ticks w'))
                         w'))))
  /\ (forall clock published key,
        exists result w',
          get_price (fiat_env clock published key) "USD" "RUB" 100 0 empty_world
          = (Ok (result, published), w')
          /\ (result == 9000)%Q).
Proof.
  split; [exact (convert_fiat_to_fiat_ok b q amount commission w) |].
  split; [exact (convert_fiat_to_fiat_status b q amount commission w) |].
  split; [exact (convert_fiat_to_fiat_fields b q amount commission w) |].
  split; [exact (convert_fiat_to_fiat_ticker b q amount commission w) |].
  split; [repeat split |].
  split.
  - intros base quote Hb Hq Hcb Hcq Hmiss. split.
    + intros m w' Hrun. rewrite (get_price_fiat_miss _ _ _ _ _ _ _ Hb Hq Hcb Hcq Hmiss).
      unfold try_except. now rewrite (bind_raise _ _ _ _ _ Hrun).
    + intros result published w' Hrun Hnz.
      rewrite (get_price_fiat_miss _ _ _ _ _ _ _ Hb Hq Hcb Hcq Hmiss).
      unfold try_except. rewrite (bind_ok _ _ _ _ _ Hrun).
      unfold commission_factor. rewrite (bind_lift_ok _ _ _ _ (div_nonzero _ _ Hnz)).
      reflexivity.
  - intros clock published key. eexists _, _.
    split; [vm_compute; reflexivity | vm_compute; reflexivity].
Qed.

End FiatPath.

(** The fiat path on the sample snapshot. *)
Lemma fiat_to_fiat_uses_snapshot_witness :
  convert_fiat_to_fiat (fiat_env seconds (JNum 777) "k") "usd" "rub" 100 0 empty_world
  = (Ok ((100 / 1 * 90 * (1 + 0 / 100))%Q, JNum 777),
     sent (openexchange_url (fiat_env seconds (JNum 777) "k")) empty_world).
Proof.
  apply (proj1 (fiat_to_fiat_uses_snapshot (fiat_env seconds (JNum 777) "k")
                  "usd" "rub" 100 0 empty_world)
           [ ("timestamp", JNum 777);
             ("rates", JObj [ ("USD", JNum 1); ("EUR", JNum (10 # 11)); ("RUB", JNum 90) ]) ]
           [ ("USD", JNum 1); ("EUR", JNum (10 # 11)); ("RUB", JNum 90) ]
           (JNum 777) 1%Q 90%Q);
    try reflexivity; discriminate.
Defined.

(** C2 on the code: between two fiat currencies, on a cache miss (no entry,
    or a stale one), [get_price] returns the value of the fiat path only
    when the amount with commission is not zero.  When it is zero, the path
    has computed [(amount / baseRate) * quoteRate * (1 + commission/100)],
    which is 0, but the call raises the error of kind ConversionFailed: the
    rate to be cached divides by [amount * (1 + commission/100)].  With
    EUR = 10/11 and RUB = 90 in the snapshot, converting 50 EUR to RUB
    returns 4950 without commission and raises with a commission of -100
    per cent; converting 0 EUR raises as well. *)
Theorem fiat_conversion_raises_on_zero_divisor readings published key :
  (exists r w',
      get_price (fiat_env readings published key) "Евро" "Рубль" 50 0 empty_world
      = (Ok (r, published), w')
      /\ (r == 50 / (10 # 11) * 90 * (1 + 0 / 100))%Q /\ (r == 4950)%Q)
  /\ fst (convert_fiat_to_fiat (fiat_env readings published key) "eur" "rub" 50 (-100)
            empty_world)
     = Ok ((50 / (10 # 11) * 90 * (1 + -100 / 100))%Q, published)
  /\ (50 / (10 # 11) * 90 * (1 + -100 / 100) == 0)%Q
  /\ RATE_CACHE empty_world !! cache_key "eur" "rub" = None
  /\ fst (get_price (fiat_env readings published key) "Евро" "Рубль" 50 (-100) empty_world)
     = Raise (APIException (ConversionMsg ZeroDivisionError))
  /\ fst (get_price (fiat_env readings published key) "Евро" "Рубль" 0 0 empty_world)
     = Raise (APIException (ConversionMsg ZeroDivisionError))
  /\ error_kind_of (APIException (ConversionMsg ZeroDivisionError)) = Some ConversionFailed
  /\ (forall E base quote b q amount commission w w1 result ts w2,
        ticker_of base = Some b -> ticker_of quote = Some q ->
        mem b crypto_list = false -> mem q crypto_list = false ->
        get_cached_rate E b q w = (Ok None, w1) ->
        convert_fiat_to_fiat E b q amount commission w1 = (Ok (result, ts), w2) ->
        ((amount * (1 + commission / 100) == 0)%Q ->
         get_price E base quote amount commission w
         = (Raise (APIException (ConversionMsg ZeroDivisionError)), w2))
        /\ (~ (amount * (1 + commission / 100) == 0)%Q ->
            get_price E base quote amount commission w
            = (Ok (result, ts),
               tick (store (cache_key b q)
                       ((result / (amount * (1 + commission / 100)))%Q, clock E (ticks w2))
                       w2)))).
Proof.
  split; [eexists _, _; split; [vm_compute; reflexivity | split; vm_compute; reflexivity] |].
  split; [vm_compute; reflexivity |].
  split; [vm_compute; reflexivity |].
  split; [reflexivity |].
  split; [vm_compute; reflexivity |].
  split; [vm_compute; reflexivity |].
  split; [reflexivity |].
  intros E base quote b q amount commission w w1 result ts w2 Hb Hq Hcb Hcq Hmiss Hrun.
  assert (Hstep : get_price E base quote amount commission w
                  = try_except
                      (bind (lift (Py.div result (amount * commission_factor commission)))
                         (fun actual_rate =>
                            bind (cache_rate E b q actual_rate) (fun _ => ret (result, ts))))
                      (fun e => match e with
                                | APIException _ => raise e
                                | _ => raise (APIException (ConversionMsg e))
                                end) w2).
  { rewrite (get_price_with_codes _ _ _ _ _ _ _ _ Hb Hq).
    rewrite (bind_ok _ _ _ _ _ Hmiss). unfold resolve_and_cache, route.
    rewrite Hcb, Hcq. cbn [orb]. unfold try_except.
    now rewrite (bind_ok _ _ _ _ _ Hrun). }
  rewrite Hstep. unfold try_except, commission_factor. split.
  - intros Hzero. unfold bind, lift. now rewrite (div_zero _ _ Hzero).
  - intros Hnz. now rewrite (bind_lift_ok _ _ _ _ (div_nonzero _ _ Hnz)).
Qed.

(** Fifty euros with a commission of -100 per cent, from an empty cache. *)
Lemma fiat_conversion_raises_on_zero_divisor_witness :
  get_price (fiat_env seconds (JNum 777) "k") "Евро" "Рубль" 50 (-100) empty_world
  = (Raise (APIException (ConversionMsg ZeroDivisionError)),
     sent (openexchange_url (fiat_env seconds (JNum 777) "k")) empty_world).
Proof.
  destruct (fiat_conversion_raises_on_zero_divisor seconds (JNum 777) "k")
    as (_ & _ & _ & _ & _ & _ & _ & Hgeneral).
  refine (proj1 (Hgeneral (fiat_env seconds (JNum 777) "k") "Евро" "Рубль" "eur" "rub"
                   50%Q (-100)%Q empty_world empty_world
                   ((50 / (10 # 11) * 90 * (1 + -100 / 100))%Q) (JNum 777)
                   (sent (openexchange_url (fiat_env seconds (JNum 777) "k")) empty_world)
                   eq_refl eq_refl eq_refl eq_refl eq_refl _) _).
  - vm_compute; reflexivity.
  - vm_compute; reflexivity.
Defined.

(** ** Compound expressions *)

Section Expressions.

(** A target marker ends the scan: the rest, joined by spaces, is the
    target token, and nothing after the marker is read as a term. *)
Lemma eval_parts_marker E part rest total_usd current_operator w :
  mem (Text.lower part) ["в"; "to"] = true ->
  eval_parts E (part :: rest) total_usd current_operator w
  = (Ok (total_usd, match rest with [] => None | _ => Some (Text.join " " rest) end), w).
Proof. intros H. cbn [eval_parts]. now rewrite H. Qed.

(** An operator token replaces the current operator. *)
Lemma eval_parts_operator E part rest total_usd current_operator w :
  mem part ["+"; "-"; "*"; "/"] = true ->
  eval_parts E (part :: rest) total_usd current_operator w
  = eval_parts E rest total_usd part w.
Proof.
  intros H. cbn [eval_parts].
  destruct (mem (Text.lower part) ["в"; "to"]) eqn:Hmarker; [| now rewrite H].
  exfalso. unfold mem in H. cbn [existsb] in H.
  rewrite !Bool.orb_true_iff, !String.eqb_eq in H.
  destruct H as [-> | [-> | [-> | [-> | H]]]]; discriminate.
Qed.

(** C3: with a snapshot in which one euro is 1.1 dollars and one dollar is
    90 roubles, the expression "100 USD + 50 EUR в RUB" splits into the
    parts 100 USD, +, 50 EUR, в, RUB; its evaluation returns the subtotal
    155 with the target Рубль, and the final conversion of 155 USD returns
    13950.  The fold starts from total 0 and operator +, runs left to
    right without precedence (100 USD + 50 EUR * 2 USD is 310), and stops
    at the target marker, whose remainder, joined by spaces, is the target
    token. *)
Theorem expression_example_evaluates clock published key :
  is_complex_expression "100 USD + 50 EUR в RUB" = true
  /\ expression_parts "100 USD + 50 EUR в RUB" = ["100 USD"; "+"; "50 EUR"; "в"; "RUB"]
  /\ (exists total w',
        process_complex_expression (fiat_env clock published key)
          "100 USD + 50 EUR в RUB" empty_world = (Ok (total, "Рубль"), w')
        /\ (total == 155)%Q)
  /\ (exists total result w',
        convert_expression (fiat_env clock published key)
          "100 USD + 50 EUR в RUB" empty_world
        = (Ok (total, "Рубль", (result, published)), w')
        /\ (total == 155)%Q /\ (result == 13950)%Q)
  /\ (forall E text w,
        (3 <= length (expression_parts text))%nat ->
        process_complex_expression E text w
        = bind (eval_parts E (expression_parts text) 0 "+")
            (fun scanned =>
               let target := match snd scanned with
                             | Some t => if Text.nonempty t then t else "USD"
                             | None => "USD"
                             end in
               match normalize_currency_name (Some target) with
               | None => raise (APIException (UnknownTargetMsg target))
               | Some target_key => ret (fst scanned, target_key)
               end) w)
  /\ (forall E part rest total_usd current_operator w,
        mem (Text.lower part) ["в"; "to"] = true ->
        eval_parts E (part :: rest) total_usd current_operator w
        = (Ok (total_usd, match rest with [] => None | _ => Some (Text.join " " rest) end), w))
  /\ (exists total w',
        process_complex_expression (fiat_env seconds published key)
          "100 USD + 50 EUR * 2 USD в RUB" empty_world = (Ok (total, "Рубль"), w')
        /\ (total == (100 + 55) * 2)%Q).
Proof.
  split; [vm_compute; reflexivity |]. split; [vm_compute; reflexivity |].
  split; [eexists _, _; split; [vm_compute; reflexivity | vm_compute; reflexivity] |].
  split; [eexists _, _, _; split; [vm_compute; reflexivity | split; vm_compute; reflexivity] |].
  split.
  - intros E text w Hlen. unfold process_complex_expression. cbv zeta.
    rewrite (proj2 (Nat.ltb_ge _ _) Hlen).
    unfold bind. destruct (eval_parts E _ _ _ w) as [[[total target]|e] w']; reflexivity.
  - split; [exact eval_parts_marker |].
    eexists _, _; split; [vm_compute; reflexivity | vm_compute; reflexivity].
Qed.

(** The marker with its remainder, at the point the example reaches it. *)
Lemma expression_example_evaluates_witness :
  mem (Text.lower "в") ["в"; "to"] = true
  /\ eval_parts (fiat_env seconds JNull "k") ["в"; "RUB"] 155 "+" empty_world
     = (Ok (155%Q, Some "RUB"), empty_world).
Proof.
  split; [reflexivity |].
  exact (proj1 (proj2 (proj2 (proj2 (proj2 (proj2
           (expression_example_evaluates seconds JNull "k"))))))
           (fiat_env seconds JNull "k") "в" ["RUB"] 155%Q "+" empty_world eq_refl).
Defined.

(** C4 on the code: from an empty cache, with the snapshot provider
    answering every request, the expression "100 USD / 0 EUR в RUB" does
    not reach the division: converting the term 0 EUR raises inside
    [get_price], where the rate to be cached is [0 / (0 * 1)], and the
    error is the wrapper of kind ConversionFailed.  The DivisionByZero error
    appears only when the euro rate is served from a fresh cache entry. *)
Theorem zero_term_fails_before_division clock published key :
  process_complex_expression (fiat_env clock published key)
    "100 USD / 0 EUR в RUB" empty_world
  = (Raise (APIException (ConversionMsg ZeroDivisionError)),
     snd (process_complex_expression (fiat_env clock published key)
            "100 USD / 0 EUR в RUB" empty_world))
  /\ fst (convert_expression (fiat_env clock published key)
            "100 USD / 0 EUR в RUB" empty_world)
     = Raise (APIException (ConversionMsg ZeroDivisionError))
  /\ error_kind_of (APIException (ConversionMsg ZeroDivisionError)) = Some ConversionFailed
  /\ error_kind_of (APIException (ConversionMsg ZeroDivisionError)) <> Some DivisionByZero
  /\ fst (process_complex_expression (fiat_env seconds published key)
            "100 USD / 0 EUR в RUB" (store "eur_usd" ((11 # 10)%Q, 0%Q) empty_world))
     = Raise (APIException DivisionByZeroMsg).
Proof.
  split; [vm_compute; reflexivity |].
  split; [vm_compute; reflexivity |].
  split; [reflexivity |].
  split; [discriminate |].
  vm_compute; reflexivity.
Qed.

End Expressions.

(** ** The crypto-to-fiat path and the USD bridge *)

Section CryptoFiat.

Variable E : env.

Lemma bind_time_time {B} (k : Q -> M B) w :
  bind (time_time E) k w = k (clock E (ticks w)) (tick w).
Proof. reflexivity. Qed.

(** C5: in a crypto/fiat conversion, a response with status 200 that lacks
    the direct quote (the crypto id is not a key of the response, or the
    fiat code is not a key of its entry) hands the call over to
    [convert_via_usd] instead of failing; a status other than 200 fails at
    once with an error of kind UpstreamUnavailable, after the single
    request.  [get_price] takes this path when exactly one ticker is a
    crypto ticker. *)
Theorem crypto_to_fiat_falls_back b q amount commission w crypto_id :
  assoc (if in_coingecko b then b else q) COINGECKO_IDS = Some crypto_id ->
  (forall fields,
      http E (length (requests w))
        (simple_price_url crypto_id (if in_coingecko b then q else b))
      = Response 200 (Some (JObj fields)) ->
      (assoc crypto_id fields = None
       \/ exists quotes, assoc crypto_id fields = Some (JObj quotes)
                         /\ assoc (if in_coingecko b then q else b) quotes = None) ->
      convert_crypto_to_fiat E b q amount commission w
      = convert_via_usd E b q amount commission
          (tick (sent (simple_price_url crypto_id (if in_coingecko b then q else b)) w)))
  /\ (forall status body,
        http E (length (requests w))
          (simple_price_url crypto_id (if in_coingecko b then q else b))
        = Response status body ->
        status <> 200%Z ->
        convert_crypto_to_fiat E b q amount commission w
        = (Raise (APIException CoinGeckoStatusMsg),
           sent (simple_price_url crypto_id (if in_coingecko b then q else b)) w)
        /\ error_kind_of (APIException CoinGeckoStatusMsg) = Some UpstreamUnavailable)
  /\ (xorb (mem b crypto_list) (mem q crypto_list) = true ->
      route E b q amount commission = convert_crypto_to_fiat E b q amount commission).
Proof.
  intros Hid. split; [| split].
  - intros fields Hhttp Habsent. unfold convert_crypto_to_fiat. cbv zeta. rewrite Hid.
    rewrite (bind_ok _ _ _ _ _ (requests_get_response _ _ _ _ _ Hhttp)).
    cbn [status_code fst Z.eqb Pos.eqb negb response_json snd].
    unfold bind at 1. cbn [ret]. rewrite bind_time_time.
    unfold bind, lift, ret, Py.contains, Py.getitem.
    destruct Habsent as [Hnone | (quotes & Hsome & Hnone)].
    + now rewrite Hnone.
    + now rewrite Hsome, Hnone.
  - intros status body Hhttp Hstatus. split; [| reflexivity].
    unfold convert_crypto_to_fiat. cbv zeta. rewrite Hid.
    rewrite (bind_ok _ _ _ _ _ (requests_get_response _ _ _ _ _ Hhttp)).
    cbn [status_code fst]. now rewrite (status_not_200 _ Hstatus).
  - intros Hone. unfold route.
    destruct (mem b crypto_list), (mem q crypto_list); try discriminate Hone; reflexivity.
Qed.

End CryptoFiat.

(** Bitcoin to roubles when the crypto service lists bitcoin without a
    rouble quote: the bridge takes over after one request and one clock
    reading. *)
Lemma crypto_to_fiat_falls_back_witness :
  assoc (if in_coingecko "btc" then "btc" else "rub") COINGECKO_IDS = Some "bitcoin"
  /\ convert_crypto_to_fiat (bridge_env seconds (JNum 5) "k") "btc" "rub" 1 0 empty_world
     = convert_via_usd (bridge_env seconds (JNum 5) "k") "btc" "rub" 1 0
         (tick (sent (simple_price_url "bitcoin" (if in_coingecko "btc" then "rub" else "btc"))
                  empty_world)).
Proof.
  split; [reflexivity |].
  apply (proj1 (crypto_to_fiat_falls_back (bridge_env seconds (JNum 5) "k")
                  "btc" "rub" 1 0 empty_world "bitcoin" eq_refl)
           [ ("bitcoin", JObj []) ]).
  - reflexivity.
  - right. exists []. split; reflexivity.
Defined.

Section Bridge.

Variable E : env.

(** For a ticker the crypto service does not know, a snapshot whose rates
    lack the ticker makes either step of the bridge answer 1. *)
Lemma base_to_usd_step_default code w status fields rates published :
  assoc code COINGECKO_IDS = None ->
  http E (length (requests w)) (openexchange_url E) = Response status (Some (JObj fields)) ->
  assoc "rates" fields = Some (JObj rates) ->
  assoc "timestamp" fields = Some published ->
  assoc (Text.upper code) rates = None ->
  base_to_usd_step E code w = (Ok (JNum 1, published), sent (openexchange_url E) w).
Proof.
  intros Hid Hhttp Hrates Hts Hnone. unfold base_to_usd_step. rewrite Hid.
  rewrite (bind_ok _ _ _ _ _ (requests_get_response _ _ _ _ _ Hhttp)).
  unfold response_json. cbn [snd]. unfold bind, lift, ret, Py.getitem, Py.get_default.
  now rewrite Hrates, Hnone, Hts.
Qed.

Lemma usd_to_quote_step_default code w status fields rates published :
  assoc code COINGECKO_IDS = None ->
  http E (length (requests w)) (openexchange_url E) = Response status (Some (JObj fields)) ->
  assoc "rates" fields = Some (JObj rates) ->
  assoc "timestamp" fields = Some published ->
  assoc (Text.upper code) rates = None ->
  usd_to_quote_step E code w = (Ok (JNum 1, published), sent (openexchange_url E) w).
Proof.
  intros Hid Hhttp Hrates Hts Hnone. unfold usd_to_quote_step. rewrite Hid.
  rewrite (bind_ok _ _ _ _ _ (requests_get_response _ _ _ _ _ Hhttp)).
  unfold response_json. cbn [snd]. unfold bind, lift, ret, Py.getitem, Py.get_default.
  now rewrite Hrates, Hnone, Hts.
Qed.

(** [max] of two numeric timestamps is the later one. *)
Lemma max_of_numbers (a b : Q) :
  exists m, Py.max (JNum a) (JNum b) = Ok (JNum m)
            /\ (a <= m)%Q /\ (b <= m)%Q /\ (m = a \/ m = b).
Proof.
  cbn [Py.max Py.number]. unfold Py.Qlt_bool.
  destruct (Qle_bool b a) eqn:Hle; cbn [negb].
  - exists a. apply Qle_bool_iff in Hle. repeat split; [apply Qle_refl | exact Hle | now left].
  - exists b. repeat split; [| apply Qle_refl | now right].
    destruct (Qlt_le_dec a b) as [Hlt | Hge]; [now apply Qlt_le_weak |].
    apply Qle_bool_iff in Hge. congruence.
Qed.

(** The composition of the bridge: when its two steps return the values
    [r1] and [r2] with the timestamps [ts1] and [ts2], the conversion returns
    [amount * r1 * r2 * (1 + commission/100)] with the timestamp
    [max(ts1, ts2)], the later of the two when both are numbers; a fiat
    ticker that the snapshot's rates lack makes its step answer 1 instead
    of failing. *)
Theorem bridge_composes_two_rates b q amount commission w r1 ts1 w1 r2 ts2 w2 n1 n2 ts :
  base_to_usd_step E b w = (Ok (r1, ts1), w1) ->
  usd_to_quote_step E q w1 = (Ok (r2, ts2), w2) ->
  Py.number r1 = Ok n1 -> Py.number r2 = Ok n2 ->
  Py.max ts1 ts2 = Ok ts ->
  convert_via_usd E b q amount commission w
  = (Ok ((amount * n1 * n2 * (1 + commission / 100))%Q, ts), w2)
  /\ (forall x y : Q, ts1 = JNum x -> ts2 = JNum y ->
        exists m, ts = JNum m /\ (x <= m)%Q /\ (y <= m)%Q /\ (m = x \/ m = y))
  /\ (forall code w0 status fields rates published,
        assoc code COINGECKO_IDS = None ->
        http E (length (requests w0)) (openexchange_url E)
        = Response status (Some (JObj fields)) ->
        assoc "rates" fields = Some (JObj rates) ->
        assoc "timestamp" fields = Some published ->
        assoc (Text.upper code) rates = None ->
        base_to_usd_step E code w0 = (Ok (JNum 1, published), sent (openexchange_url E) w0)
        /\ usd_to_quote_step E code w0
           = (Ok (JNum 1, published), sent (openexchange_url E) w0)).
Proof.
  intros Hbase Hquote Hn1 Hn2 Hmax. split; [| split].
  - unfold convert_via_usd, try_except.
    rewrite (bind_ok _ _ _ _ _ Hbase). cbv beta iota.
    rewrite (bind_ok _ _ _ _ _ Hquote). cbv beta iota.
    rewrite (bind_lift_ok _ _ _ _ Hn1), (bind_lift_ok _ _ _ _ Hn2).
    cbv zeta. now rewrite (bind_lift_ok _ _ _ _ Hmax).
  - intros x y -> ->. destruct (max_of_numbers x y) as (m & Heq & Hx & Hy & Hm).
    exists m. rewrite Heq in Hmax. injection Hmax as <-. now repeat split.
  - intros code w0 status fields rates published Hid Hhttp Hrates Hts Hnone. split.
    + now apply base_to_usd_step_default with (status := status) (fields := fields) (rates := rates).
    + now apply usd_to_quote_step_default with (status := status) (fields := fields) (rates := rates).
Qed.

End Bridge.

(** The bridge from bitcoin, at 50000 dollars, to roubles, at 90 per
    dollar: the crypto step reads the clock, the fiat step carries the
    snapshot's timestamp. *)
Lemma bridge_composes_two_rates_witness :
  convert_via_usd (bridge_env seconds (JNum 5) "k") "btc" "rub" 2 10 empty_world
  = (Ok ((2 * 50000 * 90 * (1 + 10 / 100))%Q, JNum 5),
     sent (openexchange_url (bridge_env seconds (JNum 5) "k"))
       (tick (sent (simple_price_url "bitcoin" "usd") empty_world))).
Proof.
  apply (proj1 (bridge_composes_two_rates (bridge_env seconds (JNum 5) "k")
                  "btc" "rub" 2 10 empty_world
                  (JNum 50000) (JNum (seconds 0))
                  (tick (sent (simple_price_url "bitcoin" "usd") empty_world))
                  (JNum 90) (JNum 5)
                  (sent (openexchange_url (bridge_env seconds (JNum 5) "k"))
                     (tick (sent (simple_price_url "bitcoin" "usd") empty_world)))
                  50000%Q 90%Q (JNum 5)
                  ltac:(vm_compute; reflexivity) ltac:(vm_compute; reflexivity)
                  eq_refl eq_refl ltac:(vm_compute; reflexivity))).
Defined.

(** C6 on the code: with roubles at 90 per dollar and bitcoin at 50000
    dollars, the rate from roubles to dollars is 1/90 and the rate from
    dollars to bitcoin is 1/50000, so 9000000 roubles are 2 bitcoin.  When
    the crypto service has no direct rouble quote, [get_price] goes through
    the bridge, which takes the snapshot's rate of the base as it stands
    (roubles per dollar) where the rate into dollars is its inverse, and
    returns 16200.  The fiat path divides by that same rate (9000000
    roubles are 100000 dollars), and the bridge in the other direction is
    right: 2 bitcoin are 9000000 roubles. *)
Theorem fiat_base_bridge_uses_rate_uninverted :
  (9000000 * (1 / 90) * (1 / 50000) * (1 + 0 / 100) == 2)%Q
  /\ (exists result w',
        get_price (bridge_env seconds (JNum 5) "k") "Рубль" "Биткоин" 9000000 0 empty_world
        = (Ok (result, JNum 5), w')
        /\ (result == 9000000 * 90 * (1 / 50000) * (1 + 0 / 100))%Q
        /\ (result == 16200)%Q
        /\ ~ (result == 2)%Q
        /\ requests w'
           = [ simple_price_url "bitcoin" "rub";
               openexchange_url (bridge_env seconds (JNum 5) "k");
               simple_price_url "bitcoin" "usd" ])
  /\ (exists result w',
        convert_via_usd (bridge_env seconds (JNum 5) "k") "rub" "btc" 9000000 0 empty_world
        = (Ok (result, JNum 5), w')
        /\ (result == 16200)%Q)
  /\ (exists dollars w',
        convert_fiat_to_fiat (bridge_env seconds (JNum 5) "k") "rub" "usd" 9000000 0
          empty_world
        = (Ok (dollars, JNum 5), w')
        /\ (dollars == 100000)%Q)
  /\ (exists roubles w',
        get_price (bridge_env seconds (JNum 5) "k") "Биткоин" "Рубль" 2 0 empty_world
        = (Ok (roubles, JNum 5), w')
        /\ (roubles == 9000000)%Q).
Proof.
  split; [vm_compute; reflexivity |].
  split.
  { eexists _, _. split; [vm_compute; reflexivity |].
    split; [vm_compute; reflexivity |]. split; [vm_compute; reflexivity |].
    split; [intros H; vm_compute in H; discriminate H | vm_compute; reflexivity]. }
  split; [eexists _, _; split; vm_compute; reflexivity |].
  split; [eexists _, _; split; vm_compute; reflexivity |].
  eexists _, _; split; vm_compute; reflexivity.
Qed.

(** ** Amounts and commissions that zero the cached rate's divisor *)

Section ZeroDivisor.

Variable E : env.

Lemma get_cached_rate_absent bc qc w :
  RATE_CACHE w !! cache_key bc qc = None ->
  get_cached_rate E bc qc w = (Ok None, w).
Proof. intros H. unfold get_cached_rate, bind, cache_get. now rewrite H. Qed.

Lemma get_cached_rate_stale bc qc rate stored w :
  RATE_CACHE w !! cache_key bc qc = Some (rate, stored) ->
  ~ (clock E (ticks w) - stored < CACHE_DURATION)%Q ->
  get_cached_rate E bc qc w = (Ok None, tick w).
Proof.
  intros Hentry Hstale. unfold get_cached_rate, bind, cache_get, time_time.
  rewrite Hentry. unfold Py.Qlt_bool.
  destruct (Qle_bool CACHE_DURATION (clock E (ticks w) - stored)) eqn:Hle; [reflexivity |].
  exfalso. apply Hstale. apply Qnot_le_lt. intros Hge.
  apply Qle_bool_iff in Hge. congruence.
Qed.

(** C10, amended: for a pair whose key has no fresh entry (none at all, or
    a stale one), a call with amount 0 and commission 0 whose conversion
    path returned a result still raises: the rate to be stored divides by
    [0 * (1 + 0/100)], and the [ZeroDivisionError] is wrapped into the error
    of kind ConversionFailed; nothing is cached.  With a fresh entry whose
    rate is a finite number (every rational is) the same call returns 0. *)
Theorem zero_amount_fails_on_miss base quote bc qc w :
  ticker_of base = Some bc -> ticker_of quote = Some qc ->
  (forall w1 r w2,
      get_cached_rate E bc qc w = (Ok None, w1) ->
      route E bc qc 0 0 w1 = (Ok r, w2) ->
      get_price E base quote 0 0 w
      = (Raise (APIException (ConversionMsg ZeroDivisionError)), w2)
      /\ error_kind_of (APIException (ConversionMsg ZeroDivisionError))
         = Some ConversionFailed
      /\ RATE_CACHE w2 = RATE_CACHE w)
  /\ (RATE_CACHE w !! cache_key bc qc = None ->
      get_cached_rate E bc qc w = (Ok None, w))
  /\ (forall rate stored,
        RATE_CACHE w !! cache_key bc qc = Some (rate, stored) ->
        ~ (clock E (ticks w) - stored < CACHE_DURATION)%Q ->
        get_cached_rate E bc qc w = (Ok None, tick w))
  /\ (forall rate stored,
        RATE_CACHE w !! cache_key bc qc = Some (rate, stored) ->
        (clock E (ticks w) - stored < CACHE_DURATION)%Q ->
        exists result,
          get_price E base quote 0 0 w = (Ok (result, JNum stored), tick w)
          /\ (result == 0)%Q).
Proof.
  intros Hb Hq. split; [| split; [| split]].
  - intros w1 [result ts] w2 Hmiss Hroute. split; [| split; [reflexivity |]].
    + rewrite (get_price_with_codes _ _ _ _ _ _ _ _ Hb Hq).
      rewrite (bind_ok _ _ _ _ _ Hmiss).
      unfold resolve_and_cache, try_except.
      rewrite (bind_ok _ _ _ _ _ Hroute). cbv beta iota.
      assert (Hdiv : Py.div result (0 * commission_factor 0) = Raise ZeroDivisionError)
        by (apply div_zero; reflexivity).
      unfold bind, lift. now rewrite Hdiv.
    + pose proof (keeps_route E bc qc 0%Q 0%Q w1) as Hkeep. rewrite Hroute in Hkeep.
      cbn [snd] in Hkeep. rewrite Hkeep.
      now destruct (get_cached_rate_inv _ _ _ _ _ _ Hmiss) as (Hcache & _).
  - intros Hnone. now apply get_cached_rate_absent.
  - intros rate stored Hentry Hstale. exact (get_cached_rate_stale bc qc rate stored w Hentry Hstale).
  - intros rate stored Hentry Hfresh. eexists. split.
    + exact (get_price_hit _ _ _ _ _ _ _ _ _ _ Hb Hq Hentry Hfresh).
    + unfold Qdiv. ring.
Qed.

End ZeroDivisor.

(** Zero dollars to roubles from an empty cache, the snapshot provider
    answering: the path returns 0 and the call raises. *)
Lemma zero_amount_fails_on_miss_witness :
  ticker_of "USD" = Some "usd" /\ ticker_of "RUB" = Some "rub"
  /\ get_cached_rate (fiat_env seconds (JNum 777) "k") "usd" "rub" empty_world
     = (Ok None, empty_world)
  /\ route (fiat_env seconds (JNum 777) "k") "usd" "rub" 0 0 empty_world
     = (Ok ((0 / 1 * 90 * (1 + 0 / 100))%Q, JNum 777),
        sent (openexchange_url (fiat_env seconds (JNum 777) "k")) empty_world)
  /\ get_price (fiat_env seconds (JNum 777) "k") "USD" "RUB" 0 0 empty_world
     = (Raise (APIException (ConversionMsg ZeroDivisionError)),
        sent (openexchange_url (fiat_env seconds (JNum 777) "k")) empty_world).
Proof.
  assert (Hmiss : get_cached_rate (fiat_env seconds (JNum 777) "k") "usd" "rub" empty_world
                  = (Ok None, empty_world)) by reflexivity.
  assert (Hroute : route (fiat_env seconds (JNum 777) "k") "usd" "rub" 0 0 empty_world
                   = (Ok ((0 / 1 * 90 * (1 + 0 / 100))%Q, JNum 777),
                      sent (openexchange_url (fiat_env seconds (JNum 777) "k")) empty_world))
    by (vm_compute; reflexivity).
  split; [reflexivity | split; [reflexivity | split; [exact Hmiss | split; [exact Hroute |]]]].
  exact (proj1 (proj1 (zero_amount_fails_on_miss (fiat_env seconds (JNum 777) "k")
                         "USD" "RUB" "usd" "rub" empty_world eq_refl eq_refl)
                      _ _ _ Hmiss Hroute)).
Defined.

(** With one dollar at 90 roubles, a conversion of 1e308 dollars overflows:
    the result and the rate that is cached are infinite, and the call with
    amount 0 that then finds the entry returns [0 * inf * 1], which is NaN
    and not 0. *)
Lemma infinite_cached_rate_answers_nan : ~ cached_rate_answers_zero_with_zero.
Proof.
  intros Hclaim.
  specialize (Hclaim Binary64.huge PrimFloat.one Binary64.rouble_rate
                PrimFloat.infinity PrimFloat.infinity).
  assert (Hnan : PrimFloat.eqb
                   (Binary64.cached_result PrimFloat.zero PrimFloat.infinity PrimFloat.zero)
                   PrimFloat.zero = false) by (vm_compute; reflexivity).
  rewrite Hclaim in Hnan; [discriminate Hnan | vm_compute; reflexivity ..].
Qed.

(** ** Commission *)

Section Commission.

Variable E : env.

(* Case analysis on every scrutinee that is not itself a case analysis. *)
Ltac split_runs :=
  repeat match goal with
         | |- context [match ?x with _ => _ end] =>
             lazymatch x with
             | context [match _ with _ => _ end] => fail
             | context [convert_via_usd] => fail
             | _ => destruct x
             end
         end.

Ltac scaled_leaf :=
  cbn [scaled_by];
  first [ now repeat split
        | split; [unfold commission_factor, Qdiv; ring | now split] ].

Lemma convert_fiat_to_fiat_scales b q amount commission w :
  scaled_by (commission_factor commission)
    (convert_fiat_to_fiat E b q amount 0 w)
    (convert_fiat_to_fiat E b q amount commission w).
Proof.
  unfold convert_fiat_to_fiat, requests_get, response_json, bind, lift, ret, raise.
  split_runs; scaled_leaf.
Qed.

Lemma convert_crypto_to_crypto_scales b q amount commission w :
  scaled_by (commission_factor commission)
    (convert_crypto_to_crypto E b q amount 0 w)
    (convert_crypto_to_crypto E b q amount commission w).
Proof.
  unfold convert_crypto_to_crypto, requests_get, response_json, time_time,
    bind, lift, ret, raise.
  split_runs; scaled_leaf.
Qed.

Lemma convert_via_usd_scales b q amount commission w :
  scaled_by (commission_factor commission)
    (convert_via_usd E b q amount 0 w)
    (convert_via_usd E b q amount commission w).
Proof.
  unfold convert_via_usd, try_except, bind, lift, ret, raise.
  split_runs; scaled_leaf.
Qed.

Lemma convert_crypto_to_fiat_scales b q amount commission w :
  scaled_by (commission_factor commission)
    (convert_crypto_to_fiat E b q amount 0 w)
    (convert_crypto_to_fiat E b q amount commission w).
Proof.
  unfold convert_crypto_to_fiat. cbv zeta.
  destruct (assoc _ COINGECKO_IDS); [| now cbn].
  unfold requests_get, response_json, time_time, bind, lift, ret, raise.
  split_runs; first [apply convert_via_usd_scales | scaled_leaf].
Qed.

Lemma route_scales b q amount commission w :
  scaled_by (commission_factor commission)
    (route E b q amount 0 w) (route E b q amount commission w).
Proof.
  unfold route. destruct (_ || _)%bool; [destruct (_ && _)%bool |].
  - apply convert_crypto_to_crypto_scales.
  - apply convert_crypto_to_fiat_scales.
  - apply convert_fiat_to_fiat_scales.
Qed.

Lemma div_ok_inv x y r : Py.div x y = Ok r -> ~ (y == 0)%Q.
Proof.
  unfold Py.div. destruct (Qeq_bool y 0) eqn:Heq; [discriminate |].
  intros _ H. apply Qeq_bool_iff in H. congruence.
Qed.

(** Away from a commission of minus one hundred per cent, the amount
    returned with a commission is the amount returned without it times
    [1 + commission/100], from the same world and with the same timestamp. *)
Lemma commission_scaling base quote amount commission w r0 ts w0 :
  get_price E base quote amount 0 w = (Ok (r0, ts), w0) ->
  ~ (1 + commission / 100 == 0)%Q ->
  exists r w',
    get_price E base quote amount commission w = (Ok (r, ts), w')
    /\ (r == r0 * (1 + commission / 100))%Q.
Proof.
  unfold get_price.
  destruct (normalize_currency_name (Some base)) as [bk|]; [| discriminate].
  destruct (normalize_currency_name (Some quote)) as [qk|]; [| discriminate].
  intros Hrun Hfactor.
  apply bind_inv in Hrun as [(bc & w1 & Hbc & Hrun) | (? & _ & ?)]; [| discriminate].
  apply bind_inv in Hrun as [(qc & w2 & Hqc & Hrun) | (? & _ & ?)]; [| discriminate].
  apply bind_inv in Hrun as [(cached & w3 & Hlook & Hrun) | (? & _ & ?)]; [| discriminate].
  rewrite (bind_ok _ _ _ _ _ Hbc), (bind_ok _ _ _ _ _ Hqc), (bind_ok _ _ _ _ _ Hlook).
  destruct cached as [[rate stored]|].
  - injection Hrun as <- <- <-. eexists _, _. split; [reflexivity |].
    unfold commission_factor, Qdiv. ring.
  - unfold resolve_and_cache, try_except in *.
    destruct (bind (route E bc qc amount 0) _ w3) as [[r1|e1] w4] eqn:Hbody;
      [| destruct e1; discriminate].
    injection Hrun as -> ->.
    apply bind_inv in Hbody as [([result0 ts0] & w5 & Hroute & Hbody) | (? & _ & ?)];
      [| discriminate].
    apply bind_inv in Hbody as [(rate0 & w6 & Hdiv & Hbody) | (? & _ & ?)]; [| discriminate].
    unfold lift in Hdiv. injection Hdiv as Hdiv <-.
    unfold bind, cache_rate, ret in Hbody. injection Hbody as <- <- _.
    pose proof (route_scales bc qc amount commission w3) as Hscaled.
    rewrite Hroute in Hscaled.
    destruct (route E bc qc amount commission w3) as [[[result t]|e] w7] eqn:Hroute';
      cbn [scaled_by] in Hscaled; [| contradiction].
    destruct Hscaled as (Hresult & -> & ->).
    apply div_ok_inv in Hdiv.
    assert (Hnz : ~ (amount * commission_factor commission == 0)%Q).
    { intros Hzero. apply Qmult_integral in Hzero as [Hzero | Hzero].
      - apply Hdiv. rewrite Hzero. ring.
      - now apply Hfactor. }
    rewrite (bind_ok _ _ _ _ _ Hroute'). cbv beta iota.
    rewrite (bind_lift_ok _ _ _ _ (div_nonzero _ _ Hnz)).
    eexists _, _. split; [reflexivity | exact Hresult].
Qed.

(** C7 on the code: with the snapshot provider answering and an empty
    cache, converting 100 USD to RUB without commission returns 9000, while
    the same call with a commission of -100 per cent, whose amount should be
    [9000 * (1 + (-100)/100) = 0], raises the error of kind ConversionFailed:
    the rate to be cached divides by [100 * 0]. *)
Theorem full_refund_commission_raises clock published key :
  (exists r0 w0,
      get_price (fiat_env clock published key) "USD" "RUB" 100 0 empty_world
      = (Ok (r0, published), w0)
      /\ (r0 == 9000)%Q /\ (r0 * (1 + -100 / 100) == 0)%Q)
  /\ fst (get_price (fiat_env clock published key) "USD" "RUB" 100 (-100) empty_world)
     = Raise (APIException (ConversionMsg ZeroDivisionError))
  /\ fst (convert_fiat_to_fiat (fiat_env clock published key) "usd" "rub" 100 (-100)
            empty_world)
     = Ok ((100 / 1 * 90 * (1 + -100 / 100))%Q, published).
Proof.
  split; [| split].
  - eexists _, _. split; [vm_compute; reflexivity | split; vm_compute; reflexivity].
  - vm_compute; reflexivity.
  - vm_compute; reflexivity.
Qed.

End Commission.

(** * Further properties of the engine *)

(** ** The vocabulary is closed under normalization *)

Section Vocabulary.

Lemma assoc_in {V} (k : string) (d : list (string * V)) v :
  assoc k d = Some v -> In (k, v) d.
Proof.
  induction d as [|[k' v'] d IH]; [discriminate |].
  cbn [assoc]. destruct (String.eqb_spec k k') as [-> | _].
  - intros [= ->]. now left.
  - intros H. right. now apply IH.
Qed.

Lemma first_partial_in name table value :
  first_partial name table = Some value -> exists key, In (key, value) table.
Proof.
  induction table as [|[key v] table IH]; [discriminate |].
  cbn [first_partial]. destruct (Text.contains key name).
  - intros [= ->]. exists key. now left.
  - intros H. destruct (IH H) as [k Hk]. exists k. now right.
Qed.

Lemma first_canonical_in name d value :
  first_canonical name d = Some value -> exists code, In (value, code) d.
Proof.
  induction d as [|[currency_name code] d IH]; [discriminate |].
  cbn [first_canonical]. destruct (String.eqb (Text.lower currency_name) name).
  - intros [= ->]. exists code. now left.
  - intros H. destruct (IH H) as [c Hc]. exists c. now right.
Qed.

Lemma forallb_in {X} (f : X -> bool) (l : list X) x :
  forallb f l = true -> In x l -> f x = true.
Proof. intros H Hin. rewrite forallb_forall in H. now apply H. Qed.

Lemma normalized_name_is_known raw name :
  normalize_currency_name raw = Some name -> known_name name = true.
Proof.
  destruct raw as [raw|]; [| discriminate]. unfold normalize_currency_name.
  destruct (negb (Text.nonempty raw)); [discriminate |].
  destruct (assoc _ currency_map) as [canonical|] eqn:Hexact.
  - intros [= <-]. apply assoc_in in Hexact.
    exact (forallb_in (fun entry => known_name (snd entry)) currency_map _ eq_refl Hexact).
  - destruct (first_partial _ currency_map) as [canonical|] eqn:Hpartial.
    + intros [= <-]. apply first_partial_in in Hpartial as [key Hin].
      exact (forallb_in (fun entry => known_name (snd entry)) currency_map _ eq_refl Hin).
    + intros Hcanonical. apply first_canonical_in in Hcanonical as [code Hin].
      exact (forallb_in (fun entry => known_name (fst entry)) Config.CURRENCIES _ eq_refl Hin).
Qed.

Lemma normalized_name_lookup raw name :
  normalize_currency_name raw = Some name ->
  exists code, assoc name Config.CURRENCIES = Some code.
Proof.
  intros Hname. pose proof (normalized_name_is_known raw name Hname) as Hknown.
  unfold known_name in Hknown.
  destruct (assoc name Config.CURRENCIES) as [code|]; [now exists code | discriminate].
Qed.

Lemma vocabulary_name_is_fixed name code :
  In (name, code) Config.CURRENCIES -> normalize_currency_name (Some name) = Some name.
Proof.
  intros Hin. cbn in Hin.
  repeat (destruct Hin as [Hin | Hin]; [injection Hin as <- <-; vm_compute; reflexivity |]).
  destruct Hin.
Qed.

Lemma normalized_name_is_fixed raw name :
  normalize_currency_name raw = Some name ->
  normalize_currency_name (Some name) = Some name.
Proof.
  intros Hname. destruct (normalized_name_lookup raw name Hname) as [code Hcode].
  apply assoc_in in Hcode. now apply (vocabulary_name_is_fixed name code).
Qed.

(** X1: whatever [normalize_currency_name] returns is a key of
    [Config.CURRENCIES], so the two lookups [Config.CURRENCIES[...]] of
    [get_price] find their key, and the ticker derived from a name that
    resolves is one of the thirteen lowercase tickers of the vocabulary. *)
Theorem normalized_name_has_ticker raw name :
  normalize_currency_name raw = Some name ->
  exists code,
    assoc name Config.CURRENCIES = Some code
    /\ (forall w, currency_code name w = (Ok (Text.lower code), w))
    /\ In (Text.lower code) vocabulary_tickers
    /\ (forall text, raw = Some text -> ticker_of text = Some (Text.lower code)).
Proof.
  intros Hname. destruct (normalized_name_lookup raw name Hname) as [code Hcode].
  exists code. split; [exact Hcode |]. split; [| split].
  - intros w. unfold currency_code. now rewrite Hcode.
  - apply assoc_in in Hcode. unfold vocabulary_tickers.
    apply (in_map (fun entry => Text.lower (snd entry))) in Hcode. exact Hcode.
  - intros text ->. unfold ticker_of. now rewrite Hname, Hcode.
Qed.

Lemma normalized_name_has_ticker_witness :
  normalize_currency_name (Some "  баксы ") = Some "Доллар"
  /\ exists code, assoc "Доллар" Config.CURRENCIES = Some code
                  /\ ticker_of "  баксы " = Some (Text.lower code).
Proof.
  assert (H : normalize_currency_name (Some "  баксы ") = Some "Доллар")
    by (vm_compute; reflexivity).
  split; [exact H |].
  destruct (normalized_name_has_ticker _ _ H) as (code & Hcode & _ & _ & Hticker).
  exists code. split; [exact Hcode | now apply Hticker].
Defined.

(** X2: every canonical name of the vocabulary, and every ticker code in
    upper or lower case, normalizes to that canonical name; and
    normalization is idempotent: a name it returned is returned unchanged
    when normalized again, as [get_price] does with the names its callers
    have already normalized. *)
Theorem normalization_fixes_the_vocabulary :
  (forall name code,
      In (name, code) Config.CURRENCIES ->
      normalize_currency_name (Some name) = Some name
      /\ normalize_currency_name (Some code) = Some name
      /\ normalize_currency_name (Some (Text.lower code)) = Some name)
  /\ (forall raw name,
        normalize_currency_name raw = Some name ->
        normalize_currency_name (Some name) = Some name).
Proof.
  assert (Hfix : forall name code,
             In (name, code) Config.CURRENCIES ->
             normalize_currency_name (Some name) = Some name
             /\ normalize_currency_name (Some code) = Some name
             /\ normalize_currency_name (Some (Text.lower code)) = Some name).
  { intros name code Hin. cbn in Hin.
    repeat (destruct Hin as [Hin | Hin];
            [injection Hin as <- <-; repeat split; vm_compute; reflexivity |]).
    destruct Hin. }
  split; [exact Hfix |].
  intros raw name Hname.
  destruct (normalized_name_lookup raw name Hname) as [code Hcode].
  apply assoc_in in Hcode. now apply (Hfix name code).
Qed.

Lemma normalization_fixes_the_vocabulary_witness :
  In ("Тезер", "USDT") Config.CURRENCIES
  /\ normalize_currency_name (Some "USDT") = Some "Тезер"
  /\ normalize_currency_name (Some "Тезер") = Some "Тезер".
Proof.
  assert (Hin : In ("Тезер", "USDT") Config.CURRENCIES) by (cbn; tauto).
  destruct (proj1 normalization_fixes_the_vocabulary _ _ Hin) as (Hname & Hcode & _).
  now split.
Defined.

End Vocabulary.

(** ** What the engine raises *)

Section Exceptions.

Variable E : env.

Lemma raises_only_ret {A} P (a : A) : raises_only P (ret a).
Proof. intros w e w' H. discriminate H. Qed.

Lemma raises_only_raise {A} (P : exc -> Prop) e : P e -> raises_only P (@raise A e).
Proof. intros He w e' w' H. now injection H as <- _. Qed.

Lemma raises_only_bind {A B} P (m : M A) (k : A -> M B) :
  raises_only P m -> (forall a, raises_only P (k a)) -> raises_only P (bind m k).
Proof.
  intros Hm Hk w e w'' H.
  apply bind_inv in H as [(a & w' & _ & Hkw) | (e' & Hmw & [= ->])].
  - exact (Hk a w' e w'' Hkw).
  - exact (Hm w e' w'' Hmw).
Qed.

Lemma raises_only_weaken {A} (P Q : exc -> Prop) (m : M A) :
  (forall e, P e -> Q e) -> raises_only P m -> raises_only Q m.
Proof. intros HPQ Hm w e w' H. apply HPQ. exact (Hm w e w' H). Qed.

Lemma plain_is_path_exception e : is_api_exception e = false -> path_exception e.
Proof. destruct e; [exact (fun _ => I) .. | discriminate]. Qed.

(** The Python operations on JSON values raise no [APIException]. *)
Lemma raises_only_lift_contains k v :
  raises_only path_exception (lift (Py.contains k v)).
Proof. intros w e w' H. destruct v; injection H as H _; inversion H; exact I. Qed.

Lemma raises_only_lift_getitem v k :
  raises_only path_exception (lift (Py.getitem v k)).
Proof.
  intros w e w' H. unfold lift, Py.getitem in H.
  destruct v; try destruct (assoc k fields); injection H as H _; inversion H; exact I.
Qed.

Lemma raises_only_lift_get_default v k d :
  raises_only path_exception (lift (Py.get_default v k d)).
Proof. intros w e w' H. destruct v; injection H as H _; inversion H; exact I. Qed.

Lemma raises_only_lift_number v : raises_only path_exception (lift (Py.number v)).
Proof. intros w e w' H. destruct v; injection H as H _; inversion H; exact I. Qed.

Lemma raises_only_lift_div x y : raises_only path_exception (lift (Py.div x y)).
Proof.
  intros w e w' H. unfold lift, Py.div in H.
  destruct (Qeq_bool y 0); injection H as H _; inversion H; exact I.
Qed.

Lemma raises_only_lift_max a b : raises_only path_exception (lift (Py.max a b)).
Proof.
  intros w e w' H. unfold lift, Py.max in H.
  destruct (Py.number a), (Py.number b), a, b;
    injection H as H _; inversion H; exact I.
Qed.

Lemma raises_only_time_time P : raises_only P (time_time E).
Proof. intros w e w' H. discriminate H. Qed.

Lemma raises_only_requests_get url : raises_only path_exception (requests_get E url).
Proof.
  intros w e w' H. unfold requests_get in H.
  destruct (http E _ _); injection H as H _; inversion H; exact I.
Qed.

Lemma raises_only_response_json response :
  raises_only path_exception (response_json response).
Proof.
  intros w e w' H. unfold response_json in H.
  destruct (snd response); injection H as H _; inversion H; exact I.
Qed.

Ltac raises_leaf :=
  first [ apply raises_only_ret
        | apply raises_only_raise; first [exact I | reflexivity]
        | apply raises_only_lift_contains | apply raises_only_lift_getitem
        | apply raises_only_lift_get_default | apply raises_only_lift_number
        | apply raises_only_lift_div | apply raises_only_lift_max
        | apply raises_only_time_time | apply raises_only_requests_get
        | apply raises_only_response_json ].

Ltac raises :=
  repeat first
    [ raises_leaf
    | apply raises_only_bind; [| intros ?]
    | match goal with
      | |- raises_only _ (if ?b then _ else _) => destruct b
      | |- raises_only _ (match ?x with _ => _ end) => destruct x
      end ].

Lemma raises_convert_fiat_to_fiat b q amount commission :
  raises_only path_exception (convert_fiat_to_fiat E b q amount commission).
Proof. unfold convert_fiat_to_fiat, Py.get. raises. Qed.

Lemma raises_convert_via_usd b q amount commission :
  raises_only path_exception (convert_via_usd E b q amount commission).
Proof.
  intros w e w' H. unfold convert_via_usd, try_except in H.
  destruct (bind _ _ w) as [[r|e0] w0]; [discriminate H |].
  now injection H as <- _.
Qed.

Lemma raises_convert_crypto_to_crypto b q amount commission :
  in_coingecko b = true -> in_coingecko q = true ->
  raises_only path_exception (convert_crypto_to_crypto E b q amount commission).
Proof.
  unfold in_coingecko, convert_crypto_to_crypto, Py.get.
  destruct (assoc b COINGECKO_IDS); [| discriminate].
  destruct (assoc q COINGECKO_IDS); [| discriminate].
  intros _ _. raises.
Qed.

Lemma raises_convert_crypto_to_fiat b q amount commission :
  (in_coingecko b || in_coingecko q)%bool = true ->
  raises_only path_exception (convert_crypto_to_fiat E b q amount commission).
Proof.
  intros Hone. unfold convert_crypto_to_fiat. cbv zeta.
  assert (Hid : in_coingecko (if in_coingecko b then b else q) = true)
    by (destruct (in_coingecko b) eqn:Hb; [exact Hb | exact Hone]).
  unfold in_coingecko at 1 in Hid.
  destruct (assoc (if in_coingecko b then b else q) COINGECKO_IDS); [| discriminate].
  apply raises_only_bind; [raises_leaf | intros response].
  destruct (negb _); [raises_leaf |].
  apply raises_only_bind; [raises_leaf | intros data].
  apply raises_only_bind; [raises_leaf | intros ts].
  apply raises_only_bind; [raises_leaf | intros has_crypto].
  apply raises_only_bind; [destruct has_crypto; raises | intros has_quote].
  destruct has_quote; [raises | apply raises_convert_via_usd].
Qed.

Lemma crypto_list_in_coingecko code :
  mem code crypto_list = true -> in_coingecko code = true.
Proof.
  unfold mem, crypto_list. cbn [existsb].
  rewrite !Bool.orb_true_iff, !String.eqb_eq.
  intros [-> | [-> | [-> | [-> | [-> | [-> | [-> | H]]]]]]]; try reflexivity.
  discriminate H.
Qed.

Lemma raises_route b q amount commission :
  raises_only path_exception (route E b q amount commission).
Proof.
  unfold route.
  destruct (mem b crypto_list) eqn:Hb, (mem q crypto_list) eqn:Hq; cbn [orb andb].
  - apply raises_convert_crypto_to_crypto; now apply crypto_list_in_coingecko.
  - apply raises_convert_crypto_to_fiat.
    now rewrite (crypto_list_in_coingecko _ Hb).
  - apply raises_convert_crypto_to_fiat.
    rewrite (crypto_list_in_coingecko _ Hq). apply Bool.orb_true_r.
  - apply raises_convert_fiat_to_fiat.
Qed.

Lemma raises_get_cached_rate P b q : raises_only P (get_cached_rate E b q).
Proof.
  intros w e w' H. unfold get_cached_rate, bind, cache_get, time_time in H.
  destruct (RATE_CACHE w !! cache_key b q) as [[rate stored]|];
    [destruct (Py.Qlt_bool _ _) |]; discriminate H.
Qed.

Lemma currency_code_of_normalized raw name w :
  normalize_currency_name raw = Some name ->
  exists code, currency_code name w = (Ok (Text.lower code), w).
Proof.
  intros Hname. destruct (normalized_name_lookup raw name Hname) as [code Hcode].
  exists code. unfold currency_code. now rewrite Hcode.
Qed.

(** Once both names resolve, whatever [get_price] raises carries one of
    the messages built inside its [try]. *)
Lemma get_price_resolved_raises base quote bk qk amount commission w e w' :
  normalize_currency_name (Some base) = Some bk ->
  normalize_currency_name (Some quote) = Some qk ->
  get_price E base quote amount commission w = (Raise e, w') ->
  exists m, e = APIException m /\ provider_message m = true.
Proof.
  intros Hbk Hqk. unfold get_price. rewrite Hbk, Hqk.
  destruct (currency_code_of_normalized _ _ w Hbk) as (bcode & Hbc).
  destruct (currency_code_of_normalized _ _ w Hqk) as (qcode & Hqc).
  rewrite (bind_ok _ _ _ _ _ Hbc), (bind_ok _ _ _ _ _ Hqc).
  intros Hrun.
  apply bind_inv in Hrun as [(cached & w1 & _ & Hrun) | (e' & Hlook & _)];
    [| now apply raises_get_cached_rate with (P := fun _ => False) in Hlook].
  destruct cached as [[rate stored]|]; [discriminate Hrun |].
  unfold resolve_and_cache, try_except in Hrun.
  destruct (bind (route E _ _ amount commission) _ w1) as [[r|e0] w2] eqn:Hbody;
    [discriminate Hrun |].
  assert (Hpath : path_exception e0).
  { revert Hbody. apply raises_only_bind; [apply raises_route | intros [result ts]].
    apply raises_only_bind; [apply raises_only_lift_div | intros rate].
    intros w3 e3 w3' H3. discriminate H3. }
  destruct e0; injection Hrun as <- _; eexists; now split.
Qed.

Lemma get_price_raises_api base quote amount commission w e w' :
  get_price E base quote amount commission w = (Raise e, w') ->
  is_api_exception e = true.
Proof.
  destruct (normalize_currency_name (Some base)) as [bk|] eqn:Hbk;
    [| unfold get_price; rewrite Hbk; now intros [= <- _]].
  destruct (normalize_currency_name (Some quote)) as [qk|] eqn:Hqk;
    [| unfold get_price; rewrite Hbk, Hqk; now intros [= <- _]].
  intros Hrun.
  now destruct (get_price_resolved_raises _ _ _ _ _ _ _ _ _ Hbk Hqk Hrun) as (m & -> & _).
Qed.

(** X3: whatever goes wrong, [get_price] raises an [APIException], never a
    bare Python exception: the unknown-currency error for the base name
    when it does not resolve, for the quote name when the base resolves
    and the quote does not, and otherwise one of the eight messages built
    inside the [try] (a provider error of a direct path or one of the two
    wrappers).  In particular the lookups [Config.CURRENCIES[...]] outside
    the [try] never raise [KeyError], and the message for an unsupported
    crypto ticker is unreachable, every ticker of [crypto_list] having its
    id in [COINGECKO_IDS]. *)
Theorem get_price_raises_api_exceptions base quote amount commission w e w' :
  get_price E base quote amount commission w = (Raise e, w') ->
  exists m,
    e = APIException m
    /\ ((m = UnknownCurrencyMsg base /\ normalize_currency_name (Some base) = None)
        \/ (m = UnknownCurrencyMsg quote /\ normalize_currency_name (Some base) <> None
                                          /\ normalize_currency_name (Some quote) = None)
        \/ (provider_message m = true
            /\ normalize_currency_name (Some base) <> None
            /\ normalize_currency_name (Some quote) <> None)).
Proof.
  destruct (normalize_currency_name (Some base)) as [bk|] eqn:Hbk.
  - destruct (normalize_currency_name (Some quote)) as [qk|] eqn:Hqk.
    + intros Hrun.
      destruct (get_price_resolved_raises _ _ _ _ _ _ _ _ _ Hbk Hqk Hrun) as (m & -> & Hm).
      exists m. split; [reflexivity |]. right; right. now repeat split.
    + unfold get_price. rewrite Hbk, Hqk. intros [= <- _].
      eexists. split; [reflexivity |]. right; left. now repeat split.
  - unfold get_price. rewrite Hbk. intros [= <- _].
    eexists. split; [reflexivity |]. now left.
Qed.

End Exceptions.

(** A response that is not JSON: the [ValueError] of [json()] comes out
    wrapped. *)
Lemma get_price_raises_api_exceptions_witness :
  get_price {| clock := seconds; http := fun _ _ => Response 200 None;
               OPENEXCHANGE_API_KEY := "k" |} "USD" "RUB" 1 0 empty_world
  = (Raise (APIException (ConversionMsg ValueError)),
     sent "https://openexchangerates.org/api/latest.json?app_id=k" empty_world)
  /\ exists m, APIException (ConversionMsg ValueError) = APIException m.
Proof.
  assert (H : get_price {| clock := seconds; http := fun _ _ => Response 200 None;
                           OPENEXCHANGE_API_KEY := "k" |} "USD" "RUB" 1 0 empty_world
              = (Raise (APIException (ConversionMsg ValueError)),
                 sent "https://openexchangerates.org/api/latest.json?app_id=k" empty_world))
    by (vm_compute; reflexivity).
  split; [exact H |].
  destruct (get_price_raises_api_exceptions _ _ _ _ _ _ _ _ H) as (m & Hm & _).
  now exists m.
Defined.

(** ** Keys and lifetime of cache entries *)

Section CacheKeys.

Variable E : env.

Lemma cache_key_injective a b a' b' :
  underscore_free a = true -> underscore_free a' = true ->
  cache_key a b = cache_key a' b' -> a = a' /\ b = b'.
Proof.
  unfold cache_key.
  change ("_" ++ b) with (String "_" b). change ("_" ++ b') with (String "_" b').
  revert a'.
  induction a as [|c a IH]; intros [|c' a'] Ha Ha' Hkey;
    cbn [underscore_free] in Ha, Ha'; cbn [append] in Hkey.
  - injection Hkey as ->. now split.
  - injection Hkey as <- _. discriminate Ha'.
  - injection Hkey as -> _. discriminate Ha.
  - injection Hkey as -> Hkey.
    apply Bool.andb_true_iff in Ha as [_ Ha]. apply Bool.andb_true_iff in Ha' as [_ Ha'].
    destruct (IH a' Ha Ha' Hkey) as [-> ->]. now split.
Qed.

Lemma ticker_is_underscore_free name code :
  ticker_of name = Some code -> underscore_free code = true.
Proof.
  unfold ticker_of.
  destruct (normalize_currency_name (Some name)) as [key|] eqn:Hkey; [| discriminate].
  destruct (normalized_name_lookup _ _ Hkey) as (c & Hc).
  rewrite Hc. cbn [option_map]. intros [= <-].
  apply assoc_in in Hc.
  apply (in_map (fun entry => Text.lower (snd entry))) in Hc.
  exact (forallb_in underscore_free vocabulary_tickers _ eq_refl Hc).
Qed.

(** [get_price] touches the cache at the key of its own pair only. *)
Lemma get_price_cache_frame base quote amount commission bc qc w r w' key :
  ticker_of base = Some bc -> ticker_of quote = Some qc ->
  get_price E base quote amount commission w = (r, w') ->
  key <> cache_key bc qc ->
  RATE_CACHE w' !! key = RATE_CACHE w !! key.
Proof.
  intros Hb Hq Hrun Hkey. destruct r as [r|e].
  - rewrite (get_price_with_codes _ _ _ _ _ _ _ _ Hb Hq) in Hrun.
    apply bind_inv in Hrun as [(cached & w1 & Hlook & Hrun) | (? & _ & ?)]; [| discriminate].
    apply get_cached_rate_inv in Hlook as (Hcache & _ & _).
    destruct cached as [[rate stored]|].
    + injection Hrun as _ <-. now rewrite Hcache.
    + unfold resolve_and_cache, try_except in Hrun.
      destruct (bind _ _ w1) as [[r0|e0] w0] eqn:Hbody; [| destruct e0; discriminate].
      injection Hrun as _ <-.
      apply bind_inv in Hbody as [([result ts] & w2 & Hroute & Hbody) | (? & _ & ?)];
        [| discriminate].
      apply bind_inv in Hbody as [(rate & w3 & Hdiv & Hbody) | (? & _ & ?)]; [| discriminate].
      unfold lift in Hdiv. injection Hdiv as _ <-.
      unfold bind, cache_rate, ret in Hbody. injection Hbody as _ <-.
      cbn [tick store RATE_CACHE]. rewrite lookup_insert_ne by congruence.
      pose proof (keeps_route E bc qc amount commission w1) as Hkeep.
      rewrite Hroute in Hkeep. cbn [snd] in Hkeep. now rewrite Hkeep, Hcache.
  - now rewrite (keeps_on_error_get_price E _ _ _ _ w e w' Hrun).
Qed.

(** X4: the key [base_quote] tells apart the ordered pairs of tickers: two
    keys built from underscore-free tickers, as all tickers of the
    vocabulary are, coincide only for the same pair in the same order.  So
    a call of [get_price] leaves the entry of every other ordered pair as
    it was, the reversed pair included: a rate cached for (A, B) is never
    served, nor overwritten, for (B, A). *)
Theorem cache_is_keyed_by_ordered_pair base quote base' quote' bc qc bc' qc'
    amount commission w r w' :
  ticker_of base = Some bc -> ticker_of quote = Some qc ->
  ticker_of base' = Some bc' -> ticker_of quote' = Some qc' ->
  (bc, qc) <> (bc', qc') ->
  get_price E base quote amount commission w = (r, w') ->
  cache_key bc qc <> cache_key bc' qc'
  /\ RATE_CACHE w' !! cache_key bc' qc' = RATE_CACHE w !! cache_key bc' qc'
  /\ (bc <> qc -> RATE_CACHE w' !! cache_key qc bc = RATE_CACHE w !! cache_key qc bc).
Proof.
  intros Hb Hq Hb' Hq' Hpair Hrun.
  pose proof (ticker_is_underscore_free _ _ Hb) as Ub.
  pose proof (ticker_is_underscore_free _ _ Hq) as Uq.
  pose proof (ticker_is_underscore_free _ _ Hb') as Ub'.
  assert (Hkeys : cache_key bc qc <> cache_key bc' qc').
  { intros Heq. apply Hpair. now destruct (cache_key_injective _ _ _ _ Ub Ub' Heq) as [-> ->]. }
  split; [exact Hkeys |]. split.
  - apply (get_price_cache_frame _ _ _ _ _ _ _ _ _ _ Hb Hq Hrun). congruence.
  - intros Hne. apply (get_price_cache_frame _ _ _ _ _ _ _ _ _ _ Hb Hq Hrun).
    intros Heq. now destruct (cache_key_injective _ _ _ _ Uq Ub Heq) as [-> _].
Qed.

Lemma get_cached_rate_after_cache_rate b q rate w :
  get_cached_rate E b q (snd (cache_rate E b q rate w))
  = (Ok (if Py.Qlt_bool (clock E (S (ticks w)) - clock E (ticks w)) CACHE_DURATION
         then Some (rate, clock E (ticks w)) else None),
     tick (snd (cache_rate E b q rate w))).
Proof.
  unfold get_cached_rate, bind, cache_get, time_time, cache_rate.
  cbn [snd tick store RATE_CACHE ticks]. rewrite lookup_insert_eq.
  now destruct (Py.Qlt_bool _ _).
Qed.

(** X5: an entry written by [cache_rate] is read back by
    [get_cached_rate] for the same pair, with the rate and the time of
    writing, as long as the clock reads less than 3600 seconds more than
    at the writing; from exactly 3600 seconds on it is no longer
    returned. *)
Theorem cached_rate_lives_3600_seconds b q rate w :
  ((clock E (S (ticks w)) - clock E (ticks w) < 3600)%Q ->
   get_cached_rate E b q (snd (cache_rate E b q rate w))
   = (Ok (Some (rate, clock E (ticks w))), tick (snd (cache_rate E b q rate w))))
  /\ ((3600 <= clock E (S (ticks w)) - clock E (ticks w))%Q ->
      get_cached_rate E b q (snd (cache_rate E b q rate w))
      = (Ok None, tick (snd (cache_rate E b q rate w)))).
Proof.
  split; intros Hage; rewrite get_cached_rate_after_cache_rate; unfold CACHE_DURATION.
  - now rewrite (Qlt_bool_true _ _ Hage).
  - unfold Py.Qlt_bool. apply Qle_bool_iff in Hage. now rewrite Hage.
Qed.

(** X6: an entry that has reached 3600 seconds is not used: [get_price]
    resolves the pair again and, when the path returns and the amount with
    commission is not zero, returns the path's result and replaces the
    entry by the new rate per unit with the time of the replacement. *)
Theorem stale_entry_is_replaced base quote amount commission bc qc w rate stored
    result ts w1 :
  ticker_of base = Some bc -> ticker_of quote = Some qc ->
  RATE_CACHE w !! cache_key bc qc = Some (rate, stored) ->
  (3600 <= clock E (ticks w) - stored)%Q ->
  route E bc qc amount commission (tick w) = (Ok (result, ts), w1) ->
  ~ (amount * (1 + commission / 100) == 0)%Q ->
  get_price E base quote amount commission w
  = (Ok (result, ts),
     tick (store (cache_key bc qc)
             ((result / (amount * (1 + commission / 100)))%Q, clock E (ticks w1)) w1))
  /\ RATE_CACHE
       (tick (store (cache_key bc qc)
                ((result / (amount * (1 + commission / 100)))%Q, clock E (ticks w1)) w1))
     !! cache_key bc qc
     = Some ((result / (amount * (1 + commission / 100)))%Q, clock E (ticks w1)).
Proof.
  intros Hb Hq Hentry Hage Hroute Hnz. split; [| cbn; apply lookup_insert_eq].
  rewrite (get_price_with_codes _ _ _ _ _ _ _ _ Hb Hq).
  assert (Hstale : ~ (clock E (ticks w) - stored < CACHE_DURATION)%Q)
    by (intros Hlt; now apply Qlt_not_le in Hlt).
  rewrite (bind_ok _ _ _ _ _ (get_cached_rate_stale _ _ _ _ _ _ Hentry Hstale)).
  unfold resolve_and_cache, try_except.
  rewrite (bind_ok _ _ _ _ _ Hroute). cbv beta iota.
  unfold commission_factor. now rewrite (bind_lift_ok _ _ _ _ (div_nonzero _ _ Hnz)).
Qed.

End CacheKeys.

(** A cached dollar-to-rouble rate leaves the rouble-to-dollar key empty. *)
Lemma cache_is_keyed_by_ordered_pair_witness :
  ("usd", "rub") <> ("rub", "usd")
  /\ RATE_CACHE (snd (get_price (fiat_env seconds (JNum 777) "k") "USD" "RUB" 100 0
                       empty_world)) !! cache_key "rub" "usd"
     = RATE_CACHE empty_world !! cache_key "rub" "usd".
Proof.
  assert (Hpair : ("usd", "rub") <> ("rub", "usd")) by discriminate.
  split; [exact Hpair |].
  exact (proj1 (proj2
    (cache_is_keyed_by_ordered_pair (fiat_env seconds (JNum 777) "k")
       "USD" "RUB" "RUB" "USD" "usd" "rub" "rub" "usd" 100 0 empty_world
       (fst (get_price (fiat_env seconds (JNum 777) "k") "USD" "RUB" 100 0 empty_world))
       (snd (get_price (fiat_env seconds (JNum 777) "k") "USD" "RUB" 100 0 empty_world))
       eq_refl eq_refl eq_refl eq_refl Hpair
       (surjective_pairing _)))).
Defined.

Lemma cached_rate_lives_3600_seconds_witness :
  (clock (fiat_env (fun n => 3600 * seconds n)%Q JNull "k") 1
   - clock (fiat_env (fun n => 3600 * seconds n)%Q JNull "k") 0 >= 3600)%Q
  /\ get_cached_rate (fiat_env (fun n => 3600 * seconds n)%Q JNull "k") "usd" "rub"
       (snd (cache_rate (fiat_env (fun n => 3600 * seconds n)%Q JNull "k")
               "usd" "rub" 90 empty_world))
     = (Ok None,
        tick (snd (cache_rate (fiat_env (fun n => 3600 * seconds n)%Q JNull "k")
                     "usd" "rub" 90 empty_world))).
Proof.
  assert (Hage : (3600 <= clock (fiat_env (fun n => 3600 * seconds n)%Q JNull "k") 1
                          - clock (fiat_env (fun n => 3600 * seconds n)%Q JNull "k") 0)%Q)
    by (vm_compute; discriminate).
  split; [exact Hage |].
  exact (proj2 (cached_rate_lives_3600_seconds _ "usd" "rub" 90%Q empty_world) Hage).
Defined.

Lemma stale_entry_is_replaced_witness :
  exists w',
    get_price (fiat_env (fun n => 3600 * seconds n)%Q (JNum 777) "k") "USD" "RUB" 100 0
      (tick (store "usd_rub" (80, 0)%Q empty_world))
    = (Ok ((100 / 1 * 90 * (1 + 0 / 100))%Q, JNum 777), w')
    /\ RATE_CACHE w' !! cache_key "usd" "rub"
       = Some ((100 / 1 * 90 * (1 + 0 / 100) / (100 * (1 + 0 / 100)))%Q, (3600 * seconds 2)%Q).
Proof.
  eexists.
  apply (stale_entry_is_replaced (fiat_env (fun n => 3600 * seconds n)%Q (JNum 777) "k")
           "USD" "RUB" 100 0 "usd" "rub" (tick (store "usd_rub" (80, 0)%Q empty_world))
           80%Q 0%Q (100 / 1 * 90 * (1 + 0 / 100))%Q (JNum 777)
           (sent (openexchange_url (fiat_env (fun n => 3600 * seconds n)%Q (JNum 777) "k"))
              (tick (tick (store "usd_rub" (80, 0)%Q empty_world))))
           eq_refl eq_refl).
  - vm_compute; reflexivity.
  - vm_compute; discriminate.
  - vm_compute; reflexivity.
  - vm_compute; discriminate.
Defined.

(** ** The two crypto paths *)

Section CryptoPaths.

Variable E : env.

Ltac run_request Hhttp :=
  rewrite (bind_ok _ _ _ _ _ (requests_get_response _ _ _ _ _ Hhttp));
  cbn [status_code fst Z.eqb Pos.eqb negb response_json snd];
  unfold bind at 1; cbn [ret]; rewrite bind_time_time;
  unfold bind, lift, ret, raise, Py.contains, Py.getitem, Py.get, Py.get_default.

(** X7: between two crypto tickers the converter asks one request for both
    dollar prices and returns [amount * baseUsd / quoteUsd * (1 +
    commission/100)] with the clock reading taken after the response.  A
    price of 0 or a missing [usd] key is reported as a missing rate, a
    missing id as a rate error, a status other than 200 as a provider
    error before the clock is read; a ticker without an id fails before
    any request. *)
Theorem crypto_to_crypto_divides_dollar_prices b q amount commission w :
  (forall base_id quote_id fields base_entry quote_entry base_usd quote_usd,
      assoc b COINGECKO_IDS = Some base_id -> assoc q COINGECKO_IDS = Some quote_id ->
      http E (length (requests w)) (simple_price_url (base_id ++ "," ++ quote_id) "usd")
      = Response 200 (Some (JObj fields)) ->
      assoc base_id fields = Some (JObj base_entry) ->
      assoc quote_id fields = Some (JObj quote_entry) ->
      assoc "usd" base_entry = Some (JNum base_usd) ->
      assoc "usd" quote_entry = Some (JNum quote_usd) ->
      (~ (base_usd == 0)%Q -> ~ (quote_usd == 0)%Q ->
       convert_crypto_to_crypto E b q amount commission w
       = (Ok ((amount * base_usd / quote_usd * (1 + commission / 100))%Q,
              JNum (clock E (ticks w))),
          tick (sent (simple_price_url (base_id ++ "," ++ quote_id) "usd") w)))
      /\ ((base_usd == 0)%Q \/ (quote_usd == 0)%Q ->
          convert_crypto_to_crypto E b q amount commission w
          = (Raise (APIException CryptoRateMissingMsg),
             tick (sent (simple_price_url (base_id ++ "," ++ quote_id) "usd") w))))
  /\ (forall base_id quote_id fields base_entry quote_entry,
        assoc b COINGECKO_IDS = Some base_id -> assoc q COINGECKO_IDS = Some quote_id ->
        http E (length (requests w)) (simple_price_url (base_id ++ "," ++ quote_id) "usd")
        = Response 200 (Some (JObj fields)) ->
        assoc base_id fields = Some (JObj base_entry) ->
        assoc quote_id fields = Some (JObj quote_entry) ->
        assoc "usd" base_entry = None \/ assoc "usd" quote_entry = None ->
        convert_crypto_to_crypto E b q amount commission w
        = (Raise (APIException CryptoRateMissingMsg),
           tick (sent (simple_price_url (base_id ++ "," ++ quote_id) "usd") w)))
  /\ (forall base_id quote_id fields,
        assoc b COINGECKO_IDS = Some base_id -> assoc q COINGECKO_IDS = Some quote_id ->
        http E (length (requests w)) (simple_price_url (base_id ++ "," ++ quote_id) "usd")
        = Response 200 (Some (JObj fields)) ->
        assoc base_id fields = None \/ assoc quote_id fields = None ->
        convert_crypto_to_crypto E b q amount commission w
        = (Raise (APIException CryptoRateErrorMsg),
           tick (sent (simple_price_url (base_id ++ "," ++ quote_id) "usd") w)))
  /\ (forall base_id quote_id status body,
        assoc b COINGECKO_IDS = Some base_id -> assoc q COINGECKO_IDS = Some quote_id ->
        http E (length (requests w)) (simple_price_url (base_id ++ "," ++ quote_id) "usd")
        = Response status body ->
        status <> 200%Z ->
        convert_crypto_to_crypto E b q amount commission w
        = (Raise (APIException CoinGeckoStatusMsg),
           sent (simple_price_url (base_id ++ "," ++ quote_id) "usd") w))
  /\ (assoc b COINGECKO_IDS = None \/ assoc q COINGECKO_IDS = None ->
      convert_crypto_to_crypto E b q amount commission w
      = (Raise (APIException UnsupportedCryptoMsg), w)).
Proof.
  split; [| split; [| split; [| split]]].
  - intros base_id quote_id fields base_entry quote_entry base_usd quote_usd
      Hb Hq Hhttp Hbe Hqe Hbu Hqu.
    unfold convert_crypto_to_crypto. rewrite Hb, Hq. run_request Hhttp.
    rewrite Hbe, Hqe, Hbu, Hqu. split.
    + intros Hbnz Hqnz. rewrite (truthy_number _ Hbnz), (truthy_number _ Hqnz).
      cbn [negb orb Py.number]. now rewrite (div_nonzero _ _ Hqnz).
    + intros Hzero. cbn [Py.truthy].
      destruct Hzero as [Hz | Hz]; apply Qeq_bool_iff in Hz; rewrite Hz; cbn [negb orb];
        [reflexivity | now rewrite Bool.orb_true_r].
  - intros base_id quote_id fields base_entry quote_entry Hb Hq Hhttp Hbe Hqe Hmissing.
    unfold convert_crypto_to_crypto. rewrite Hb, Hq. run_request Hhttp.
    rewrite Hbe, Hqe.
    destruct Hmissing as [Hm | Hm]; rewrite Hm; cbn [Py.truthy negb orb];
      [reflexivity | now rewrite Bool.orb_true_r].
  - intros base_id quote_id fields Hb Hq Hhttp Hmissing.
    unfold convert_crypto_to_crypto. rewrite Hb, Hq. run_request Hhttp.
    destruct Hmissing as [Hm | Hm]; rewrite Hm; [reflexivity |].
    now destruct (assoc base_id fields).
  - intros base_id quote_id status body Hb Hq Hhttp Hstatus.
    unfold convert_crypto_to_crypto. rewrite Hb, Hq.
    rewrite (bind_ok _ _ _ _ _ (requests_get_response _ _ _ _ _ Hhttp)).
    cbn [status_code fst]. now rewrite (status_not_200 _ Hstatus).
  - intros Hmissing. unfold convert_crypto_to_crypto.
    destruct Hmissing as [Hm | Hm]; rewrite Hm; [reflexivity |].
    now destruct (assoc b COINGECKO_IDS).
Qed.

(** X8: when the response carries the direct quote [rate] of the crypto
    asset in the fiat currency, the conversion multiplies by it from
    crypto to fiat and divides by it from fiat to crypto, times
    [1 + commission/100], with the clock reading as timestamp.  Nothing
    checks the quote: a quote of 0 raises a bare [ZeroDivisionError] in the
    fiat-to-crypto direction and gives 0 in the other, and a quote that is
    null raises a bare [TypeError]. *)
Theorem direct_quote_multiplies_or_divides b q amount commission w crypto_id fields quotes :
  assoc (if in_coingecko b then b else q) COINGECKO_IDS = Some crypto_id ->
  http E (length (requests w))
    (simple_price_url crypto_id (if in_coingecko b then q else b))
  = Response 200 (Some (JObj fields)) ->
  assoc crypto_id fields = Some (JObj quotes) ->
  (forall rate,
      assoc (if in_coingecko b then q else b) quotes = Some (JNum rate) ->
      (in_coingecko b = true ->
       convert_crypto_to_fiat E b q amount commission w
       = (Ok ((amount * rate * (1 + commission / 100))%Q, JNum (clock E (ticks w))),
          tick (sent (simple_price_url crypto_id q) w)))
      /\ (in_coingecko b = false -> ~ (rate == 0)%Q ->
          convert_crypto_to_fiat E b q amount commission w
          = (Ok ((amount / rate * (1 + commission / 100))%Q, JNum (clock E (ticks w))),
             tick (sent (simple_price_url crypto_id b) w)))
      /\ (in_coingecko b = false -> (rate == 0)%Q ->
          convert_crypto_to_fiat E b q amount commission w
          = (Raise ZeroDivisionError, tick (sent (simple_price_url crypto_id b) w))))
  /\ (assoc (if in_coingecko b then q else b) quotes = Some JNull ->
      convert_crypto_to_fiat E b q amount commission w
      = (Raise TypeError,
         tick (sent (simple_price_url crypto_id (if in_coingecko b then q else b)) w))).
Proof.
  intros Hid Hhttp Hentry. split.
  - intros rate Hrate.
    assert (Hrun : convert_crypto_to_fiat E b q amount commission w
              = bind (if in_coingecko b then ret (amount * rate)%Q
                      else lift (Py.div amount rate))
                  (fun result =>
                     ret ((result * commission_factor commission)%Q,
                          JNum (clock E (ticks w))))
                  (tick (sent (simple_price_url crypto_id
                                 (if in_coingecko b then q else b)) w))).
    { unfold convert_crypto_to_fiat. cbv zeta. rewrite Hid. run_request Hhttp.
      rewrite Hentry, Hrate. reflexivity. }
    rewrite Hrun. split; [| split].
    + intros Hb. now rewrite Hb.
    + intros Hb Hnz. rewrite Hb. now rewrite (bind_lift_ok _ _ _ _ (div_nonzero _ _ Hnz)).
    + intros Hb Hz. rewrite Hb. unfold bind, lift. now rewrite (div_zero _ _ Hz).
  - intros Hnull. unfold convert_crypto_to_fiat. cbv zeta. rewrite Hid. run_request Hhttp.
    now rewrite Hentry, Hnull.
Qed.

End CryptoPaths.

(** One bitcoin at 50000 dollars into ether at 2500 dollars. *)
Lemma crypto_to_crypto_divides_dollar_prices_witness :
  convert_crypto_to_crypto crypto_env "btc" "eth" 1 0 empty_world
  = (Ok ((1 * 50000 / 2500 * (1 + 0 / 100))%Q, JNum (seconds 0)),
     tick (sent (simple_price_url ("bitcoin" ++ "," ++ "ethereum") "usd") empty_world)).
Proof.
  apply (proj1 (proj1 (crypto_to_crypto_divides_dollar_prices crypto_env
                         "btc" "eth" 1 0 empty_world)
                  "bitcoin" "ethereum"
                  [ ("bitcoin", JObj [ ("usd", JNum 50000) ]);
                    ("ethereum", JObj [ ("usd", JNum 2500) ]) ]
                  [ ("usd", JNum 50000) ] [ ("usd", JNum 2500) ]
                  50000%Q 2500%Q eq_refl eq_refl eq_refl eq_refl eq_refl eq_refl eq_refl));
    discriminate.
Defined.

(** Ninety roubles into bitcoin quoted at 4500000 roubles. *)
Lemma direct_quote_multiplies_or_divides_witness :
  convert_crypto_to_fiat rouble_quote_env "rub" "btc" 90 0 empty_world
  = (Ok ((90 / 4500000 * (1 + 0 / 100))%Q, JNum (seconds 0)),
     tick (sent (simple_price_url "bitcoin" "rub") empty_world)).
Proof.
  apply (proj1 (proj2 (proj1 (direct_quote_multiplies_or_divides rouble_quote_env
                                "rub" "btc" 90 0 empty_world "bitcoin"
                                [ ("bitcoin", JObj [ ("rub", JNum 4500000) ]) ]
                                [ ("rub", JNum 4500000) ]
                                eq_refl eq_refl eq_refl)
                             4500000%Q eq_refl)));
    [reflexivity | discriminate].
Defined.

(** ** What the expression evaluator returns and raises *)

Section Evaluator.

Variable E : env.

Lemma raises_get_price base quote amount commission :
  raises_only evaluator_exception (get_price E base quote amount commission).
Proof.
  intros w e w' H.
  left. exact (get_price_raises_api E _ _ _ _ _ _ _ H).
Qed.

Lemma raises_parse_term part : raises_only evaluator_exception (parse_term part).
Proof.
  intros w e w' H. unfold parse_term in H.
  destruct (Lexer.match_term part) as [[number letters]|].
  - destruct (Lexer.float_of_digits number); [discriminate H |].
    injection H as <- _. now right.
  - destruct (normalize_currency_name (Some part)); [discriminate H |].
    injection H as <- _. now left.
Qed.

Lemma raises_apply_operator op total converted :
  raises_only evaluator_exception (apply_operator op total converted).
Proof.
  intros w e w' H. unfold apply_operator in H.
  repeat (destruct (String.eqb op _); [try discriminate H |]); [| discriminate H].
  destruct (Qeq_bool converted 0); [| discriminate H].
  injection H as <- _. now left.
Qed.

Lemma raises_eval_parts parts :
  forall total op, raises_only evaluator_exception (eval_parts E parts total op).
Proof.
  induction parts as [|part rest IH]; intros total op; cbn [eval_parts].
  - apply raises_only_ret.
  - destruct (mem (Text.lower part) _); [apply raises_only_ret |].
    destruct (mem part _); [apply IH |].
    apply raises_only_bind; [apply raises_parse_term | intros [amount currency]].
    destruct (normalize_currency_name (Some currency));
      [| apply raises_only_raise; now left].
    apply raises_only_bind; [apply raises_get_price | intros priced].
    apply raises_only_bind; [apply raises_apply_operator | intros total'].
    apply IH.
Qed.

(** X9: whatever [process_complex_expression] raises is an [APIException],
    with one exception: the [ValueError] of [float] for a term whose
    numeric part is not a number, such as 1.2.3, which leaves the function
    unwrapped (and reaches the generic handler of [text_converter], not the
    one for expression errors). *)
Theorem evaluator_raises_api_exception_or_value_error text w e w' :
  process_complex_expression E text w = (Raise e, w') ->
  (exists m, e = APIException m) \/ e = ValueError.
Proof.
  intros H.
  assert (Hraise : evaluator_exception e).
  { revert H. unfold process_complex_expression. cbv zeta.
    destruct (length (expression_parts text) <? 3)%nat;
      [apply raises_only_raise; now left |].
    apply raises_only_bind; [apply raises_eval_parts | intros [total target]].
    destruct (normalize_currency_name _); [apply raises_only_ret |].
    apply raises_only_raise. now left. }
  destruct Hraise as [Hapi | ->]; [left | now right].
  destruct e; try discriminate Hapi. now eexists.
Qed.

Lemma eval_parts_without_marker parts :
  forallb (fun part => negb (mem (Text.lower part) ["в"; "to"])) parts = true ->
  forall total op w r w',
    eval_parts E parts total op w = (Ok r, w') -> snd r = None.
Proof.
  induction parts as [|part rest IH]; intros Hfree total op w r w'; cbn [eval_parts].
  - now intros [= <- _].
  - cbn [forallb] in Hfree. apply Bool.andb_true_iff in Hfree as [Hpart Hrest].
    apply Bool.negb_true_iff in Hpart. rewrite Hpart.
    destruct (mem part _); [now apply IH |].
    intros Hrun.
    apply bind_inv in Hrun as [([amount currency] & w1 & _ & Hrun) | (? & _ & ?)];
      [| discriminate].
    destruct (normalize_currency_name (Some currency)); [| discriminate Hrun].
    apply bind_inv in Hrun as [(priced & w2 & _ & Hrun) | (? & _ & ?)]; [| discriminate].
    apply bind_inv in Hrun as [(total' & w3 & _ & Hrun) | (? & _ & ?)]; [| discriminate].
    now apply IH in Hrun.
Qed.

(** X10: an expression whose parts hold no target marker, or whose marker
    is its last part, is evaluated into dollars: when
    [process_complex_expression] returns, the target it names is Доллар. *)
Theorem expression_without_target_is_in_dollars text w total target w' :
  (forallb (fun part => negb (mem (Text.lower part) ["в"; "to"]))
           (expression_parts text) = true
   \/ exists terms marker,
        expression_parts text = (terms ++ [marker])%list
        /\ forallb (fun part => negb (mem (Text.lower part) ["в"; "to"])) terms = true
        /\ mem (Text.lower marker) ["в"; "to"] = true) ->
  process_complex_expression E text w = (Ok (total, target), w') ->
  target = "Доллар".
Proof.
  intros Hshape. unfold process_complex_expression. cbv zeta.
  destruct (length (expression_parts text) <? 3)%nat; [discriminate |].
  intros Hrun.
  apply bind_inv in Hrun as [([t scanned] & w1 & Hscan & Hrun) | (? & _ & ?)]; [| discriminate].
  assert (Hnone : scanned = None).
  { destruct Hshape as [Hfree | (terms & marker & Hparts & Hfree & Hmarker)].
    - exact (eval_parts_without_marker _ Hfree _ _ _ _ _ Hscan).
    - rewrite Hparts in Hscan. clear Hparts Hrun. revert t w w1 Hscan.
      generalize 0%Q as total0, "+" as op.
      induction terms as [|part rest IH]; intros total0 op t w w1; cbn [app eval_parts].
      + rewrite Hmarker. now intros [= _ <- _].
      + cbn [forallb] in Hfree. apply Bool.andb_true_iff in Hfree as [Hpart Hrest].
        apply Bool.negb_true_iff in Hpart. rewrite Hpart.
        destruct (mem part _); [now apply IH |].
        intros Hscan.
        apply bind_inv in Hscan as [([amount currency] & w2 & _ & Hscan) | (? & _ & ?)];
          [| discriminate].
        destruct (normalize_currency_name (Some currency)); [| discriminate Hscan].
        apply bind_inv in Hscan as [(priced & w3 & _ & Hscan) | (? & _ & ?)];
          [| discriminate].
        apply bind_inv in Hscan as [(total' & w4 & _ & Hscan) | (? & _ & ?)];
          [| discriminate].
        now apply IH in Hscan. }
  subst scanned. vm_compute in Hrun. now injection Hrun as _ <- _.
Qed.

End Evaluator.

(** A malformed number escapes as [ValueError]. *)
Lemma evaluator_raises_api_exception_or_value_error_witness :
  process_complex_expression (fiat_env seconds JNull "k") "1.2.3 USD + 1 USD в RUB"
    empty_world = (Raise ValueError, empty_world)
  /\ ((exists m, ValueError = APIException m) \/ ValueError = ValueError).
Proof.
  assert (H : process_complex_expression (fiat_env seconds JNull "k")
                "1.2.3 USD + 1 USD в RUB" empty_world = (Raise ValueError, empty_world))
    by (vm_compute; reflexivity).
  split; [exact H |].
  exact (evaluator_raises_api_exception_or_value_error _ _ _ _ _ H).
Defined.

(** A sum of dollars and euros without a target. *)
Lemma expression_without_target_is_in_dollars_witness :
  exists total w',
    process_complex_expression (fiat_env seconds JNull "k") "100 USD + 50 EUR"
      empty_world = (Ok (total, "Доллар"), w')
    /\ "Доллар" = "Доллар".
Proof.
  destruct (process_complex_expression (fiat_env seconds JNull "k") "100 USD + 50 EUR"
              empty_world) as [[[total target]|e] w'] eqn:Hrun;
    [| vm_compute in Hrun; discriminate Hrun].
  pose proof (expression_without_target_is_in_dollars (fiat_env seconds JNull "k")
                "100 USD + 50 EUR" empty_world total target w'
                (or_introl eq_refl) Hrun) as Htarget.
  exists total, w'. now rewrite <- Htarget.
Defined.

(** ** The parts of an expression *)

Section Parts.
Import Text Lexer.

Lemma string_of_list_ascii_app l1 l2 :
  string_of_list_ascii (l1 ++ l2) = string_of_list_ascii l1 ++ string_of_list_ascii l2.
Proof. induction l1 as [|c l1 IH]; [reflexivity |]. cbn. now rewrite IH. Qed.

Lemma rev_string_cons c acc :
  rev_string (String c acc) = rev_string acc ++ String c EmptyString.
Proof. unfold rev_string. cbn [list_ascii_of_string rev]. apply string_of_list_ascii_app. Qed.

Lemma append_empty_r s : s ++ EmptyString = s.
Proof.
  induction s as [|c s IH]; [reflexivity |].
  change (String c (s ++ EmptyString) = String c s). now f_equal.
Qed.

Lemma append_assoc_string (a b c : string) : (a ++ b) ++ c = a ++ (b ++ c).
Proof.
  induction a as [|x a IH]; [reflexivity |].
  change (String x ((a ++ b) ++ c) = String x (a ++ (b ++ c))). now f_equal.
Qed.

Lemma starts_with_prefix p : forall s, starts_with p s = String.prefix p s.
Proof.
  induction p as [|a p IH]; intros s; [now destruct s |].
  destruct s as [|b s]; [reflexivity |]. cbn [starts_with String.prefix].
  destruct (ascii_dec a b) as [-> | Hne].
  - now rewrite Ascii.eqb_refl, IH.
  - apply Ascii.eqb_neq in Hne. now rewrite Hne.
Qed.

Lemma starts_with_append d : forall a t, starts_with d a = true -> starts_with d (a ++ t) = true.
Proof.
  induction d as [|x d IH]; intros a t H; [reflexivity |].
  destruct a as [|y a]; [discriminate H |].
  rewrite TextFacts.append_cons. cbn [starts_with] in *.
  apply Bool.andb_true_iff in H as [-> H]. now rewrite (IH _ _ H).
Qed.

(** The split's delimiters: where one starts, and that the loop takes
    each of them as it is, trimmed or not. *)
Lemma delimiter_at_some s d :
  delimiter_at s = Some d ->
  In d delimiters /\ starts_with d s = true /\ exists m, String.length d = S m.
Proof.
  unfold delimiter_at. intros Hfind. apply find_some in Hfind as [Hin Hstart].
  split; [exact Hin | split; [exact Hstart |]]. cbn in Hin.
  repeat (destruct Hin as [<- | Hin]; [eexists; vm_compute; reflexivity |]).
  destruct Hin.
Qed.

Lemma delimiter_at_none s d :
  delimiter_at s = None -> In d delimiters -> starts_with d s = false.
Proof. unfold delimiter_at. intros Hfind Hin. exact (find_none _ _ Hfind d Hin). Qed.

Lemma delimiter_at_none_prefix a t : delimiter_at (a ++ t) = None -> delimiter_at a = None.
Proof.
  intros Hnone. destruct (delimiter_at a) as [d|] eqn:Hd; [| reflexivity].
  apply delimiter_at_some in Hd as (Hin & Hstart & _).
  pose proof (starts_with_append _ _ t Hstart) as Happ.
  rewrite (delimiter_at_none _ _ Hnone Hin) in Happ. discriminate Happ.
Qed.

Lemma delimiter_is_kept token :
  In token delimiters ->
  strip token = token /\ (is_delimiter token = true \/ token = utf8 0x1C80).
Proof.
  intros Hin. cbn in Hin.
  repeat (destruct Hin as [<- | Hin];
          [split; [vm_compute; reflexivity | first [left; vm_compute; reflexivity | now right]] |]).
  destruct Hin.
Qed.

Lemma re_split_from_drop s :
  forall k acc, re_split_from k acc s = re_split_from 0 acc (drop k s).
Proof.
  induction s as [|c s IH]; intros k acc; [now destruct k |].
  destruct k as [|k]; [reflexivity |]. cbn [re_split_from drop]. apply IH.
Qed.

Lemma length_drop k : forall s, (String.length (drop k s) <= String.length s - k)%nat.
Proof.
  induction k as [|k IH]; intros s; [cbn [drop]; lia |].
  destruct s as [|c s]; [cbn; lia |]. cbn [drop String.length]. apply IH.
Qed.

Lemma delimiter_free_prefix a : forall t, delimiter_free (a ++ t) = true -> delimiter_free a = true.
Proof.
  induction a as [|c a IH]; intros t H; [reflexivity |].
  rewrite TextFacts.append_cons in H. cbn [delimiter_free] in *.
  change (String c (a ++ t)) with (String c a ++ t) in H.
  destruct (delimiter_at (String c a ++ t)) eqn:Hd; [discriminate H |].
  rewrite (delimiter_at_none_prefix _ _ Hd). now apply (IH t).
Qed.

Lemma delimiter_free_drop k : forall s, delimiter_free s = true -> delimiter_free (drop k s) = true.
Proof.
  induction k as [|k IH]; intros s H; [now destruct s |].
  destruct s as [|c s]; [reflexivity |]. cbn [drop]. apply IH.
  cbn [delimiter_free] in H. now destruct (delimiter_at (String c s)).
Qed.

Lemma first_piece_prefix s : exists t, s = first_piece s ++ t.
Proof.
  induction s as [|c s [t IH]]; [now exists EmptyString |].
  cbn [first_piece]. destruct (delimiter_at (String c s)); [now eexists |].
  exists t. rewrite TextFacts.append_cons. now f_equal.
Qed.

Lemma first_piece_is_delimiter_free s : delimiter_free (first_piece s) = true.
Proof.
  induction s as [|c s IH]; [reflexivity |].
  cbn [first_piece]. destruct (delimiter_at (String c s)) eqn:Hd; [reflexivity |].
  cbn [delimiter_free]. destruct (first_piece_prefix s) as [t Ht].
  rewrite Ht in Hd. change (String c (first_piece s ++ t)) with (String c (first_piece s) ++ t) in Hd.
  now rewrite (delimiter_at_none_prefix _ _ Hd).
Qed.

Lemma re_split_from_pieces n :
  forall s acc, (String.length s <= n)%nat ->
    exists rest, re_split_from 0 acc s = (rev_string acc ++ first_piece s) :: rest
                 /\ Forall piece_ok rest.
Proof.
  induction n as [|n IH]; intros s acc Hlen.
  - destruct s; [| simpl in Hlen; lia]. exists [].
    cbn [re_split_from first_piece]. now rewrite append_empty_r.
  - destruct s as [|c s];
      [exists []; cbn [re_split_from first_piece]; now rewrite append_empty_r |].
    assert (Hs : (String.length s <= n)%nat) by (simpl in Hlen; lia).
    cbn [re_split_from first_piece].
    destruct (delimiter_at (String c s)) as [d|] eqn:Hd.
    + destruct (delimiter_at_some _ _ Hd) as (Hin & _ & m & Hm).
      rewrite re_split_from_drop, Hm. cbn [Nat.sub]. rewrite Nat.sub_0_r.
      assert (Hdrop : (String.length (drop m s) <= n)%nat)
        by (pose proof (length_drop m s); lia).
      destruct (IH (drop m s) EmptyString Hdrop) as (rest & Heq & Hrest). rewrite Heq.
      eexists. rewrite append_empty_r. split; [reflexivity |].
      constructor; [now left |].
      constructor; [right; apply first_piece_is_delimiter_free | exact Hrest].
    + destruct (IH s (String c acc) Hs) as (rest & Heq & Hrest).
      rewrite Heq. exists rest. rewrite rev_string_cons, append_assoc_string.
      now split.
Qed.

Lemma re_split_pieces s : Forall piece_ok (re_split s).
Proof.
  destruct (re_split_from_pieces (String.length s) s EmptyString (Nat.le_refl _))
    as (rest & Heq & Hrest).
  unfold re_split. rewrite Heq. constructor; [| exact Hrest].
  right. apply first_piece_is_delimiter_free.
Qed.

Lemma lstrip_from_is_drop s : forall k, exists m, lstrip_from k s = drop m s.
Proof.
  induction s as [|c s IH]; intros k; [now exists 0%nat |].
  destruct k as [|k]; cbn [lstrip_from].
  - destruct (space_width (String c s)) as [|k]; [now exists 0%nat |].
    destruct (IH k) as [m ->]. now exists (S m).
  - destruct (IH k) as [m ->]. now exists (S m).
Qed.

Lemma rstrip_prefix s : exists t, s = rstrip s ++ t.
Proof.
  induction s as [|c s [t IH]]; [now exists EmptyString |].
  rewrite TextFacts.rstrip_cons. destruct (blank (String c s)); [now eexists |].
  exists t. rewrite TextFacts.append_cons. now f_equal.
Qed.

Lemma delimiter_free_strip s : delimiter_free s = true -> delimiter_free (strip s) = true.
Proof.
  intros H. unfold strip. destruct (rstrip_prefix (lstrip s)) as [t Ht].
  apply (delimiter_free_prefix _ t). rewrite <- Ht.
  unfold lstrip. destruct (lstrip_from_is_drop s 0) as [m ->].
  now apply delimiter_free_drop.
Qed.

Lemma contains_cons needle x hay :
  contains needle (String x hay)
  = if String.prefix needle (String x hay) then true else contains needle hay.
Proof. reflexivity. Qed.

Lemma delimiter_free_has_no_delimiter d part :
  delimiter_free part = true -> In d delimiters -> contains d part = false.
Proof.
  intros Hfree Hin. induction part as [|x part IH].
  - cbn in Hin.
    repeat (destruct Hin as [<- | Hin]; [vm_compute; reflexivity |]). destruct Hin.
  - cbn [delimiter_free] in Hfree.
    destruct (delimiter_at (String x part)) eqn:Hd; [discriminate Hfree |].
    rewrite contains_cons, <- starts_with_prefix, (delimiter_at_none _ _ Hd Hin).
    now apply IH.
Qed.

(** X11: every part of an expression is either one of the delimiters of
    the split pattern, or a text that holds no delimiter at all: the split
    cuts at every operator, every ve and every to, also inside a word.  So
    a term can never contain the letter в: the word евро is cut in two, and
    an expression that spells the euro in Russian fails on the unknown
    currency е.  The loop reads every delimiter as an operator or as the
    target marker, except the rounded ve U+1C80, which the pattern matches
    under [re.IGNORECASE] but [lower()] does not turn into в. *)
Theorem parts_hold_no_delimiter text part :
  In part (expression_parts text) ->
  (In part delimiters /\ (is_delimiter part = true \/ part = utf8 0x1C80))
  \/ (forall d, In d delimiters -> contains d part = false).
Proof.
  unfold expression_parts. intros Hin.
  apply list_elem_of_In, list_elem_of_filter in Hin. destruct Hin as [_ Hin].
  apply list_elem_of_In, in_map_iff in Hin. destruct Hin as (piece & <- & Hin).
  pose proof (re_split_pieces (remove_char ")" (remove_char "(" text))) as Hall.
  rewrite List.Forall_forall in Hall. destruct (Hall piece Hin) as [Htoken | Hfree].
  - left. destruct (delimiter_is_kept _ Htoken) as [-> Hread]. now split.
  - right. intros d Hd. apply delimiter_free_has_no_delimiter; [| exact Hd].
    now apply delimiter_free_strip.
Qed.

End Parts.

(** The euro spelled in Russian: the first part is [100 е]. *)
Lemma parts_hold_no_delimiter_witness :
  In "100 е" (expression_parts "100 евро + 5 USD в RUB")
  /\ Text.contains "в" "100 е" = false
  /\ fst (process_complex_expression (fiat_env seconds JNull "k")
            "100 евро + 5 USD в RUB" empty_world)
     = Raise (APIException (UnknownCurrencyMsg "е")).
Proof.
  assert (Hin : In "100 е" (expression_parts "100 евро + 5 USD в RUB"))
    by (vm_compute; tauto).
  split; [exact Hin |]. split; [| vm_compute; reflexivity].
  destruct (parts_hold_no_delimiter _ _ Hin) as [[Hd _] | Hfree].
  - cbn in Hd. repeat (destruct Hd as [Hd | Hd]; [discriminate Hd |]). destruct Hd.
  - apply Hfree. cbn. tauto.
Defined.

(** * Properties of the chat layer *)

(** ** Rows of an inline keyboard *)

Section Keyboards.

Lemma firstn_plus {X} (a b : nat) (l : list X) :
  List.firstn (a + b) l = (List.firstn a l ++ List.firstn b (List.skipn a l))%list.
Proof.
  revert l. induction a as [|a IH]; intros l; [reflexivity |].
  destruct l as [|x l]; [now destruct b |]. cbn. now rewrite IH.
Qed.

Lemma rows_concat {X} (r : nat) (l : list X) (m : nat) :
  List.concat (map (fun k => List.firstn r (List.skipn (k * r) l)) (seq 0 m))
  = List.firstn (m * r) l.
Proof.
  induction m as [|m IH]; [reflexivity |].
  rewrite seq_S, map_app, concat_app, IH. cbn [map List.concat Nat.add].
  rewrite app_nil_r. replace (S m * r)%nat with (m * r + r)%nat by lia.
  now rewrite firstn_plus.
Qed.

Lemma rows_cover (n r : nat) :
  (0 < r)%nat ->
  (n <= (n + r - 1) / r * r)%nat
  /\ (0 < (n + r - 1) / r -> ((n + r - 1) / r - 1) * r < n)%nat.
Proof.
  intros Hr.
  pose proof (Nat.div_mod_eq (n + r - 1) r) as Hdiv.
  pose proof (Nat.mod_upper_bound (n + r - 1) r ltac:(lia)) as Hmod.
  split; nia.
Qed.

(** X12: for a positive row width, [create_inline_markup] hands every
    button to the keyboard exactly once and in order: the groups, put end
    to end, are the items; every group holds at least one and at most
    [row_width] buttons, and every group but the last holds exactly
    [row_width].  A row width of 0 raises [ValueError]; a negative one adds
    no button at all. *)
Theorem keyboard_rows_partition_the_items (items : list string) (row_width : Z) :
  ((0 < row_width)%Z ->
   exists rows,
     Main.button_rows items row_width = Ok rows
     /\ List.concat rows = items
     /\ List.Forall (fun row => (1 <= length row <= Z.to_nat row_width)%nat) rows
     /\ (forall k, (S k < length rows)%nat ->
                   length (nth k rows []) = Z.to_nat row_width))
  /\ (row_width = 0%Z -> Main.button_rows items row_width = Raise ValueError)
  /\ ((row_width < 0)%Z -> Main.button_rows items row_width = Ok []).
Proof.
  split; [| split].
  - intros Hpos. unfold Main.button_rows, Main.range_by.
    destruct (Z.eqb_spec row_width 0) as [-> | _]; [lia |].
    destruct (Z.ltb_spec row_width 0) as [Hneg | _]; [lia |].
    set (r := Z.to_nat row_width). set (n := length items).
    assert (Hr : (0 < r)%nat) by (unfold r; lia).
    destruct (rows_cover n r Hr) as [Hcover Hlast].
    eexists. split; [reflexivity |]. rewrite map_map. split; [| split].
    + rewrite rows_concat. apply firstn_all2. exact Hcover.
    + apply List.Forall_forall. intros row Hin.
      apply in_map_iff in Hin as (k & <- & Hk). apply in_seq in Hk.
      rewrite length_firstn, length_skipn. fold n. nia.
    + intros k Hk. rewrite length_map, length_seq in Hk.
      rewrite (nth_indep _ [] (List.firstn r (List.skipn (0 * r) items)))
        by (rewrite length_map, length_seq; lia).
      rewrite (map_nth (fun k => List.firstn r (List.skipn (k * r) items))).
      rewrite seq_nth by lia. rewrite length_firstn, length_skipn. fold n. nia.
  - intros ->. reflexivity.
  - intros Hneg. unfold Main.button_rows.
    destruct (Z.eqb_spec row_width 0) as [-> | _]; [lia |].
    now destruct (Z.ltb_spec row_width 0) as [_ | Hge]; [| lia].
Qed.

End Keyboards.

(** The thirteen currencies in rows of three. *)
Lemma keyboard_rows_partition_the_items_witness :
  (0 < 3)%Z
  /\ exists rows,
       Main.button_rows (map fst Config.CURRENCIES) 3 = Ok rows
       /\ List.concat rows = map fst Config.CURRENCIES
       /\ length rows = 5%nat.
Proof.
  split; [reflexivity |].
  destruct (proj1 (keyboard_rows_partition_the_items (map fst Config.CURRENCIES) 3)
              eq_refl) as (rows & Hrows & Hconcat & _).
  exists rows. split; [exact Hrows | split; [exact Hconcat |]].
  vm_compute in Hrows. injection Hrows as <-. reflexivity.
Defined.

(** ** Text commands *)

Section TextCommands.

Variable float : string -> option Q.

Lemma prefix_split a : forall b, String.prefix a b = true -> exists rest, b = a ++ rest.
Proof.
  induction a as [|x a IH]; intros b H; [now exists b |].
  destruct b as [|y b]; [discriminate H |]. cbn [String.prefix] in H.
  destruct (ascii_dec x y) as [-> | _]; [| discriminate H].
  destruct (IH b H) as [rest ->]. now exists rest.
Qed.

Lemma split_on_from_nonempty sep field s : Main.split_on_from sep field s <> [].
Proof.
  revert field. induction s as [|c s IH]; intros field; cbn [Main.split_on_from];
    [discriminate |].
  destruct (Ascii.eqb c sep); [discriminate | apply IH].
Qed.

(** A word that starts with [--commission=] has a second field. *)
Lemma flag_has_a_value flag :
  String.prefix "--commission=" flag = true ->
  exists field, List.nth_error (Main.split_on "=" flag) 1 = Some field.
Proof.
  intros H. apply prefix_split in H as [rest ->].
  unfold Main.split_on.
  change (Main.split_on_from "=" EmptyString ("--commission=" ++ rest))
    with ("--commission" :: Main.split_on_from "=" EmptyString rest).
  pose proof (split_on_from_nonempty "=" EmptyString rest) as Hne.
  destruct (Main.split_on_from "=" EmptyString rest) as [|field fields];
    [contradiction | now exists field].
Qed.

Lemma last_two {X} (words : list X) (x y d : X) :
  List.last (words ++ [x; y]) d = y
  /\ List.last (List.removelast (words ++ [x; y])) d = x
  /\ List.removelast (List.removelast (words ++ [x; y])) = words.
Proof.
  change (words ++ [x; y])%list with (words ++ [x] ++ [y])%list.
  rewrite app_assoc, last_last, removelast_last, last_last, removelast_last.
  now repeat split.
Qed.

(** X13: a text command is read from its end: the last word is the
    amount, the word before it the quote name, and all words before that,
    joined by single spaces, the base name.  A last word that starts with
    [--commission=] is taken as the commission, and dropped, only when the
    command has more than three words: its value is the text between the
    first and the second [=], percent signs removed; with exactly three
    words it is read as the amount.  Fewer than three words are too few. *)
Theorem text_command_is_read_from_its_end text words quote amount_str :
  words <> [] ->
  (Main.split text = (words ++ [quote; amount_str])%list ->
   length words = 1%nat \/ String.prefix "--commission=" amount_str = false ->
   Main.parse_text_conversion float text
   = Main.resolve_command float (Text.join " " words) quote amount_str 0)
  /\ (forall flag,
        Main.split text = (words ++ [quote; amount_str; flag])%list ->
        String.prefix "--commission=" flag = true ->
        exists field,
          List.nth_error (Main.split_on "=" flag) 1 = Some field
          /\ Main.parse_text_conversion float text
             = match float (Text.remove_char "%" field) with
               | None => Main.BadCommission
               | Some commission =>
                   Main.resolve_command float (Text.join " " words) quote amount_str
                     commission
               end)
  /\ (forall other, (length (Main.split other) < 3)%nat ->
                    Main.parse_text_conversion float other = Main.TooFewParameters).
Proof.
  intros Hwords. split; [| split].
  - intros Hsplit Hflag. unfold Main.parse_text_conversion, Main.take_commission.
    rewrite Hsplit.
    destruct (last_two words quote amount_str EmptyString) as (Hlast & Hquote & Hbase).
    rewrite Hlast.
    assert (Hno : ((3 <? length (words ++ [quote; amount_str]))%nat
                   && String.prefix "--commission=" amount_str)%bool = false).
    { rewrite length_app. cbn [length].
      destruct Hflag as [Hone | Hprefix].
      - rewrite Hone. reflexivity.
      - rewrite Hprefix. apply Bool.andb_false_r. }
    rewrite Hno, Hquote, Hbase, Hlast.
    destruct (Nat.ltb_spec (length (words ++ [quote; amount_str])) 3) as [Hlt | _];
      [| reflexivity].
    rewrite length_app in Hlt. cbn [length] in Hlt.
    destruct words; [contradiction | cbn [length] in Hlt; lia].
  - intros flag Hsplit Hprefix.
    destruct (flag_has_a_value flag Hprefix) as [field Hfield].
    exists field. split; [exact Hfield |].
    unfold Main.parse_text_conversion, Main.take_commission. rewrite Hsplit.
    change (words ++ [quote; amount_str; flag])%list
      with (words ++ [quote; amount_str] ++ [flag])%list.
    rewrite app_assoc, last_last, Hprefix, removelast_last, Hfield.
    assert (Hlong : (3 <? length ((words ++ [quote; amount_str]) ++ [flag]))%nat = true).
    { apply Nat.ltb_lt. rewrite !length_app. cbn [length].
      destruct words; [contradiction | cbn [length]; lia]. }
    rewrite Hlong. cbn [andb].
    destruct (float (Text.remove_char "%" field)); [| reflexivity].
    destruct (last_two words quote amount_str EmptyString) as (Hlast & Hquote & Hbase).
    rewrite Hlast, Hquote, Hbase.
    destruct (Nat.ltb_spec (length (words ++ [quote; amount_str])) 3) as [Hlt | _];
      [| reflexivity].
    rewrite length_app in Hlt. cbn [length] in Hlt.
    destruct words; [contradiction | cbn [length] in Hlt; lia].
  - intros other Hshort. unfold Main.parse_text_conversion, Main.take_commission.
    assert (Hno : (3 <? length (Main.split other))%nat = false)
      by (apply Nat.ltb_ge; lia).
    rewrite Hno. cbn [andb]. now apply Nat.ltb_lt in Hshort as ->.
Qed.

(** X14: when [process_text_conversion] goes on to call [get_price], the
    two names it passes are canonical names of the vocabulary, which
    [get_price] normalizes to themselves; so that call never fails on an
    unknown currency: whatever it raises is an [APIException] with one of
    the eight messages built inside its [try]. *)
Theorem text_command_converts_known_names text base_key quote_key amount commission :
  Main.parse_text_conversion float text
  = Main.CallGetPrice base_key quote_key amount commission ->
  known_name base_key = true /\ known_name quote_key = true
  /\ normalize_currency_name (Some base_key) = Some base_key
  /\ normalize_currency_name (Some quote_key) = Some quote_key
  /\ (forall E w e w',
        get_price E base_key quote_key amount commission w = (Raise e, w') ->
        exists m, e = APIException m /\ provider_message m = true).
Proof.
  intros Hparse.
  assert (Hnames : exists base quote,
             normalize_currency_name (Some base) = Some base_key
             /\ normalize_currency_name (Some quote) = Some quote_key).
  { unfold Main.parse_text_conversion in Hparse.
    destruct (Main.take_commission float (Main.split text)) as [reply | [c parts]] eqn:Htake.
    - unfold Main.take_commission in Htake.
      destruct (_ && _)%bool; [| discriminate Htake].
      destruct (List.nth_error _ 1); [| injection Htake as <-; discriminate Hparse].
      destruct (float _); [discriminate Htake |].
      injection Htake as <-. discriminate Hparse.
    - destruct (length parts <? 3)%nat; [discriminate Hparse |].
      cbv zeta in Hparse. unfold Main.resolve_command in Hparse.
      destruct (normalize_currency_name (Some (Text.join " " _))) as [bk|] eqn:Hb;
        [| discriminate Hparse].
      destruct (normalize_currency_name (Some (List.last _ _))) as [qk|] eqn:Hq;
        [| discriminate Hparse].
      destruct (float _); [| discriminate Hparse].
      injection Hparse as <- <- _ _. eauto. }
  destruct Hnames as (base & quote & Hb & Hq).
  pose proof (normalized_name_is_fixed _ _ Hb) as Hbfix.
  pose proof (normalized_name_is_fixed _ _ Hq) as Hqfix.
  split; [exact (normalized_name_is_known _ _ Hb) |].
  split; [exact (normalized_name_is_known _ _ Hq) |].
  split; [exact Hbfix | split; [exact Hqfix |]].
  intros E w e w' Hrun.
  exact (get_price_resolved_raises E _ _ _ _ _ _ _ _ _ Hbfix Hqfix Hrun).
Qed.

End TextCommands.

(** A command with a two-word base name and a commission. *)
Lemma text_command_is_read_from_its_end_witness :
  ["Белорусский"; "рубль"] <> []
  /\ Main.split "Белорусский рубль USD 100 --commission=1.5%"
     = (["Белорусский"; "рубль"] ++ ["USD"; "100"; "--commission=1.5%"])%list
  /\ exists field,
       List.nth_error (Main.split_on "=" "--commission=1.5%") 1 = Some field
       /\ Main.parse_text_conversion Lexer.float_of_digits
            "Белорусский рубль USD 100 --commission=1.5%"
          = match Lexer.float_of_digits (Text.remove_char "%" field) with
            | None => Main.BadCommission
            | Some commission =>
                Main.resolve_command Lexer.float_of_digits
                  (Text.join " " ["Белорусский"; "рубль"]) "USD" "100" commission
            end.
Proof.
  assert (Hwords : ["Белорусский"; "рубль"] <> []) by discriminate.
  split; [exact Hwords |]. split; [vm_compute; reflexivity |].
  exact (proj1 (proj2 (text_command_is_read_from_its_end Lexer.float_of_digits
                         "Белорусский рубль USD 100 --commission=1.5%"
                         ["Белорусский"; "рубль"] "USD" "100" Hwords))
               "--commission=1.5%" ltac:(vm_compute; reflexivity) eq_refl).
Defined.

(** The names of a command that reaches [get_price]. *)
Lemma text_command_converts_known_names_witness :
  Main.parse_text_conversion Lexer.float_of_digits "баксы rub 100"
  = Main.CallGetPrice "Доллар" "Рубль" 100 0
  /\ known_name "Доллар" = true /\ known_name "Рубль" = true.
Proof.
  assert (H : Main.parse_text_conversion Lexer.float_of_digits "баксы rub 100"
              = Main.CallGetPrice "Доллар" "Рубль" 100 0) by (vm_compute; reflexivity).
  split; [exact H |].
  destruct (text_command_converts_known_names Lexer.float_of_digits _ _ _ _ _ H)
    as (Hb & Hq & _).
  now split.
Defined.

(** ** Case and surrounding whitespace *)

Module TextIdempotence.
Import Text.

Ltac each_byte c := destruct c as [[] [] [] [] [] [] [] []]; vm_compute; intuition congruence.

Lemma lowered_capital_is_plain c :
  between 65 90 c = true ->
  between 65 90 (shift_up 32 c) = false /\ Ascii.eqb (shift_up 32 c) xD0 = false.
Proof. each_byte c. Qed.

Lemma lowered_tail_is_plain d :
  (between 128 143 d = true ->
   between 65 90 (shift_up 16 d) = false /\ Ascii.eqb (shift_up 16 d) xD0 = false)
  /\ (between 144 159 d = true ->
      between 65 90 (shift_up 32 d) = false /\ Ascii.eqb (shift_up 32 d) xD0 = false
      /\ cyrillic_capital_tail (shift_up 32 d) = false)
  /\ (between 160 175 d = true ->
      between 65 90 (shift_down 32 d) = false /\ Ascii.eqb (shift_down 32 d) xD0 = false).
Proof. each_byte d. Qed.

Lemma lead_is_not_tail c :
  (Ascii.eqb c xD0 = true -> cyrillic_capital_tail c = false)
  /\ (between 65 90 c = true -> cyrillic_capital_tail (shift_up 32 c) = false).
Proof. each_byte c. Qed.

(** The head of a lowered string is a Cyrillic capital tail only if the
    head of the string is. *)
Lemma lower_head_tail d s :
  cyrillic_capital_tail d = false ->
  exists e t, lower (String d s) = String e t /\ cyrillic_capital_tail e = false.
Proof.
  intros Hd. cbn [lower]. destruct (between 65 90 d) eqn:Hup.
  - eexists _, _. split; [reflexivity | now apply lead_is_not_tail].
  - destruct (Ascii.eqb d xD0) eqn:Hlead; [| eexists _, _; split; [reflexivity | exact Hd]].
    destruct s as [|x s]; [eexists _, _; split; [reflexivity | exact Hd] |].
    destruct (between 128 143 x); [eexists _, _; split; reflexivity |].
    destruct (between 144 159 x); [eexists _, _; split; reflexivity |].
    destruct (between 160 175 x); [eexists _, _; split; reflexivity |].
    eexists _, _; split; [reflexivity | exact Hd].
Qed.

Lemma lower_plain c s :
  between 65 90 c = false -> Ascii.eqb c xD0 = false ->
  lower (String c s) = String c (lower s).
Proof. intros Hup Hlead. cbn [lower]. now rewrite Hup, Hlead. Qed.

Lemma lower_lead_plain e t :
  cyrillic_capital_tail e = false ->
  lower (String xD0 (String e t)) = String xD0 (lower (String e t)).
Proof.
  unfold cyrillic_capital_tail. rewrite !Bool.orb_false_iff. intros [[H1 H2] H3].
  cbn [lower]. change (between 65 90 xD0) with false. change (Ascii.eqb xD0 xD0) with true.
  cbn iota. now rewrite H1, H2, H3.
Qed.

Lemma lower_lead_capital d s :
  lower (String xD0 (String d s))
  = if between 128 143 d then String xD1 (String (shift_up 16 d) (lower s))
    else if between 144 159 d then String xD0 (String (shift_up 32 d) (lower s))
    else if between 160 175 d then String xD1 (String (shift_down 32 d) (lower s))
    else String xD0 (lower (String d s)).
Proof. reflexivity. Qed.

Lemma lower_idempotent_upto n :
  forall s, (String.length s <= n)%nat -> lower (lower s) = lower s.
Proof.
  induction n as [|n IH]; intros s Hlen.
  - destruct s; [reflexivity | simpl in Hlen; lia].
  - destruct s as [|c s]; [reflexivity |].
    assert (Hs : (String.length s <= n)%nat) by (simpl in Hlen; lia).
    destruct (between 65 90 c) eqn:Hup.
    + destruct (lowered_capital_is_plain c Hup) as [H1 H2].
      cbn [lower]. rewrite Hup. rewrite (lower_plain _ _ H1 H2). now rewrite (IH s Hs).
    + destruct (Ascii.eqb c xD0) eqn:Hlead;
        [| rewrite (lower_plain _ _ Hup Hlead), (lower_plain _ _ Hup Hlead);
           now rewrite (IH s Hs)].
      apply Ascii.eqb_eq in Hlead. subst c.
      destruct s as [|d s]; [reflexivity |].
      assert (Hs' : (String.length s <= n)%nat) by (simpl in Hs; lia).
      destruct (lowered_tail_is_plain d) as (T1 & T2 & T3).
      rewrite (lower_lead_capital d s).
      destruct (between 128 143 d) eqn:R1.
      { destruct (T1 eq_refl) as [P1 P2].
        rewrite (lower_plain xD1 _ eq_refl eq_refl), (lower_plain _ _ P1 P2).
        now rewrite (IH s Hs'). }
      destruct (between 144 159 d) eqn:R2.
      { destruct (T2 eq_refl) as (P1 & P2 & P3).
        rewrite (lower_lead_plain _ _ P3), (lower_plain _ _ P1 P2).
        now rewrite (IH s Hs'). }
      destruct (between 160 175 d) eqn:R3.
      { destruct (T3 eq_refl) as [P1 P2].
        rewrite (lower_plain xD1 _ eq_refl eq_refl), (lower_plain _ _ P1 P2).
        now rewrite (IH s Hs'). }
      assert (Hd : cyrillic_capital_tail d = false)
        by (unfold cyrillic_capital_tail; now rewrite R1, R2, R3).
      destruct (lower_head_tail d s Hd) as (e & t & Heq & He).
      rewrite Heq, (lower_lead_plain _ _ He), <- Heq. now rewrite (IH (String d s) Hs).
Qed.

Lemma lower_idempotent s : lower (lower s) = lower s.
Proof. apply (lower_idempotent_upto (String.length s)). lia. Qed.

(** Whitespace at the head of a text is whitespace at the head of every
    text that extends it. *)
Lemma blank_append_upto n :
  forall a t, (String.length a <= n)%nat -> blank a = true -> blank (a ++ t) = blank t.
Proof.
  induction n as [|n IH]; intros a t Hlen Ha.
  - destruct a; [reflexivity | simpl in Hlen; lia].
  - unfold blank in *. rewrite (TextFacts.lstrip_unfold a) in Ha.
    destruct (space_width a) as [|k] eqn:Hw.
    + destruct a; [reflexivity | discriminate Ha].
    + apply TextFacts.space_width_spec in Hw as (cp & a' & Hin & -> & Hk).
      rewrite <- Hk, TextFacts.drop_append in Ha.
      rewrite append_assoc_string, (TextFacts.lstrip_unfold (utf8 cp ++ (a' ++ t))).
      rewrite (TextFacts.space_width_of _ _ Hin), Hk, <- Hk, TextFacts.drop_append.
      apply (IH a' t); [| exact Ha].
      rewrite TextFacts.append_length in Hlen. lia.
Qed.

Lemma rstrip_split s : exists t, s = rstrip s ++ t /\ blank t = true.
Proof.
  induction s as [|c s (t & IH & Ht)]; [now exists EmptyString |].
  rewrite TextFacts.rstrip_cons. destruct (blank (String c s)) eqn:Hb; [now eexists |].
  exists t. rewrite TextFacts.append_cons. split; [now f_equal | exact Ht].
Qed.

Lemma blank_rstrip s : blank (rstrip s) = blank s.
Proof.
  destruct (rstrip_split s) as (t & Hs & Ht).
  destruct (blank (rstrip s)) eqn:Hb.
  - rewrite Hs. now rewrite (blank_append_upto _ _ t (Nat.le_refl _) Hb).
  - destruct s as [|c s]; [discriminate Hb |].
    rewrite TextFacts.rstrip_cons in Hb. now destruct (blank (String c s)).
Qed.

Lemma rstrip_idempotent s : rstrip (rstrip s) = rstrip s.
Proof.
  induction s as [|c s IH]; [reflexivity |].
  pose proof (blank_rstrip (String c s)) as Hblank.
  rewrite TextFacts.rstrip_cons in *. destruct (blank (String c s)); [reflexivity |].
  now rewrite TextFacts.rstrip_cons, Hblank, IH.
Qed.

(** What [lstrip] leaves does not start with whitespace. *)
Lemma lstrip_stops_upto n :
  forall s, (String.length s <= n)%nat -> space_width (lstrip s) = O.
Proof.
  induction n as [|n IH]; intros s Hlen.
  - destruct s; [reflexivity | simpl in Hlen; lia].
  - rewrite (TextFacts.lstrip_unfold s). destruct (space_width s) as [|k] eqn:Hw; [exact Hw |].
    apply IH. destruct s as [|c s]; [discriminate Hw |].
    cbn [drop]. pose proof (length_drop k s). simpl in Hlen. lia.
Qed.

Lemma lstrip_of_stripped s : space_width s = O -> lstrip s = s.
Proof. intros H. now rewrite TextFacts.lstrip_unfold, H. Qed.

Lemma rstrip_keeps_head s : space_width s = O -> space_width (rstrip s) = O.
Proof.
  intros Hs. destruct (space_width (rstrip s)) as [|k] eqn:Hw; [reflexivity |].
  apply TextFacts.space_width_spec in Hw as (cp & t' & Hin & Heq & Hk).
  destruct (rstrip_split s) as (t & Hsplit & _).
  rewrite Hsplit, Heq, append_assoc_string, (TextFacts.space_width_of _ _ Hin), Hk in Hs.
  discriminate Hs.
Qed.

Lemma strip_idempotent s : strip (strip s) = strip s.
Proof.
  unfold strip.
  pose proof (lstrip_stops_upto _ s (Nat.le_refl _)) as Hhead.
  rewrite (lstrip_of_stripped _ (rstrip_keeps_head _ Hhead)).
  apply rstrip_idempotent.
Qed.

Lemma lower_is_empty s : nonempty (lower s) = nonempty s.
Proof.
  destruct s as [|c s]; [reflexivity |].
  destruct (lower (String c s)) eqn:Hl; [now apply TextFacts.lower_nonempty in Hl | reflexivity].
Qed.

End TextIdempotence.

Section Insensitivity.

Lemma normalize_blank raw :
  Text.lower (Text.strip raw) = EmptyString -> normalize_currency_name (Some raw) = None.
Proof.
  intros Hblank. unfold normalize_currency_name. rewrite Hblank.
  now destruct (negb (Text.nonempty raw)).
Qed.

(** X15: normalization looks at a name only through its lowercased,
    trimmed form: a name, the name in lower case and the name without its
    surrounding whitespace normalize alike, and so do any two names that
    differ only in case and surrounding whitespace. *)
Theorem normalization_ignores_case_and_margins raw :
  normalize_currency_name (Some (Text.lower raw)) = normalize_currency_name (Some raw)
  /\ normalize_currency_name (Some (Text.strip raw)) = normalize_currency_name (Some raw)
  /\ (forall other,
        Text.lower (Text.strip other) = Text.lower (Text.strip raw) ->
        normalize_currency_name (Some other) = normalize_currency_name (Some raw)).
Proof.
  assert (Hsame : forall a b,
             Text.lower (Text.strip a) = Text.lower (Text.strip b) ->
             normalize_currency_name (Some a) = normalize_currency_name (Some b)).
  { intros a b Heq.
    destruct (Text.lower (Text.strip b)) as [|c t] eqn:Hb.
    - rewrite (normalize_blank a Heq). symmetry. now apply normalize_blank.
    - unfold normalize_currency_name. rewrite Heq, Hb.
      assert (Ha : Text.nonempty a = true)
        by (destruct a; [discriminate Heq | reflexivity]).
      assert (Hb' : Text.nonempty b = true)
        by (destruct b; [discriminate Hb | reflexivity]).
      now rewrite Ha, Hb'. }
  split; [| split].
  - apply Hsame. rewrite <- TextFacts.lower_strip. apply TextIdempotence.lower_idempotent.
  - apply Hsame. now rewrite TextIdempotence.strip_idempotent.
  - intros other Heq. now apply Hsame.
Qed.

Lemma normalization_ignores_case_and_margins_witness :
  Text.lower (Text.strip "  ЕВРО ") = Text.lower (Text.strip "Евро")
  /\ normalize_currency_name (Some "  ЕВРО ") = normalize_currency_name (Some "Евро").
Proof.
  assert (H : Text.lower (Text.strip "  ЕВРО ") = Text.lower (Text.strip "Евро"))
    by (vm_compute; reflexivity).
  split; [exact H |].
  exact (proj2 (proj2 (normalization_ignores_case_and_margins "Евро")) "  ЕВРО " H).
Defined.

End Insensitivity.

(** ** The two directions of the USD bridge *)

Section BridgeDirections.

Variable E : env.

Lemma base_to_usd_step_fiat b w status fields rates published rate :
  assoc b COINGECKO_IDS = None ->
  http E (length (requests w)) (openexchange_url E) = Response status (Some (JObj fields)) ->
  assoc "rates" fields = Some (JObj rates) ->
  assoc "timestamp" fields = Some published ->
  assoc (Text.upper b) rates = Some rate ->
  base_to_usd_step E b w = (Ok (rate, published), sent (openexchange_url E) w).
Proof.
  intros Hid Hhttp Hrates Hts Hrate. unfold base_to_usd_step. rewrite Hid.
  rewrite (bind_ok _ _ _ _ _ (requests_get_response _ _ _ _ _ Hhttp)).
  unfold response_json. cbn [snd]. unfold bind, lift, ret, Py.getitem, Py.get_default.
  now rewrite Hrates, Hrate, Hts.
Qed.

Lemma usd_to_quote_step_crypto q w quote_id status fields entry price :
  assoc q COINGECKO_IDS = Some quote_id ->
  http E (length (requests w)) (simple_price_url quote_id "usd")
  = Response status (Some (JObj fields)) ->
  assoc quote_id fields = Some (JObj entry) ->
  assoc "usd" entry = Some (JNum price) ->
  ~ (price == 0)%Q ->
  usd_to_quote_step E q w
  = (Ok (JNum (1 / price), JNum (clock E (ticks w))),
     tick (sent (simple_price_url quote_id "usd") w)).
Proof.
  intros Hid Hhttp Hentry Hprice Hnz. unfold usd_to_quote_step. rewrite Hid.
  rewrite (bind_ok _ _ _ _ _ (requests_get_response _ _ _ _ _ Hhttp)).
  unfold response_json. cbn [snd]. unfold bind, lift, ret, Py.getitem, time_time.
  rewrite Hentry, Hprice. cbn [Py.number]. now rewrite (div_nonzero _ _ Hnz).
Qed.

(** X16: from a fiat base to a crypto quote, the bridge multiplies the
    amount by the snapshot rate of the base, which counts units of the
    base per dollar, and by the inverse of the quote's dollar price: it
    returns [amount * rate * (1 / price) * (1 + commission/100)], where
    [convert_fiat_to_fiat] divides by the rate of the base.  The fiat
    request is sent first, the crypto request second, and no status code
    is checked. *)
Theorem bridge_multiplies_by_base_rate b q amount commission w quote_id
    status1 fields1 rates published rate status2 fields2 entry price ts :
  assoc b COINGECKO_IDS = None ->
  assoc q COINGECKO_IDS = Some quote_id ->
  http E (length (requests w)) (openexchange_url E)
  = Response status1 (Some (JObj fields1)) ->
  assoc "rates" fields1 = Some (JObj rates) ->
  assoc "timestamp" fields1 = Some published ->
  assoc (Text.upper b) rates = Some (JNum rate) ->
  http E (S (length (requests w))) (simple_price_url quote_id "usd")
  = Response status2 (Some (JObj fields2)) ->
  assoc quote_id fields2 = Some (JObj entry) ->
  assoc "usd" entry = Some (JNum price) ->
  ~ (price == 0)%Q ->
  Py.max published (JNum (clock E (ticks w))) = Ok ts ->
  convert_via_usd E b q amount commission w
  = (Ok ((amount * rate * (1 / price) * (1 + commission / 100))%Q, ts),
     tick (sent (simple_price_url quote_id "usd") (sent (openexchange_url E) w)))
  /\ requests (tick (sent (simple_price_url quote_id "usd") (sent (openexchange_url E) w)))
     = (requests w ++ [openexchange_url E; simple_price_url quote_id "usd"])%list.
Proof.
  intros Hb Hq Hhttp1 Hrates Hts Hrate Hhttp2 Hentry Hprice Hnz Hmax. split.
  - unfold convert_via_usd, try_except.
    rewrite (bind_ok _ _ _ _ _
               (base_to_usd_step_fiat _ _ _ _ _ _ _ Hb Hhttp1 Hrates Hts Hrate)).
    cbv beta iota.
    assert (Hhttp2' : http E (length (requests (sent (openexchange_url E) w)))
                        (simple_price_url quote_id "usd")
                      = Response status2 (Some (JObj fields2))).
    { cbn [sent requests]. rewrite length_app. cbn [length].
      now replace (length (requests w) + 1)%nat with (S (length (requests w))) by lia. }
    rewrite (bind_ok _ _ _ _ _
               (usd_to_quote_step_crypto _ _ _ _ _ _ _ Hq Hhttp2' Hentry Hprice Hnz)).
    cbv beta iota. cbn [Py.number]. unfold bind at 1 2. cbn [lift].
    cbv zeta. change (ticks (sent (openexchange_url E) w)) with (ticks w).
    now rewrite (bind_lift_ok _ _ _ _ Hmax).
  - cbn [tick sent requests]. now rewrite <- app_assoc.
Qed.

End BridgeDirections.

(** Ninety roubles into bitcoin over the bridge: 90 * 90 / 50000. *)
Lemma bridge_multiplies_by_base_rate_witness :
  convert_via_usd (bridge_env seconds (JNum 5) "k") "rub" "btc" 90 0 empty_world
  = (Ok ((90 * 90 * (1 / 50000) * (1 + 0 / 100))%Q, JNum 5),
     tick (sent (simple_price_url "bitcoin" "usd")
             (sent (openexchange_url (bridge_env seconds (JNum 5) "k")) empty_world))).
Proof.
  apply (proj1 (bridge_multiplies_by_base_rate (bridge_env seconds (JNum 5) "k")
                  "rub" "btc" 90 0 empty_world "bitcoin"
                  200%Z
                  [ ("timestamp", JNum 5);
                    ("rates", JObj [ ("USD", JNum 1); ("EUR", JNum (10 # 11));
                                     ("RUB", JNum 90) ]) ]
                  [ ("USD", JNum 1); ("EUR", JNum (10 # 11)); ("RUB", JNum 90) ]
                  (JNum 5) 90%Q 200%Z
                  [ ("bitcoin", JObj [ ("usd", JNum 50000) ]) ]
                  [ ("usd", JNum 50000) ] 50000%Q (JNum 5)
                  eq_refl eq_refl ltac:(vm_compute; reflexivity) eq_refl eq_refl eq_refl
                  ltac:(vm_compute; reflexivity) eq_refl eq_refl
                  ltac:(discriminate) ltac:(vm_compute; reflexivity))).
Defined.
